(** * MemoryBuffer: a shallow embedding of src/src/memory_buffer.hpp

    The class template [MemoryBuffer<T>] owns at most one contiguous array of
    [T] living in pageable, pinned, device or managed memory.  The embedding
    keeps the program state explicit:

    - a heap of live blocks, each a list of raw bytes (the class only ever
      moves bytes: [new T[n]], [memcpy], [gpuMemcpy], [ofstream::write]);
    - a store of [MemoryBuffer] objects indexed by object identity, so that
      [this == &other] and the mutation of [other] by a move are visible;
    - the files written by [dump] and read by [from_dump].

    Member functions are programs in a state-and-exception monad whose third
    outcome, [Undefined], stands for undefined behaviour (releasing or
    reading a block that is not live, using an object that does not exist).

    Modelling boundary.  The allocators live outside the repository
    ([operator new[]], and the [gpu*] macros of the absent gpu_macros.hpp);
    they are modelled as always satisfying a request with a fresh block, so
    out-of-memory is not part of the model, and neither is the
    [std::bad_array_new_length] of a [new T[n]] whose byte count does not
    fit [size_t]: what is proved of an allocation assumes
    [n * sizeof(T) < 2^64].  Fresh memory is indeterminate in
    C++; the model fills it with zero bytes.  The four release calls
    ([delete[]], [gpuHostFree], [gpuFree]) differ only in the allocator the
    block goes back to and are one [free] here.  [sizeof(T) * n] is computed
    in [size_t] and wraps modulo 2^64. *)

From Stdlib Require Import NArith ZArith Lia.
From Stdlib Require Import Strings.Byte.
From Stdlib Require Import Ascii Decimal DecimalString DecimalN.
From stdpp Require Import base option gmap strings list.

Local Open Scope N_scope.

(** ** Build configuration *)

(** [__GPU__] is the preprocessor symbol that selects the accelerator build;
    [sizeof_T] is [sizeof(T)] for the element type the template is
    instantiated at (never zero in C++). *)
Class Build := { __GPU__ : bool; sizeof_T : positive }.

Definition sizeof {build : Build} : N := Npos sizeof_T.

(** ** Data model *)

Inductive MemoryType :=
| PAGEABLE  (* memory allocated with malloc or new[] *)
| PINNED    (* memory allocated with gpuHostAlloc *)
| DEVICE    (* GPU memory *)
| MANAGED.  (* Host memory accessible by GPUs *)

Global Instance MemoryType_eq_dec : EqDecision MemoryType.
Proof. solve_decision. Defined.

(** Heap addresses; a [T*] is [None] for [nullptr] or the base address of a
    block. *)
Abbreviation addr := positive.
Definition pointer := option positive.

(** Object identities (the value of [this]). *)
Abbreviation objid := nat.

(** The three private fields of the class. *)
Record MemoryBuffer := mkMemoryBuffer {
  _data : pointer;
  n : N;
  mem_type : MemoryType
}.

Inductive exception :=
| invalid_argument
| runtime_error.

Record state := State {
  heap : gmap positive (list byte);      (* live blocks *)
  objs : gmap nat MemoryBuffer;          (* MemoryBuffer objects, by identity *)
  files : gmap string (list byte);       (* file contents, by path *)
  readonly : gset string                 (* paths an output stream fails on *)
}.

Definition set_heap (h : gmap positive (list byte)) (s : state) : state :=
  State h (objs s) (files s) (readonly s).
Definition set_objs (o : gmap nat MemoryBuffer) (s : state) : state :=
  State (heap s) o (files s) (readonly s).
Definition set_files (f : gmap string (list byte)) (s : state) : state :=
  State (heap s) (objs s) f (readonly s).

(** ** The monad of member functions *)

Inductive outcome (A : Type) :=
| Return (a : A) (s : state)
| Throw (e : exception) (s : state)
| Undefined.
Arguments Return {A} a s.
Arguments Throw {A} e s.
Arguments Undefined {A}.

Definition M (A : Type) : Type := state -> outcome A.

Global Instance M_ret : MRet M := fun A a s => Return a s.
Global Instance M_bind : MBind M := fun A B f m s =>
  match m s with
  | Return a s' => f a s'
  | Throw e s' => Throw e s'
  | Undefined => Undefined
  end.

Definition throw {A} (e : exception) : M A := fun s => Throw e s.
Definition undefined {A} : M A := fun _ => Undefined.
Definition when (c : bool) (m : M unit) : M unit := if c then m else mret tt.

(** [size_t] multiplication. *)
Definition size_t_modulus : N := 2 ^ 64.
Definition size_mul (a b : N) : N := (a * b) mod size_t_modulus.

(** ** Heap primitives *)

(** A request for [len] bytes: a fresh live block, zero filled. *)
Definition alloc (len : N) : M pointer := fun s =>
  let a := fresh (dom (heap s)) in
  Return (Some a) (set_heap (<[a := replicate (N.to_nat len) x00]> (heap s)) s).

(** Releasing [nullptr] does nothing; releasing a block that is not live is
    undefined behaviour. *)
Definition free (p : pointer) : M unit := fun s =>
  match p with
  | None => Return tt s
  | Some a =>
      match heap s !! a with
      | Some _ => Return tt (set_heap (delete a (heap s)) s)
      | None => Undefined
      end
  end.

(** The first [len] bytes of the block at [p].  Nothing is touched when
    [len] is zero. *)
Definition read_bytes (p : pointer) (len : N) : M (list byte) := fun s =>
  if len =? 0 then Return [] s else
  match p with
  | None => Undefined
  | Some a =>
      match heap s !! a with
      | Some bs =>
          if len <=? N.of_nat (length bs)
          then Return (take (N.to_nat len) bs) s
          else Undefined
      | None => Undefined
      end
  end.

(** Overwrite the bytes of the block at [p] from byte offset [off] on. *)
Definition write_bytes (p : pointer) (off : N) (v : list byte) : M unit := fun s =>
  if N.of_nat (length v) =? 0 then Return tt s else
  match p with
  | None => Undefined
  | Some a =>
      match heap s !! a with
      | Some bs =>
          if off + N.of_nat (length v) <=? N.of_nat (length bs)
          then Return tt (set_heap
                 (<[a := take (N.to_nat off) bs ++ v
                         ++ drop (N.to_nat off + length v) bs]> (heap s)) s)
          else Undefined
      | None => Undefined
      end
  end.

Definition memcpy (dst src : pointer) (len : N) : M unit :=
  bs ← read_bytes src len; write_bytes dst 0 bs.

(** [new T[k]] and [new char[k]]: the array size is computed by the
    new-expression itself, not in [size_t] by the program.  Every request
    is satisfied; a byte count of 2^64 or more, on which the real expression
    throws, is kept out by the hypotheses of the theorems. *)
Definition new_array {build : Build} (k : N) : M pointer := alloc (k * sizeof).
Definition new_char_array (k : N) : M pointer := alloc k.
Definition delete_array (p : pointer) : M unit := free p.

(** Modelled from the spec: gpu_macros.hpp is not among the sources.  The
    spec describes these calls as the pinned, device and managed allocation
    strategies, the matching releases, and byte transfers between
    residencies; they block until done. *)
Definition gpuHostAlloc (len : N) : M pointer := alloc len.
Definition gpuMalloc (len : N) : M pointer := alloc len.
Definition gpuMallocManaged (len : N) : M pointer := alloc len.
Definition gpuHostFree (p : pointer) : M unit := free p.
Definition gpuFree (p : pointer) : M unit := free p.
Definition gpuMemcpy (dst src : pointer) (len : N) : M unit := memcpy dst src len.

(** ** Object store primitives *)

Definition get (this : objid) : M MemoryBuffer := fun s =>
  match objs s !! this with
  | Some b => Return b s
  | None => Undefined
  end.

Definition put (this : objid) (b : MemoryBuffer) : M unit := fun s =>
  Return tt (set_objs (<[this := b]> (objs s)) s).

(** Assignments to one field of [*this]. *)
Definition set__data (this : objid) (p : pointer) : M unit :=
  b ← get this; put this (mkMemoryBuffer p (n b) (mem_type b)).
Definition set_n (this : objid) (k : N) : M unit :=
  b ← get this; put this (mkMemoryBuffer (_data b) k (mem_type b)).
Definition set_mem_type (this : objid) (mt : MemoryType) : M unit :=
  b ← get this; put this (mkMemoryBuffer (_data b) (n b) mt).

(** The object at [this] ceases to exist. *)
Definition forget (this : objid) : M unit := fun s =>
  Return tt (set_objs (delete this (objs s)) s).

(** A constructor body that throws leaves no object behind. *)
Definition constructing (this : objid) (body : M unit) : M unit := fun s =>
  match body s with
  | Throw e s' => Throw e (set_objs (delete this (objs s')) s')
  | r => r
  end.

(** ** Observers *)

Definition operator_bool (b : MemoryBuffer) : bool :=
  match _data b with None => false | Some _ => true end.
Definition data (b : MemoryBuffer) : pointer := _data b.
Definition on_gpu (b : MemoryBuffer) : bool := bool_decide (mem_type b = DEVICE).
Definition pinned (b : MemoryBuffer) : bool := bool_decide (mem_type b = PINNED).
Definition size (b : MemoryBuffer) : N := n b.

(** ** Member functions *)

Section MemoryBuffer.
Context {build : Build}.

(** [~MemoryBuffer()].  The destructor releases the storage and leaves the
    three fields as they are. *)
Definition destructor (this : objid) : M unit :=
  b ← get this;
  when (bool_decide (mem_type b = PAGEABLE) && operator_bool b)
    (delete_array (_data b));;
  when __GPU__
    (when (bool_decide (mem_type b = PINNED) && operator_bool b)
       (gpuHostFree (_data b));;
     when ((bool_decide (mem_type b = DEVICE) || bool_decide (mem_type b = MANAGED))
           && operator_bool b)
       (gpuFree (_data b))).

(** [void allocate(size_t n_elements, MemoryType mem_type)]. *)
Definition allocate (this : objid) (n_elements : N) (mt : MemoryType) : M unit :=
  b ← get this;
  when (operator_bool b) (destructor this);;
  when (negb __GPU__)
    (if bool_decide (mt ≠ PAGEABLE) then throw invalid_argument else mret tt);;
  (if n_elements =? 0 then throw invalid_argument else mret tt);;
  when __GPU__
    (if bool_decide (mt = PINNED) then
       p ← gpuHostAlloc (size_mul sizeof n_elements); set__data this p
     else if bool_decide (mt = DEVICE) then
       p ← gpuMalloc (size_mul sizeof n_elements); set__data this p
     else if bool_decide (mt = MANAGED) then
       p ← gpuMallocManaged (size_mul sizeof n_elements); set__data this p
     else mret tt);;
  when (bool_decide (mt = PAGEABLE))
    (p ← new_array n_elements; set__data this p);;
  set_n this n_elements;;
  set_mem_type this mt.

(** [MemoryBuffer(){}]: the default member initialisers give a null handle
    and a zero count; [mem_type] has no initialiser, so its value is
    whatever the storage held ([garbage]). *)
Definition MemoryBuffer_default (this : objid) (garbage : MemoryType) : M unit :=
  put this (mkMemoryBuffer None 0 garbage).

(** [MemoryBuffer(size_t n_elements, MemoryType mem_type)]. *)
Definition MemoryBuffer_sized (this : objid) (garbage : MemoryType)
    (n_elements : N) (mt : MemoryType) : M unit :=
  constructing this
    (put this (mkMemoryBuffer None 0 garbage);;
     allocate this n_elements mt).

(** [MemoryBuffer(T *buffer, size_t n_elements, MemoryType mem_type)]. *)
Definition MemoryBuffer_adopt (this : objid) (buffer : pointer)
    (n_elements : N) (mt : MemoryType) : M unit :=
  constructing this
    (when (negb __GPU__)
       (if bool_decide (mt ≠ PAGEABLE) then throw invalid_argument else mret tt);;
     (if n_elements =? 0 then throw invalid_argument else mret tt);;
     (if negb (bool_decide (is_Some buffer)) then throw invalid_argument else mret tt);;
     put this (mkMemoryBuffer buffer n_elements mt)).

(** [void to_cpu(MemoryType to_type)]. *)
Definition to_cpu (this : objid) (to_type : MemoryType) : M unit :=
  when __GPU__
    (b ← get this;
     when (bool_decide (mem_type b = DEVICE) && operator_bool b)
       (tmp ← (if bool_decide (to_type = PINNED) then
                 p ← gpuHostAlloc (size_mul sizeof (n b));
                 set_mem_type this PINNED;; mret p
               else
                 p ← new_array (n b);
                 set_mem_type this PAGEABLE;; mret p);
        gpuMemcpy tmp (_data b) (size_mul sizeof (n b));;
        gpuFree (_data b);;
        set__data this tmp)).

(** [void to_gpu()]. *)
Definition to_gpu (this : objid) : M unit :=
  when __GPU__
    (b ← get this;
     when (bool_decide (mem_type b ≠ DEVICE) && operator_bool b)
       (tmp ← gpuMalloc (size_mul sizeof (n b));
        gpuMemcpy tmp (_data b) (size_mul sizeof (n b));;
        (if bool_decide (mem_type b = PINNED) then gpuHostFree (_data b)
         else if bool_decide (mem_type b = MANAGED) then gpuFree (_data b)
         else delete_array (_data b));;
        set__data this tmp;;
        set_mem_type this DEVICE)).

(** The block both copy operations end with: fresh storage under the
    residency of [*this], filled from [other]. *)
Definition copy_storage (this other : objid) : M unit :=
  t ← get this;
  o ← get other;
  when (bool_decide (mem_type t = PAGEABLE) && operator_bool o)
    (p ← new_array (n t);
     set__data this p;;
     memcpy p (_data o) (size_mul (n t) sizeof));;
  when __GPU__
    (if bool_decide (mem_type t = PINNED) && operator_bool o then
       p ← gpuHostAlloc (size_mul (n t) sizeof);
       set__data this p;;
       memcpy p (_data o) (size_mul (n t) sizeof)
     else if bool_decide (mem_type t = DEVICE) && operator_bool o then
       p ← gpuMalloc (size_mul (n t) sizeof);
       set__data this p;;
       gpuMemcpy p (_data o) (size_mul (n t) sizeof)
     else if bool_decide (mem_type t = MANAGED) && operator_bool o then
       p ← gpuMallocManaged (size_mul (n t) sizeof);
       set__data this p;;
       memcpy p (_data o) (size_mul (n t) sizeof)
     else mret tt).

(** [MemoryBuffer(const MemoryBuffer& other)]. *)
Definition MemoryBuffer_copy (this other : objid) : M unit :=
  o ← get other;
  put this (mkMemoryBuffer None (n o) (mem_type o));;
  copy_storage this other.

(** [MemoryBuffer(MemoryBuffer&& other)]. *)
Definition MemoryBuffer_move (this other : objid) : M unit :=
  o ← get other;
  put this (mkMemoryBuffer (_data o) (n o) (mem_type o));;
  set__data other None.

(** [MemoryBuffer& operator=(const MemoryBuffer& other)]. *)
Definition copy_assign (this other : objid) : M unit :=
  if bool_decide (this = other) then mret tt else
  b ← get this;
  when (operator_bool b) (destructor this);;
  o ← get other;
  set_n this (n o);;
  set_mem_type this (mem_type o);;
  copy_storage this other.

(** [MemoryBuffer& operator=(MemoryBuffer&& other)].  [other] is read again
    at every statement, as the two references may name one object. *)
Definition move_assign (this other : objid) : M unit :=
  b ← get this;
  when (operator_bool b) (destructor this);;
  o ← get other; set_n this (n o);;
  o ← get other; set_mem_type this (mem_type o);;
  o ← get other; set__data this (_data o);;
  set__data other None.

(** The end of an object's lifetime: the destructor runs and the object is
    gone. *)
Definition destroy (this : objid) : M unit :=
  destructor this;;
  forget this.

(** [T& operator[](int i)], used to read and to write element [i]: the
    [sizeof(T)] bytes at [_data + i].  No bounds are checked; an access
    outside the block is undefined behaviour. *)
Definition subscript_read (this : objid) (i : Z) : M (list byte) :=
  b ← get this;
  if (i <? 0)%Z then undefined else
  bs ← read_bytes (_data b) (Z.to_N i * sizeof + sizeof);
  mret (drop (N.to_nat (Z.to_N i * sizeof)) bs).

Definition subscript_write (this : objid) (i : Z) (v : list byte) : M unit :=
  b ← get this;
  if (i <? 0)%Z then undefined else
  if negb (N.of_nat (length v) =? sizeof) then undefined else
  write_bytes (_data b) (Z.to_N i * sizeof) v.

(** ** Persistence *)

(** [outfile.open(filename, binary); outfile.write(...)], with the state
    of the stream afterwards as result ([true]: good).  A path in
    [readonly] cannot be opened: the stream is bad and no file is touched.
    On every other path the file is replaced by the bytes written.  A
    stream that opens and fails later is not modelled. *)
Definition ofstream_write (filename : string) (bs : list byte) : M bool := fun s =>
  if bool_decide (filename ∈ readonly s) then Return false s
  else Return true (set_files (<[filename := bs]> (files s)) s).

(** [infile.seekg(0, infile.end); infile.tellg()]: the size of the file; on
    a stream that failed to open [tellg] is -1, converted to [size_t]. *)
Definition ifstream_size (filename : string) : M N := fun s =>
  match files s !! filename with
  | Some bs => Return (N.of_nat (length bs)) s
  | None => Return (size_t_modulus - 1) s
  end.

(** [infile.read(buffer, size)]: a failed stream reads nothing. *)
Definition ifstream_read (filename : string) (buffer : pointer) (len : N) : M unit := fun s =>
  match files s !! filename with
  | Some bs => write_bytes buffer 0 (take (N.to_nat len) bs) s
  | None => Return tt s
  end.

(** [void dump(std::string filename)]. *)
Definition dump (this : objid) (filename : string) : M unit :=
  to_cpu this PAGEABLE;;
  b ← get this;
  bs ← read_bytes (_data b) (size_mul (n b) sizeof);
  good ← ofstream_write filename bs;
  if negb good then throw runtime_error else mret tt.

(** [static MemoryBuffer<T> from_dump(std::string filename)]; the returned
    object is constructed at [this]. *)
Definition from_dump (this : objid) (filename : string) : M unit :=
  len ← ifstream_size filename;
  buffer ← new_char_array len;
  ifstream_read filename buffer len;;
  MemoryBuffer_adopt this buffer (len / sizeof) PAGEABLE.

End MemoryBuffer.

(** ** Specification vocabulary *)

Section Vocabulary.
Context {build : Build}.

(** The residency can be requested on this build. *)
Definition supported (mt : MemoryType) : Prop := __GPU__ = false → mt = PAGEABLE.

(** The handle is null or names a live block, so it can be released. *)
Definition releasable (s : state) (b : MemoryBuffer) : Prop :=
  match _data b with
  | Some a => is_Some (heap s !! a)
  | None => True
  end.

(** What the destructor does to the state: the block under the handle goes,
    if the residency is one the build knows how to release. *)
Definition released (b : MemoryBuffer) (s : state) : state :=
  match _data b with
  | Some a =>
      if bool_decide (mem_type b = PAGEABLE) || __GPU__
      then set_heap (delete a (heap s)) s
      else s
  | None => s
  end.

(** Bytes asked of the allocator by [allocate]. *)
Definition request (mt : MemoryType) (k : N) : N :=
  if bool_decide (mt = PAGEABLE) then k * sizeof else size_mul sizeof k.

(** The bytes of the [n] elements of a buffer, when its storage holds them. *)
Definition contents (s : state) (b : MemoryBuffer) : option (list byte) :=
  match _data b with
  | Some a =>
      match heap s !! a with
      | Some bs =>
          if n b * sizeof <=? N.of_nat (length bs)
          then Some (take (N.to_nat (n b * sizeof)) bs)
          else None
      | None => None
      end
  | None => None
  end.

(** Element [i] of the buffer object [this], as [operator[]] reads it. *)
Definition element (s : state) (this : objid) (i : Z) : option (list byte) :=
  match subscript_read this i s with
  | Return v _ => Some v
  | _ => None
  end.

(** [c] is a deep copy of [b]: both hold storage, at different addresses,
    with the same count and residency; the storage of [c] has exactly the
    size of the [n] elements, and the element bytes of the two are equal. *)
Definition deep_copy_of (s : state) (c b : objid) : Prop :=
  ∃ bc bb ac ab blk image,
    objs s !! c = Some bc ∧ objs s !! b = Some bb
    ∧ data bc = Some ac ∧ data bb = Some ab ∧ ac ≠ ab
    ∧ size bc = size bb ∧ mem_type bc = mem_type bb
    ∧ heap s !! ac = Some blk ∧ N.of_nat (length blk) = size bb * sizeof
    ∧ contents s bc = Some image ∧ contents s bb = Some image.

(** No assignment to an element of [x] changes what any element of [y]
    reads as. *)
Definition independent (s : state) (x y : objid) : Prop :=
  ∀ i v s', subscript_write x i v s = Return tt s' →
  ∀ j, element s' y j = element s y j.

(** Every element of [x] can be assigned, and then reads as the value
    assigned. *)
Definition assignable (s : state) (x : objid) : Prop :=
  ∃ b, objs s !! x = Some b ∧
  ∀ i v, (0 ≤ i < Z.of_N (n b))%Z → N.of_nat (length v) = sizeof →
  ∃ s', subscript_write x i v s = Return tt s' ∧ element s' x i = Some v.

(** The invariant of the data model: no storage exactly when no elements. *)
Definition empty_iff_zero (b : MemoryBuffer) : Prop := _data b = None ↔ n b = 0.

End Vocabulary.

(** The state in which a call leaves the program, whether it returned or
    threw. *)
Definition leaves {A} (o : outcome A) (s' : state) : Prop :=
  (∃ a, o = Return a s') ∨ (∃ e, o = Throw e s').

(** Partial correctness: if [m] returns from [s], [Q] holds of the result
    and final state; if it throws, [E] holds of the final state. *)
Definition wlp {A} (m : M A) (s : state) (Q : A → state → Prop) (E : state → Prop) : Prop :=
  match m s with
  | Return a s' => Q a s'
  | Throw _ s' => E s'
  | Undefined => True
  end.

(** ** The public interface as a set of calls *)

Inductive call :=
| Default (this : objid) (garbage : MemoryType)
| Sized (this : objid) (garbage : MemoryType) (n_elements : N) (mt : MemoryType)
| Adopt (this : objid) (buffer : pointer) (n_elements : N) (mt : MemoryType)
| Allocate (this : objid) (n_elements : N) (mt : MemoryType)
| Copy (this other : objid)
| Move (this other : objid)
| CopyAssign (this other : objid)
| MoveAssign (this other : objid)
| ToCpu (this : objid) (to_type : MemoryType)
| ToGpu (this : objid)
| Dump (this : objid) (filename : string)
| FromDump (this : objid) (filename : string).

Definition exec {build : Build} (c : call) : M unit :=
  match c with
  | Default this garbage => MemoryBuffer_default this garbage
  | Sized this garbage n_elements mt => MemoryBuffer_sized this garbage n_elements mt
  | Adopt this buffer n_elements mt => MemoryBuffer_adopt this buffer n_elements mt
  | Allocate this n_elements mt => allocate this n_elements mt
  | Copy this other => MemoryBuffer_copy this other
  | Move this other => MemoryBuffer_move this other
  | CopyAssign this other => copy_assign this other
  | MoveAssign this other => move_assign this other
  | ToCpu this to_type => to_cpu this to_type
  | ToGpu this => to_gpu this
  | Dump this filename => dump this filename
  | FromDump this filename => from_dump this filename
  end.

(** The object a call moves from, if it is a move. *)
Definition moved_from (c : call) : option objid :=
  match c with
  | Move _ other | MoveAssign _ other => Some other
  | _ => None
  end.

(** A copy assignment that finds storage in the destination and none in a
    distinct source. *)
Definition copies_nothing_over_storage (c : call) (s : state) : Prop :=
  match c with
  | CopyAssign this other =>
      this ≠ other ∧
      ∃ bt bo, objs s !! this = Some bt ∧ objs s !! other = Some bo
               ∧ _data bt ≠ None ∧ _data bo = None
  | _ => False
  end.

(** Calls the interface is meant to receive: a constructor constructs an
    object that did not exist before, and a copy assignment is not of the
    kind above. *)
Definition admissible (c : call) (s : state) : Prop :=
  match c with
  | Default this _ | Sized this _ _ _ | Adopt this _ _ _
  | Copy this _ | Move this _ | FromDump this _ => objs s !! this = None
  | CopyAssign _ _ => ¬ copies_nothing_over_storage c s
  | _ => True
  end.

(** The invariant together with the residency being one of the build. *)
Definition sound {build : Build} (b : MemoryBuffer) : Prop :=
  empty_iff_zero b ∧ (_data b ≠ None → supported (mem_type b)).

(** Every object satisfies the data-model invariant. *)
Definition invariant (s : state) : Prop :=
  ∀ id b, objs s !! id = Some b → empty_iff_zero b.

(** Every object that holds storage holds it under a residency of the
    build. *)
Definition residencies_supported {build : Build} (s : state) : Prop :=
  ∀ id b, objs s !! id = Some b → _data b ≠ None → supported (mem_type b).

(** The states a program reaches from its start, where no buffer exists
    yet, by admissible calls other than moves. *)
Inductive reachable {build : Build} : state → Prop :=
| reachable_start h f r : reachable (State h ∅ f r)
| reachable_call c s s' :
    reachable s → moved_from c = None → admissible c s →
    leaves (exec c s) s' → reachable s'.

(** * FITS.cpp: the parts that do not go through cfitsio *)

Module FITS.

(** ** [is_special_keyword] *)

(** Regular expressions, with the notation of the pattern in the source
    (ECMAScript grammar): a character, a bracket range [[lo-hi]],
    concatenation, [*].  [Fail] and [Alt] arise in derivatives. *)
Inductive regex :=
| Fail
| Eps
| Chr (c : ascii)
| Range (lo hi : ascii)
| Alt (r1 r2 : regex)
| Seq (r1 r2 : regex)
| Star (r : regex).

Definition in_range (lo hi c : ascii) : bool :=
  (nat_of_ascii lo <=? nat_of_ascii c)%nat && (nat_of_ascii c <=? nat_of_ascii hi)%nat.

Fixpoint nullable (r : regex) : bool :=
  match r with
  | Fail | Chr _ | Range _ _ => false
  | Eps | Star _ => true
  | Alt r1 r2 => nullable r1 || nullable r2
  | Seq r1 r2 => nullable r1 && nullable r2
  end.

(** What is left of [r] to match after reading the character [c]. *)
Fixpoint deriv (c : ascii) (r : regex) : regex :=
  match r with
  | Fail | Eps => Fail
  | Chr c' => if Ascii.eqb c c' then Eps else Fail
  | Range lo hi => if in_range lo hi c then Eps else Fail
  | Alt r1 r2 => Alt (deriv c r1) (deriv c r2)
  | Seq r1 r2 =>
      Alt (Seq (deriv c r1) r2) (if nullable r1 then deriv c r2 else Fail)
  | Star r1 => Seq (deriv c r1) (Star r1)
  end.

(** [r] matches the whole of [s]. *)
Fixpoint matches (r : regex) (s : string) : bool :=
  match s with
  | EmptyString => nullable r
  | String c s' => matches (deriv c r) s'
  end.

(** The characters of [s], then [r]. *)
Fixpoint lit (s : string) (r : regex) : regex :=
  match s with
  | EmptyString => r
  | String c s' => Seq (Chr c) (lit s' r)
  end.

(** [std::regex_search] with a pattern of the form [^r$]: without the
    multiline option the two assertions hold only at the two ends of the
    subject, so the search succeeds exactly when [r] matches all of it. *)
Definition regex_search_anchored (key : string) (r : regex) : bool := matches r key.

(** ["^NAXIS[1-9][0-9]*$"], between its anchors. *)
Definition naxis_regex : regex :=
  lit "NAXIS" (Seq (Range "1" "9") (Star (Range "0" "9"))).

Definition special_keywords : list string :=
  ["SIMPLE"; "BITPIX"; "COMMENT"; "EXTEND"; "NAXIS"]%string.

(** [inline bool is_special_keyword(const std::string& key)]. *)
Definition is_special_keyword (key : string) : bool :=
  if existsb (String.eqb key) special_keywords then true
  else if regex_search_anchored key naxis_regex then true
  else false.

(** The decimal numeral of [k], without sign or leading zeros. *)
Definition decimal (k : N) : string := NilEmpty.string_of_uint (N.to_uint k).

(** Every character of [s] lies in [[lo-hi]]. *)
Fixpoint all_in (lo hi : ascii) (s : string) : bool :=
  match s with
  | EmptyString => true
  | String c s' => in_range lo hi c && all_in lo hi s'
  end.

(** ** [FITS::HDU::set_image] *)

(** The cfitsio codes the function uses.  Their values come from fitsio.h,
    which is not part of the repository; as the case labels of one [switch]
    the four image codes are distinct. *)
Class Fitsio := {
  BYTE_IMG : Z;
  LONG_IMG : Z;
  FLOAT_IMG : Z;
  DOUBLE_IMG : Z;
  TBYTE : Z;
  TLONG : Z;
  TFLOAT : Z;
  TDOUBLE : Z;
  image_codes_distinct : NoDup [FLOAT_IMG; DOUBLE_IMG; BYTE_IMG; LONG_IMG]
}.

(** The members of [FITS::HDU] that [set_image] reads and writes (the class
    is declared in FITS.hpp, which is not among the sources): the image
    pointer, the pixel code, the two dimensions and the cfitsio data
    type. *)
Record HDU := mkHDU {
  data : pointer;
  bitpix : Z;
  axes : Z * Z;
  datatype : Z
}.

(** [void FITS::HDU::set_image(int bitpix, char *data, long xDim, long yDim)].
    The result is the object as the call leaves it, with the outcome of the
    call. *)
Definition set_image {fitsio : Fitsio} (this : HDU) (bitpix' : Z) (data' : pointer)
    (xDim yDim : Z) (s : state) : HDU * outcome unit :=
  match (if bool_decide (is_Some (data this)) then delete_array (data this)
         else mret tt) s with
  | Return _ s1 =>
      if (bitpix' =? FLOAT_IMG)%Z then
        (mkHDU data' bitpix' (xDim, yDim) TFLOAT, Return tt s1)
      else if (bitpix' =? DOUBLE_IMG)%Z then
        (mkHDU data' bitpix' (xDim, yDim) TDOUBLE, Return tt s1)
      else if (bitpix' =? BYTE_IMG)%Z then
        (mkHDU data' bitpix' (xDim, yDim) TBYTE, Return tt s1)
      else if (bitpix' =? LONG_IMG)%Z then
        (mkHDU data' bitpix' (xDim, yDim) TLONG, Return tt s1)
      else
        (mkHDU data' bitpix' (xDim, yDim) (datatype this), Throw invalid_argument s1)
  | Throw e s1 => (this, Throw e s1)
  | Undefined => (this, Undefined)
  end.

(** The image an HDU holds can be released: it has none or a live one. *)
Definition image_releasable (s : state) (this : HDU) : Prop :=
  match data this with
  | Some a => is_Some (heap s !! a)
  | None => True
  end.

(** The heap once the image of [this] has been released. *)
Definition without_image (this : HDU) (s : state) : state :=
  match data this with
  | Some a => set_heap (delete a (heap s)) s
  | None => s
  end.

(** The values of fitsio.h. *)
Definition fitsio_h : Fitsio.
Proof.
  refine {| BYTE_IMG := 8; LONG_IMG := 32; FLOAT_IMG := -32; DOUBLE_IMG := -64;
            TBYTE := 11; TLONG := 41; TFLOAT := 42; TDOUBLE := 82 |}.
  apply (bool_decide_unpack _). vm_compute. exact I.
Defined.

End FITS.

(** ** Concrete builds and states used as test inputs *)

Definition cpu_float : Build := {| __GPU__ := false; sizeof_T := 4 |}.
Definition gpu_float : Build := {| __GPU__ := true; sizeof_T := 4 |}.
Definition cpu_char : Build := {| __GPU__ := false; sizeof_T := 1 |}.
Definition cpu_short : Build := {| __GPU__ := false; sizeof_T := 2 |}.
Definition cpu_double : Build := {| __GPU__ := false; sizeof_T := 8 |}.

(** Object 0 is a pageable buffer of one 4-byte element stored at address 1. *)
Definition one_float : state :=
  State {[ 1%positive := [x01; x02; x03; x04] ]}
        {[ 0%nat := mkMemoryBuffer (Some 1%positive) 1 PAGEABLE ]}
        ∅ ∅.

(** Objects 0 and 1 are pageable buffers of one 4-byte element each, stored
    at addresses 1 and 2. *)
Definition two_floats : state :=
  State {[ 1%positive := [x01; x02; x03; x04]; 2%positive := [x05; x06; x07; x08] ]}
        {[ 0%nat := mkMemoryBuffer (Some 1%positive) 1 PAGEABLE;
           1%nat := mkMemoryBuffer (Some 2%positive) 1 PAGEABLE ]}
        ∅ ∅.

(** Object 0 is as in [one_float]; object 1 is a default-constructed
    (empty) pageable buffer. *)
Definition float_and_empty : state :=
  State {[ 1%positive := [x01; x02; x03; x04] ]}
        {[ 0%nat := mkMemoryBuffer (Some 1%positive) 1 PAGEABLE;
           1%nat := mkMemoryBuffer None 0 PAGEABLE ]}
        ∅ ∅.

(** No objects; a caller-owned block of five bytes at address 1. *)
Definition five_byte_block : state :=
  State {[ 1%positive := [x01; x02; x03; x04; x05] ]} ∅ ∅ ∅.

(** No objects, an empty heap, and a file "f" of five bytes. *)
Definition five_byte_file : state :=
  State ∅ ∅ {[ "f"%string := [x01; x02; x03; x04; x05] ]} ∅.

(** No objects, an empty heap, and a file "f" of nine bytes. *)
Definition nine_byte_file : state :=
  State ∅ ∅ {[ "f"%string := [x01; x02; x03; x04; x05; x06; x07; x08; x09] ]} ∅.

(** Object 0 is a device buffer of one 4-byte element stored at address 1. *)
Definition one_device_float : state :=
  State {[ 1%positive := [x01; x02; x03; x04] ]}
        {[ 0%nat := mkMemoryBuffer (Some 1%positive) 1 DEVICE ]}
        ∅ ∅.

(** [one_device_float] with a path "f" that no output stream can open. *)
Definition one_device_float_readonly : state :=
  State {[ 1%positive := [x01; x02; x03; x04] ]}
        {[ 0%nat := mkMemoryBuffer (Some 1%positive) 1 DEVICE ]}
        ∅ {[ "f"%string ]}.

(** Object 0 is a pageable buffer of two 4-byte elements at address 1. *)
Definition two_element_buffer : state :=
  State {[ 1%positive := [x01; x02; x03; x04; x05; x06; x07; x08] ]}
        {[ 0%nat := mkMemoryBuffer (Some 1%positive) 2 PAGEABLE ]}
        ∅ ∅.

(** ** Running programs: equations for the monad and the primitives *)

Lemma bind_run {A B} (m : M A) (f : A → M B) s :
  (m ≫= f) s = match m s with
               | Return a s' => f a s'
               | Throw e s' => Throw e s'
               | Undefined => Undefined
               end.
Proof. reflexivity. Qed.

Lemma get_run s this b : objs s !! this = Some b → get this s = Return b s.
Proof. intros Hb. unfold get. by rewrite Hb. Qed.

(** Symbolic evaluation of a program on a state: unfold the primitives, then
    alternate computation with the lookups known from the context. *)
Ltac crank :=
  unfold when, throw, undefined, set__data, set_n, set_mem_type, delete_array,
    gpuFree, gpuHostFree, gpuMalloc, gpuHostAlloc, gpuMallocManaged,
    new_array, new_char_array, operator_bool;
  unfold mbind, M_bind, mret, M_ret, get, put, forget, alloc, free;
  repeat (first
    [ progress cbn [set_heap set_objs set_files heap objs files readonly
                    _data n mem_type negb andb orb]
    | rewrite lookup_insert_eq
    | rewrite lookup_insert_ne by congruence
    | rewrite insert_insert_eq
    | rewrite bool_decide_eq_true_2 by congruence
    | rewrite bool_decide_eq_false_2 by congruence
    | match goal with
      | Hl : ?m !! ?k = _ |- context [?m !! ?k] => rewrite Hl
      end ]).

Section Running.
Context {build : Build}.

Lemma objs_released b s : objs (released b s) = objs s.
Proof. unfold released. by repeat case_match. Qed.

Lemma files_released b s : files (released b s) = files s.
Proof. unfold released. by repeat case_match. Qed.

Lemma released_empty b s : _data b = None → released b s = s.
Proof. unfold released. by intros ->. Qed.

Lemma destructor_run s this b :
  objs s !! this = Some b →
  releasable s b →
  destructor this s = Return tt (released b s).
Proof.
  intros Hb Hl. unfold destructor, released, releasable in *.
  destruct b as [[a|] k t]; cbn [_data mem_type] in *.
  - destruct Hl as [bs Hl]. destruct t, __GPU__; crank; reflexivity.
  - destruct t, __GPU__; crank; reflexivity.
Qed.

(** Releasing twice: the destructor of a buffer whose block is gone. *)
Lemma destructor_dangling s this b a :
  objs s !! this = Some b →
  _data b = Some a →
  heap s !! a = None →
  mem_type b = PAGEABLE ∨ __GPU__ = true →
  destructor this s = Undefined.
Proof.
  intros Hb Ha Hl Hm. unfold destructor.
  destruct b as [p k t]; cbn [_data mem_type] in *; subst p.
  destruct t, __GPU__; crank; try reflexivity; destruct Hm; congruence.
Qed.

Lemma allocate_run s this b k mt :
  objs s !! this = Some b →
  releasable s b →
  allocate this k mt s =
    let s1 := released b s in
    if (negb __GPU__ && bool_decide (mt ≠ PAGEABLE)) || (k =? 0)
    then Throw invalid_argument s1
    else
      let a := fresh (dom (heap s1)) in
      Return tt (State (<[a := replicate (N.to_nat (request mt k)) x00]> (heap s1))
                       (<[this := mkMemoryBuffer (Some a) k mt]> (objs s))
                       (files s) (readonly s)).
Proof.
  intros Hb Hl. unfold allocate. rewrite bind_run, (get_run _ _ _ Hb).
  assert (Hd : when (operator_bool b) (destructor this) s = Return tt (released b s)).
  { unfold when, operator_bool. destruct (_data b) eqn:E.
    - by apply destructor_run.
    - by rewrite released_empty. }
  rewrite bind_run, Hd. cbn zeta.
  pose proof (objs_released b s) as Ho. pose proof (files_released b s) as Hf.
  assert (Hr : readonly (released b s) = readonly s).
  { unfold released. by repeat case_match. }
  destruct (released b s) as [h1 o1 f1 r1]; cbn in Ho, Hf, Hr; subst.
  unfold request.
  destruct __GPU__, mt, (k =? 0); crank; reflexivity.
Qed.

End Running.

(** ** Adoption and allocation *)

Section Allocation.
Context {build : Build}.

Lemma adopt_run s this buffer k mt :
  MemoryBuffer_adopt this buffer k mt s =
    if (negb __GPU__ && bool_decide (mt ≠ PAGEABLE)) || (k =? 0)
       || negb (bool_decide (is_Some buffer))
    then Throw invalid_argument (set_objs (delete this (objs s)) s)
    else Return tt (set_objs (<[this := mkMemoryBuffer buffer k mt]> (objs s)) s).
Proof.
  unfold MemoryBuffer_adopt, constructing.
  destruct __GPU__, (bool_decide (mt ≠ PAGEABLE)), (k =? 0),
    (bool_decide (is_Some buffer)); crank; reflexivity.
Qed.

(** C5.  The adoption constructor throws [invalid_argument] when the pointer
    is null, when [n_elements] is zero, and on a build without [__GPU__]
    when the residency is not [PAGEABLE]; no object comes to exist and the
    heap is untouched.  In every other case it returns, nothing is allocated
    or copied (the heap is the same), the other objects are as before, and
    the new buffer's [data()] is the pointer given, its [size()] is
    [n_elements] and its residency the one given. *)
Theorem adopt_spec s this buffer n_elements mt :
  (buffer = None ∨ n_elements = 0 ∨ (__GPU__ = false ∧ mt ≠ PAGEABLE) →
     ∃ s', MemoryBuffer_adopt this buffer n_elements mt s = Throw invalid_argument s'
           ∧ objs s' !! this = None
           ∧ heap s' = heap s)
  ∧ (buffer ≠ None → n_elements ≠ 0 → (__GPU__ = false → mt = PAGEABLE) →
     ∃ s' b, MemoryBuffer_adopt this buffer n_elements mt s = Return tt s'
           ∧ objs s' !! this = Some b
           ∧ data b = buffer ∧ size b = n_elements ∧ mem_type b = mt
           ∧ heap s' = heap s
           ∧ ∀ other, other ≠ this → objs s' !! other = objs s !! other).
Proof.
  split.
  - intros Hbad. eexists. rewrite adopt_run.
    assert ((negb __GPU__ && bool_decide (mt ≠ PAGEABLE)) || (n_elements =? 0)
            || negb (bool_decide (is_Some buffer)) = true) as ->.
    { destruct Hbad as [-> | [-> | [-> Hmt]]].
      - cbn. by rewrite orb_true_r.
      - cbn. by rewrite orb_true_r.
      - by rewrite bool_decide_eq_true_2. }
    split; [reflexivity|]. split; [|reflexivity].
    cbn. apply lookup_delete_eq.
  - intros Hp Hk Hmt. eexists _, _. rewrite adopt_run.
    assert ((negb __GPU__ && bool_decide (mt ≠ PAGEABLE)) || (n_elements =? 0)
            || negb (bool_decide (is_Some buffer)) = false) as ->.
    { apply N.eqb_neq in Hk. rewrite Hk.
      rewrite (bool_decide_eq_true_2 (is_Some buffer)) by (by destruct buffer).
      destruct __GPU__; [reflexivity|].
      rewrite bool_decide_eq_false_2; [reflexivity|].
      intros Hne. by apply Hne, Hmt. }
    split; [reflexivity|]. cbn.
    split; [apply lookup_insert_eq|].
    repeat split; try reflexivity.
    intros other Hne. by apply lookup_insert_ne.
Qed.

(** C4.  On a buffer whose handle is null or live: [allocate] with a
    positive count whose [n * sizeof(T)] bytes fit [size_t], and a residency
    the build supports, returns; then [size()] is the count, the residency
    is the one asked for, the buffer tests non-empty, and its handle names a
    block of exactly [n * sizeof(T)] bytes that holds the [n] elements.  The
    heap afterwards is the heap with the previous storage released and that
    one block added, so the old storage is gone and nothing else is
    allocated or lost; no other object changes.  [allocate(0, r)] throws
    [invalid_argument] whatever the residency [r], in the state with the
    previous storage released. *)
Theorem allocate_spec s this b :
  objs s !! this = Some b →
  releasable s b →
  (∀ n_elements mt,
     0 < n_elements → n_elements * sizeof < size_t_modulus → supported mt →
     ∃ s' b' a blk, allocate this n_elements mt s = Return tt s'
           ∧ objs s' !! this = Some b'
           ∧ size b' = n_elements
           ∧ operator_bool b' = true
           ∧ mem_type b' = mt
           ∧ data b' = Some a
           ∧ heap (released b s) !! a = None
           ∧ heap s' = <[a := blk]> (heap (released b s))
           ∧ N.of_nat (length blk) = n_elements * sizeof
           ∧ contents s' b' = Some blk
           ∧ (∀ id, id ≠ this → objs s' !! id = objs s !! id))
  ∧ (∀ mt, allocate this 0 mt s = Throw invalid_argument (released b s)).
Proof.
  intros Hb Hl. split.
  - intros k mt Hk Hfit Hmt. rewrite (allocate_run _ _ _ _ _ Hb Hl). cbn zeta.
    assert ((negb __GPU__ && bool_decide (mt ≠ PAGEABLE)) || (k =? 0) = false) as ->.
    { assert ((k =? 0) = false) as -> by (apply N.eqb_neq; lia).
      unfold supported in Hmt. destruct __GPU__; [reflexivity|].
      rewrite bool_decide_eq_false_2; [reflexivity|].
      intros Hne. by apply Hne, Hmt. }
    assert (Hreq : request mt k = k * sizeof).
    { unfold request, size_mul. case_bool_decide; [done|].
      rewrite (N.mul_comm sizeof k). by apply N.mod_small. }
    rewrite Hreq.
    assert (Hfresh : heap (released b s) !! fresh (dom (heap (released b s))) = None)
      by (apply not_elem_of_dom, is_fresh).
    set (a := fresh (dom (heap (released b s)))) in *.
    assert (Hlen : N.of_nat (length (replicate (N.to_nat (k * sizeof)) x00)) = k * sizeof)
      by (rewrite length_replicate; lia).
    eexists _, _, a, _. split; [reflexivity|]. cbn [objs heap].
    split; [apply lookup_insert_eq|]. cbn [size n operator_bool _data mem_type data].
    do 7 (split; [done|]). split.
    + unfold contents. cbn [_data n heap]. rewrite lookup_insert_eq, Hlen, N.leb_refl.
      f_equal. apply take_ge. lia.
    + intros id Hid. by apply lookup_insert_ne.
  - intros mt. rewrite (allocate_run _ _ _ _ _ Hb Hl). cbn zeta.
    by rewrite orb_true_r.
Qed.

(** A failed [allocate] on an empty buffer leaves the whole state as it
    was. *)
Lemma allocate_failure_empty s this b n_elements mt s' e :
  objs s !! this = Some b →
  _data b = None →
  allocate this n_elements mt s = Throw e s' →
  e = invalid_argument ∧ s' = s.
Proof.
  intros Hb Hd.
  assert (Hl : releasable s b) by (unfold releasable; rewrite Hd; exact I).
  rewrite (allocate_run _ _ _ _ _ Hb Hl). cbn zeta.
  rewrite (released_empty _ _ Hd).
  case_match; [|discriminate]. intros [= <- <-]. done.
Qed.

(** C1.  What a failing [allocate] does to a populated buffer: the storage
    is released before the arguments are checked, so the call throws
    [invalid_argument] with the three fields still holding their old values
    while the block they name is gone from the heap; the handle dangles, and
    the destructor that eventually runs releases the block a second time. *)
Theorem allocate_failure_releases_storage s this b a bs n_elements mt :
  objs s !! this = Some b →
  _data b = Some a →
  heap s !! a = Some bs →
  mem_type b = PAGEABLE ∨ __GPU__ = true →
  n_elements = 0 ∨ (__GPU__ = false ∧ mt ≠ PAGEABLE) →
  ∃ s', allocate this n_elements mt s = Throw invalid_argument s'
      ∧ objs s' !! this = Some b
      ∧ heap s' !! a = None
      ∧ s' ≠ s
      ∧ destructor this s' = Undefined.
Proof.
  intros Hb Ha Hl Hm Hbad.
  assert (Hr : releasable s b) by (unfold releasable; rewrite Ha; eauto).
  rewrite (allocate_run _ _ _ _ _ Hb Hr). cbn zeta.
  assert ((negb __GPU__ && bool_decide (mt ≠ PAGEABLE)) || (n_elements =? 0) = true) as ->.
  { destruct Hbad as [-> | [-> Hmt]].
    - by rewrite orb_true_r.
    - by rewrite bool_decide_eq_true_2. }
  assert (released b s = set_heap (delete a (heap s)) s) as ->.
  { unfold released. rewrite Ha. destruct Hm as [-> | ->]; [done|].
    by rewrite orb_true_r. }
  eexists. split; [reflexivity|]. cbn.
  split; [done|]. split; [apply lookup_delete_eq|]. split.
  - intros Heq. apply (f_equal (λ x, heap x !! a)) in Heq. cbn in Heq.
    rewrite lookup_delete_eq, Hl in Heq. discriminate.
  - eapply destructor_dangling; cbn; eauto. apply lookup_delete_eq.
Qed.

End Allocation.

Lemma adopt_spec_witness :
  (∃ s', MemoryBuffer_adopt (build:=cpu_float) 1 None 3 PINNED one_float
           = Throw invalid_argument s'
         ∧ objs s' !! 1%nat = None
         ∧ heap s' = heap one_float)
  ∧ (∃ s' b, MemoryBuffer_adopt (build:=cpu_float) 1 (Some 1%positive) 1 PAGEABLE one_float
           = Return tt s'
         ∧ objs s' !! 1%nat = Some b
         ∧ data b = Some 1%positive ∧ size b = 1 ∧ mem_type b = PAGEABLE
         ∧ heap s' = heap one_float
         ∧ ∀ other, other ≠ 1%nat → objs s' !! other = objs one_float !! other).
Proof.
  split.
  - apply (proj1 (@adopt_spec cpu_float one_float 1%nat None 3 PINNED)).
    left. reflexivity.
  - apply (proj2 (@adopt_spec cpu_float one_float 1%nat (Some 1%positive) 1 PAGEABLE)).
    + discriminate.
    + discriminate.
    + reflexivity.
Defined.

Lemma allocate_spec_witness :
  (∃ s' b' a blk, allocate (build:=gpu_float) 0 3 DEVICE one_float = Return tt s'
         ∧ objs s' !! 0%nat = Some b'
         ∧ size b' = 3
         ∧ operator_bool b' = true
         ∧ mem_type b' = DEVICE
         ∧ data b' = Some a
         ∧ heap (released (build:=gpu_float)
                   (mkMemoryBuffer (Some 1%positive) 1 PAGEABLE) one_float) !! a = None
         ∧ heap s' = <[a := blk]>
                       (heap (released (build:=gpu_float)
                                (mkMemoryBuffer (Some 1%positive) 1 PAGEABLE) one_float))
         ∧ N.of_nat (length blk) = 3 * sizeof (build:=gpu_float)
         ∧ contents (build:=gpu_float) s' b' = Some blk
         ∧ (∀ id, id ≠ 0%nat → objs s' !! id = objs one_float !! id))
  ∧ allocate (build:=gpu_float) 0 0 DEVICE one_float
    = Throw invalid_argument
        (released (build:=gpu_float) (mkMemoryBuffer (Some 1%positive) 1 PAGEABLE) one_float).
Proof.
  assert (Hb : objs one_float !! 0%nat = Some (mkMemoryBuffer (Some 1%positive) 1 PAGEABLE))
    by reflexivity.
  assert (Hl : releasable one_float (mkMemoryBuffer (Some 1%positive) 1 PAGEABLE))
    by (vm_compute; eauto).
  destruct (@allocate_spec gpu_float one_float 0%nat _ Hb Hl) as [Hok Hzero].
  split.
  - apply Hok; [reflexivity | reflexivity | discriminate].
  - apply Hzero.
Defined.

Lemma allocate_failure_releases_storage_witness :
  ∃ s', allocate (build:=cpu_float) 0 0 PAGEABLE one_float = Throw invalid_argument s'
      ∧ objs s' !! 0%nat = Some (mkMemoryBuffer (Some 1%positive) 1 PAGEABLE)
      ∧ heap s' !! 1%positive = None
      ∧ s' ≠ one_float
      ∧ destructor (build:=cpu_float) 0 s' = Undefined.
Proof.
  apply (@allocate_failure_releases_storage cpu_float one_float 0%nat
           (mkMemoryBuffer (Some 1%positive) 1 PAGEABLE) 1%positive
           [x01; x02; x03; x04] 0 PAGEABLE).
  - reflexivity.
  - reflexivity.
  - reflexivity.
  - left. reflexivity.
  - left. reflexivity.
Defined.

(** ** Migration to the host *)

Section Migration.
Context {build : Build}.

Lemma to_cpu_not_device s this b to_type :
  objs s !! this = Some b →
  mem_type b ≠ DEVICE →
  to_cpu this to_type s = Return tt s.
Proof.
  intros Hb Hm. unfold to_cpu. destruct __GPU__; crank; reflexivity.
Qed.

(** C6.  On a buffer whose residency is a host variant ([PAGEABLE] or
    [PINNED]) [to_cpu] returns with the whole state unchanged (handle, count,
    stored bytes and residency included), whatever target is asked for;
    hence calling it twice is calling it once. *)
Theorem to_cpu_idempotent s this b to_type :
  objs s !! this = Some b →
  mem_type b = PAGEABLE ∨ mem_type b = PINNED →
  to_cpu this to_type s = Return tt s
  ∧ (to_cpu this to_type;; to_cpu this to_type) s = to_cpu this to_type s.
Proof.
  intros Hb Hm.
  assert (Hrun : to_cpu this to_type s = Return tt s).
  { apply (to_cpu_not_device _ _ b); [done|]. destruct Hm as [-> | ->]; discriminate. }
  split; [done|]. by rewrite bind_run, Hrun.
Qed.

End Migration.

Lemma to_cpu_idempotent_witness :
  to_cpu (build:=gpu_float) 0 PINNED one_float = Return tt one_float
  ∧ (to_cpu (build:=gpu_float) 0 PINNED;; to_cpu (build:=gpu_float) 0 PINNED) one_float
    = to_cpu (build:=gpu_float) 0 PINNED one_float.
Proof.
  apply (@to_cpu_idempotent gpu_float one_float 0%nat
           (mkMemoryBuffer (Some 1%positive) 1 PAGEABLE) PINNED).
  - reflexivity.
  - left. reflexivity.
Defined.

(** ** Move construction and move assignment *)

Section Move.
Context {build : Build}.

Lemma MemoryBuffer_move_run s this other b :
  objs s !! other = Some b →
  this ≠ other →
  MemoryBuffer_move this other s =
    Return tt (set_objs (<[other := mkMemoryBuffer None (n b) (mem_type b)]>
                           (<[this := b]> (objs s))) s).
Proof.
  intros Hb Hne. unfold MemoryBuffer_move. destruct b as [p k t].
  crank. reflexivity.
Qed.

Lemma move_assign_run s this other old b :
  objs s !! this = Some old →
  objs s !! other = Some b →
  this ≠ other →
  releasable s old →
  move_assign this other s =
    Return tt (set_objs (<[other := mkMemoryBuffer None (n b) (mem_type b)]>
                           (<[this := b]> (objs s))) (released old s)).
Proof.
  intros Hold Hb Hne Hl. unfold move_assign. rewrite bind_run, (get_run _ _ _ Hold).
  assert (Hd : when (operator_bool old) (destructor this) s = Return tt (released old s)).
  { unfold when, operator_bool. destruct (_data old) eqn:E.
    - by apply destructor_run.
    - by rewrite released_empty. }
  rewrite bind_run, Hd.
  pose proof (objs_released old s) as Ho.
  destruct (released old s) as [h1 o1 f1 r1]; cbn in Ho; subst o1.
  destruct b as [p k t]. crank. reflexivity.
Qed.

(** The destructor of a buffer with a null handle changes nothing. *)
Lemma destructor_null s this b :
  objs s !! this = Some b →
  _data b = None →
  destructor this s = Return tt s.
Proof.
  intros Hb Hd. rewrite (destructor_run _ _ b); [|done|].
  - by rewrite released_empty.
  - unfold releasable. by rewrite Hd.
Qed.

(** C2, as the code has it.  Moving from a buffer [b], by move construction
    or by move assignment to a distinct buffer whose own handle is null or
    live, gives the destination exactly the pointer, count and residency of
    [b] and nulls the handle of [b]; the count of [b] is not reset, so
    [size()] of the moved-from buffer still reports the old count.  The
    destructor of [b] then returns without changing the state: nothing is
    released.  Move construction leaves the heap alone; move assignment
    first releases what the destination held, and the block moved is still
    live when the destination did not alias it. *)
Theorem move_spec s this other b :
  objs s !! other = Some b →
  this ≠ other →
  (∃ s' b', MemoryBuffer_move this other s = Return tt s'
      ∧ objs s' !! this = Some b
      ∧ objs s' !! other = Some b'
      ∧ data b' = None ∧ operator_bool b' = false
      ∧ size b' = size b
      ∧ heap s' = heap s
      ∧ destructor other s' = Return tt s')
  ∧ (∀ old, objs s !! this = Some old → releasable s old →
     ∃ s' b', move_assign this other s = Return tt s'
      ∧ objs s' !! this = Some b
      ∧ objs s' !! other = Some b'
      ∧ data b' = None ∧ operator_bool b' = false
      ∧ size b' = size b
      ∧ heap s' = heap (released old s)
      ∧ (_data old ≠ _data b → ∀ a, _data b = Some a → heap s' !! a = heap s !! a)
      ∧ destructor other s' = Return tt s').
Proof.
  intros Hb Hne. split.
  - eexists _, _. rewrite (MemoryBuffer_move_run _ _ _ _ Hb Hne).
    split; [reflexivity|]. cbn.
    split; [by rewrite lookup_insert_ne, lookup_insert_eq|].
    split; [apply lookup_insert_eq|].
    repeat split.
    eapply destructor_null; [apply lookup_insert_eq|reflexivity].
  - intros old Hold Hl. eexists _, _.
    rewrite (move_assign_run _ _ _ _ _ Hold Hb Hne Hl).
    split; [reflexivity|]. cbn.
    split; [by rewrite lookup_insert_ne, lookup_insert_eq|].
    split; [apply lookup_insert_eq|].
    repeat split.
    + intros Halias a Ha. unfold released.
      destruct (_data old) as [a'|] eqn:E; [|done].
      case_match; [|done]. cbn. apply lookup_delete_ne. congruence.
    + eapply destructor_null; [apply lookup_insert_eq|reflexivity].
Qed.

End Move.

(** Object 0 of [one_float] moved into a new object 1: the source keeps
    count 1 next to its null handle, against the claim that the moved-from
    buffer has [size() == 0]. *)
Lemma move_source_count_counterexample :
  ∃ s', MemoryBuffer_move 1 0 one_float = Return tt s'
      ∧ objs s' !! 1%nat = Some (mkMemoryBuffer (Some 1%positive) 1 PAGEABLE)
      ∧ objs s' !! 0%nat = Some (mkMemoryBuffer None 1 PAGEABLE)
      ∧ size (mkMemoryBuffer None 1 PAGEABLE) ≠ 0.
Proof.
  eexists. split; [reflexivity|]. split; [reflexivity|].
  split; [reflexivity|]. discriminate.
Qed.

Lemma move_spec_witness :
  (∃ s' b', MemoryBuffer_move 2 0 two_floats = Return tt s'
      ∧ objs s' !! 2%nat = Some (mkMemoryBuffer (Some 1%positive) 1 PAGEABLE)
      ∧ objs s' !! 0%nat = Some b'
      ∧ data b' = None ∧ operator_bool b' = false
      ∧ size b' = 1
      ∧ heap s' = heap two_floats
      ∧ destructor (build:=cpu_float) 0 s' = Return tt s')
  ∧ (∃ s' b', move_assign (build:=cpu_float) 1 0 two_floats = Return tt s'
      ∧ objs s' !! 1%nat = Some (mkMemoryBuffer (Some 1%positive) 1 PAGEABLE)
      ∧ objs s' !! 0%nat = Some b'
      ∧ data b' = None ∧ operator_bool b' = false
      ∧ size b' = 1
      ∧ heap s' !! 1%positive = Some [x01; x02; x03; x04]
      ∧ destructor (build:=cpu_float) 0 s' = Return tt s').
Proof.
  split.
  - apply (proj1 (@move_spec cpu_float two_floats 2%nat 0%nat
                    (mkMemoryBuffer (Some 1%positive) 1 PAGEABLE)
                    eq_refl ltac:(discriminate))).
  - destruct (proj2 (@move_spec cpu_float two_floats 1%nat 0%nat
                       (mkMemoryBuffer (Some 1%positive) 1 PAGEABLE)
                       eq_refl ltac:(discriminate))
                (mkMemoryBuffer (Some 2%positive) 1 PAGEABLE) eq_refl
                ltac:(vm_compute; eauto))
      as (s' & b' & Hrun & Hthis & Hother & Hdata & Hbool & Hsize & Hheap & Hlive & Hdtor).
    exists s', b'. repeat split; try assumption.
    rewrite (Hlive ltac:(discriminate) 1%positive eq_refl). reflexivity.
Defined.

(** ** Persistence: [dump] and [from_dump] *)

Lemma read_bytes_run s a bs len :
  heap s !! a = Some bs →
  len ≤ N.of_nat (length bs) →
  read_bytes (Some a) len s = Return (take (N.to_nat len) bs) s.
Proof.
  intros Ha Hlen. unfold read_bytes. destruct (N.eqb_spec len 0) as [-> | Hz].
  - reflexivity.
  - rewrite Ha. by rewrite (proj2 (N.leb_le _ _) Hlen).
Qed.

(** Overwriting a whole block from its start. *)
Lemma write_bytes_whole s a old v :
  heap s !! a = Some old →
  length old = length v →
  write_bytes (Some a) 0 v s = Return tt (set_heap (<[a := v]> (heap s)) s).
Proof.
  intros Ha Hlen. unfold write_bytes. destruct (N.eqb_spec (N.of_nat (length v)) 0) as [Hz | Hz].
  - assert (v = []) as -> by (apply nil_length_inv; lia).
    assert (old = []) as -> by (by apply nil_length_inv).
    rewrite insert_id by done. by destruct s.
  - rewrite Ha. rewrite (proj2 (N.leb_le _ _)) by lia.
    change (N.to_nat 0) with 0%nat. cbn [take Nat.add app].
    rewrite <- Hlen, drop_all, app_nil_r. reflexivity.
Qed.

Section Persistence.
Context {build : Build}.

Lemma from_dump_run s this filename bs :
  files s !! filename = Some bs →
  from_dump this filename s =
    let a := fresh (dom (heap s)) in
    let s1 := set_heap (<[a := bs]> (heap s)) s in
    if N.of_nat (length bs) / sizeof =? 0
    then Throw invalid_argument (set_objs (delete this (objs s1)) s1)
    else Return tt (set_objs
           (<[this := mkMemoryBuffer (Some a) (N.of_nat (length bs) / sizeof) PAGEABLE]>
              (objs s1)) s1).
Proof.
  intros Hf. unfold from_dump, ifstream_size, ifstream_read, new_char_array, alloc.
  unfold mbind, M_bind. rewrite Hf. cbn [files set_heap]. rewrite Hf.
  rewrite Nat2N.id, firstn_all.
  erewrite write_bytes_whole;
    [| cbn; apply lookup_insert_eq | by rewrite length_replicate ].
  cbn [heap set_heap objs files readonly]. rewrite insert_insert_eq.
  rewrite adopt_run. cbn zeta.
  rewrite (bool_decide_eq_false_2 (PAGEABLE ≠ PAGEABLE)) by (intros Hne; by apply Hne).
  rewrite andb_false_r, (bool_decide_eq_true_2 (is_Some (Some _))) by eauto.
  cbn [negb orb]. rewrite orb_false_r. reflexivity.
Qed.

Lemma dump_run s this b a bs filename :
  objs s !! this = Some b →
  mem_type b ≠ DEVICE →
  _data b = Some a →
  heap s !! a = Some bs →
  size_mul (n b) sizeof ≤ N.of_nat (length bs) →
  filename ∉ readonly s →
  dump this filename s =
    Return tt (set_files (<[filename := take (N.to_nat (size_mul (n b) sizeof)) bs]>
                            (files s)) s).
Proof.
  intros Hb Hm Hd Ha Hlen Hw. unfold dump.
  rewrite bind_run, (to_cpu_not_device _ _ _ _ Hb Hm).
  rewrite bind_run, (get_run _ _ _ Hb).
  rewrite bind_run, Hd, (read_bytes_run _ _ _ _ Ha Hlen).
  rewrite bind_run. unfold ofstream_write.
  rewrite bool_decide_eq_false_2 by done. reflexivity.
Qed.

(** C8.  For a populated host-resident buffer of [n] elements whose storage
    holds them, and a path the output stream can write: [dump] returns and
    the file it leaves is exactly the [n * sizeof(T)] bytes of the elements,
    nothing before or after them; [from_dump] on that file returns a buffer
    with [size() == n] whose bytes are those of the original. *)
Theorem dump_from_dump_round_trip s this that b a bs filename :
  objs s !! this = Some b →
  mem_type b = PAGEABLE ∨ mem_type b = PINNED →
  _data b = Some a →
  heap s !! a = Some bs →
  0 < n b →
  n b * sizeof ≤ N.of_nat (length bs) →
  n b * sizeof < size_t_modulus →
  filename ∉ readonly s →
  ∃ s1 s2 b' image,
    contents s b = Some image
    ∧ dump this filename s = Return tt s1
    ∧ files s1 !! filename = Some image
    ∧ N.of_nat (length image) = n b * sizeof
    ∧ from_dump that filename s1 = Return tt s2
    ∧ objs s2 !! that = Some b'
    ∧ size b' = n b
    ∧ mem_type b' = PAGEABLE
    ∧ contents s2 b' = Some image.
Proof.
  intros Hb Hm Hd Ha Hpos Hlen Hfit Hw.
  assert (Hmul : size_mul (n b) sizeof = n b * sizeof)
    by (unfold size_mul; by apply N.mod_small).
  set (image := take (N.to_nat (n b * sizeof)) bs).
  assert (Himg : N.of_nat (length image) = n b * sizeof).
  { unfold image. rewrite length_take. lia. }
  exists (set_files (<[filename := image]> (files s)) s).
  eexists _, _, image.
  split. { unfold contents. rewrite Hd, Ha. by rewrite (proj2 (N.leb_le _ _) Hlen). }
  split. { rewrite (dump_run s this b a bs filename); try done.
           - by rewrite Hmul.
           - destruct Hm as [-> | ->]; discriminate.
           - by rewrite Hmul. }
  split. { cbn. apply lookup_insert_eq. }
  split; [done|].
  assert (Hdiv : N.of_nat (length image) / sizeof = n b).
  { rewrite Himg. apply N.div_mul. unfold sizeof. discriminate. }
  split. { rewrite (from_dump_run _ _ _ image) by (cbn; apply lookup_insert_eq).
           cbn zeta. rewrite Hdiv.
           rewrite (proj2 (N.eqb_neq _ _)) by lia. reflexivity. }
  cbn. split; [apply lookup_insert_eq|].
  split; [done|]. split; [done|].
  unfold contents. cbn. rewrite lookup_insert_eq, <- Himg, N.leb_refl.
  by rewrite Nat2N.id, firstn_all.
Qed.

(** C9, as the code has it.  For a file of [s] bytes, a buffer returned by
    [from_dump] is pageable, adopts a block holding the whole file, and has
    count [s / sizeof(T)] (integer division): its elements are the first
    [(s / sizeof(T)) * sizeof(T)] bytes of the file, the remainder is not
    counted.  A buffer is returned whenever [s >= sizeof(T)].  In
    particular, when [sizeof(T) > 1], a file of [4 * sizeof(T) + 1] bytes
    loads as a buffer of size 4. *)
Theorem from_dump_count s this filename bs :
  files s !! filename = Some bs →
  (∀ s', from_dump this filename s = Return tt s' →
     ∃ b a, objs s' !! this = Some b
       ∧ size b = N.of_nat (length bs) / sizeof
       ∧ mem_type b = PAGEABLE
       ∧ data b = Some a ∧ heap s' !! a = Some bs
       ∧ contents s' b = Some (take (N.to_nat (size b * sizeof)) bs))
  ∧ (sizeof ≤ N.of_nat (length bs) → ∃ s', from_dump this filename s = Return tt s')
  ∧ (1 < sizeof → N.of_nat (length bs) = 4 * sizeof + 1 →
     ∃ s' b, from_dump this filename s = Return tt s'
       ∧ objs s' !! this = Some b ∧ size b = 4).
Proof.
  intros Hf. rewrite (from_dump_run _ _ _ _ Hf). cbn zeta.
  assert (Hsz : sizeof ≠ 0) by (unfold sizeof; discriminate).
  split; [|split].
  - intros s'. case_match; [discriminate|]. intros [= <-].
    eexists _, _. cbn. split; [apply lookup_insert_eq|].
    split; [done|]. split; [done|]. split; [done|].
    split; [apply lookup_insert_eq|].
    unfold contents. cbn. rewrite lookup_insert_eq.
    rewrite (proj2 (N.leb_le _ _)); [done|].
    rewrite N.mul_comm. by apply N.Div0.mul_div_le.
  - intros Hle. rewrite (proj2 (N.eqb_neq _ _)); [by eexists|].
    intros Hz. apply N.div_small_iff in Hz; [lia|done].
  - intros Hone Hlen. rewrite Hlen.
    assert ((4 * sizeof + 1) / sizeof = 4) as ->.
    { symmetry. apply (N.div_unique _ _ 4 1); lia. }
    cbn. eexists _, _. split; [reflexivity|]. cbn.
    split; [apply lookup_insert_eq|done].
Qed.

(** C10.  On a file shorter than [sizeof(T)] (an empty file included)
    [from_dump] throws [invalid_argument] and constructs no buffer: the
    count inferred is zero and the adoption constructor rejects it. *)
Theorem from_dump_short_file s this filename bs :
  files s !! filename = Some bs →
  N.of_nat (length bs) < sizeof →
  N.of_nat (length bs) / sizeof = 0
  ∧ ∃ s', from_dump this filename s = Throw invalid_argument s'
        ∧ objs s' !! this = None.
Proof.
  intros Hf Hlt.
  assert (Hz : N.of_nat (length bs) / sizeof = 0) by (by apply N.div_small).
  split; [done|]. rewrite (from_dump_run _ _ _ _ Hf). cbn zeta. rewrite Hz.
  eexists. split; [reflexivity|]. cbn. apply lookup_delete_eq.
Qed.

End Persistence.

Lemma dump_from_dump_round_trip_witness :
  ∃ s1 s2 b' image,
    contents (build:=cpu_float) one_float (mkMemoryBuffer (Some 1%positive) 1 PAGEABLE)
      = Some image
    ∧ dump (build:=cpu_float) 0 "f" one_float = Return tt s1
    ∧ files s1 !! "f"%string = Some image
    ∧ N.of_nat (length image) = 1 * sizeof (build:=cpu_float)
    ∧ from_dump (build:=cpu_float) 1 "f" s1 = Return tt s2
    ∧ objs s2 !! 1%nat = Some b'
    ∧ size b' = 1
    ∧ mem_type b' = PAGEABLE
    ∧ contents (build:=cpu_float) s2 b' = Some image.
Proof.
  apply (@dump_from_dump_round_trip cpu_float one_float 0%nat 1%nat
           (mkMemoryBuffer (Some 1%positive) 1 PAGEABLE) 1%positive
           [x01; x02; x03; x04] "f"%string).
  - reflexivity.
  - left. reflexivity.
  - reflexivity.
  - reflexivity.
  - reflexivity.
  - vm_compute. discriminate.
  - reflexivity.
  - apply not_elem_of_empty.
Defined.

(** With [sizeof(T) = 1] a file of five bytes, that is [4 * sizeof(T) + 1],
    loads as a buffer of size 5, not 4. *)
Lemma from_dump_byte_elements_counterexample :
  files five_byte_file !! "f"%string = Some [x01; x02; x03; x04; x05]
  ∧ N.of_nat (length [x01; x02; x03; x04; x05]) = 4 * sizeof (build:=cpu_char) + 1
  ∧ ∃ s', from_dump (build:=cpu_char) 0 "f" five_byte_file = Return tt s'
        ∧ objs s' !! 0%nat = Some (mkMemoryBuffer (Some 1%positive) 5 PAGEABLE)
        ∧ size (mkMemoryBuffer (Some 1%positive) 5 PAGEABLE) ≠ 4.
Proof.
  split; [reflexivity|]. split; [reflexivity|].
  eexists. split; [vm_compute; reflexivity|].
  split; [reflexivity|]. discriminate.
Qed.

Lemma from_dump_count_witness :
  (∀ s', from_dump (build:=cpu_short) 0 "f" nine_byte_file = Return tt s' →
     ∃ b a, objs s' !! 0%nat = Some b
       ∧ size b = 9 / sizeof (build:=cpu_short)
       ∧ mem_type b = PAGEABLE
       ∧ data b = Some a
       ∧ heap s' !! a = Some [x01; x02; x03; x04; x05; x06; x07; x08; x09]
       ∧ contents (build:=cpu_short) s' b
         = Some (take (N.to_nat (size b * sizeof (build:=cpu_short)))
                   [x01; x02; x03; x04; x05; x06; x07; x08; x09]))
  ∧ (∃ s', from_dump (build:=cpu_short) 0 "f" nine_byte_file = Return tt s')
  ∧ (∃ s' b, from_dump (build:=cpu_short) 0 "f" nine_byte_file = Return tt s'
       ∧ objs s' !! 0%nat = Some b ∧ size b = 4).
Proof.
  destruct (@from_dump_count cpu_short nine_byte_file 0%nat "f"%string
              [x01; x02; x03; x04; x05; x06; x07; x08; x09] eq_refl)
    as (Hcount & Hreturns & Hfour).
  split; [exact Hcount|]. split.
  - apply Hreturns. vm_compute. discriminate.
  - apply Hfour; reflexivity.
Defined.

Lemma from_dump_short_file_witness :
  N.of_nat (length [x01; x02; x03; x04; x05]) / sizeof (build:=cpu_double) = 0
  ∧ ∃ s', from_dump (build:=cpu_double) 0 "f" five_byte_file = Throw invalid_argument s'
        ∧ objs s' !! 0%nat = None.
Proof.
  apply (@from_dump_short_file cpu_double five_byte_file 0%nat "f"%string
           [x01; x02; x03; x04; x05]).
  - reflexivity.
  - reflexivity.
Defined.

(** ** Copy construction and copy assignment *)

(** Copying [len] bytes into a block of exactly [len] bytes. *)
Lemma memcpy_fill s dst src bs old len :
  heap s !! src = Some bs →
  heap s !! dst = Some old →
  len ≤ N.of_nat (length bs) →
  N.of_nat (length old) = len →
  memcpy (Some dst) (Some src) len s
  = Return tt (set_heap (<[dst := take (N.to_nat len) bs]> (heap s)) s).
Proof.
  intros Hsrc Hdst Hlen Hold. unfold memcpy.
  rewrite bind_run, (read_bytes_run _ _ _ _ Hsrc Hlen).
  apply (write_bytes_whole _ _ old); [done|].
  rewrite length_take. lia.
Qed.

Section Copy.
Context {build : Build}.

Lemma copy_storage_run s this other t o a bs :
  objs s !! this = Some t →
  objs s !! other = Some o →
  _data o = Some a →
  heap s !! a = Some bs →
  n t * sizeof ≤ N.of_nat (length bs) →
  n t * sizeof < size_t_modulus →
  supported (mem_type t) →
  copy_storage this other s =
    let a' := fresh (dom (heap s)) in
    Return tt (State (<[a' := take (N.to_nat (n t * sizeof)) bs]> (heap s))
                     (<[this := mkMemoryBuffer (Some a') (n t) (mem_type t)]> (objs s))
                     (files s) (readonly s)).
Proof.
  intros Ht Ho Hd Ha Hlen Hfit Hsup. cbn zeta.
  assert (Hmul : size_mul (n t) sizeof = n t * sizeof)
    by (unfold size_mul; by apply N.mod_small).
  assert (Hfresh : heap s !! fresh (dom (heap s)) = None)
    by (apply not_elem_of_dom, is_fresh).
  assert (Hne : a ≠ fresh (dom (heap s))) by congruence.
  set (a' := fresh (dom (heap s))) in *.
  assert (Hcopy : ∀ st,
            heap st = <[a' := replicate (N.to_nat (n t * sizeof)) x00]> (heap s) →
            memcpy (Some a') (Some a) (n t * sizeof) st
            = Return tt (set_heap (<[a' := take (N.to_nat (n t * sizeof)) bs]> (heap s)) st)).
  { intros st Hst.
    rewrite (memcpy_fill _ a' a bs (replicate (N.to_nat (n t * sizeof)) x00)).
    - by rewrite Hst, insert_insert_eq.
    - by rewrite Hst, lookup_insert_ne.
    - rewrite Hst. apply lookup_insert_eq.
    - done.
    - rewrite length_replicate. lia. }
  unfold copy_storage, gpuMemcpy. unfold supported in Hsup.
  destruct t as [p k mt], o as [po ko mo]; cbn [_data n mem_type] in *; subst po.
  destruct mt, __GPU__ eqn:G; try (specialize (Hsup eq_refl); discriminate);
    crank; fold a'; rewrite ?Hmul;
    (rewrite Hcopy by reflexivity); crank; reflexivity.
Qed.

End Copy.

(** *** Element access *)

Section Elements.
Context {build : Build}.

(** What an element reads as depends on the object and on its own block
    only. *)
Lemma element_frame s s' r j :
  objs s' !! r = objs s !! r →
  (∀ b a, objs s !! r = Some b → _data b = Some a → heap s' !! a = heap s !! a) →
  element s' r j = element s r j.
Proof.
  intros Hobj Hheap. unfold element, subscript_read, get, read_bytes.
  unfold mbind, M_bind. rewrite Hobj.
  destruct (objs s !! r) as [b|] eqn:Hb; [|done].
  destruct (j <? 0)%Z; [done|].
  destruct (Z.to_N j * sizeof + sizeof =? 0); [reflexivity|].
  destruct (_data b) as [a|] eqn:Hd; [|done].
  rewrite (Hheap b a) by done.
  destruct (heap s !! a) as [bs|]; [|done].
  by destruct (Z.to_N j * sizeof + sizeof <=? N.of_nat (length bs)).
Qed.

Lemma subscript_write_inv s s' x i v :
  subscript_write x i v s = Return tt s' →
  ∃ b, objs s !! x = Some b ∧ objs s' = objs s
     ∧ ∀ a, _data b ≠ Some a → heap s' !! a = heap s !! a.
Proof.
  unfold subscript_write, get, write_bytes, undefined. unfold mbind, M_bind.
  destruct (objs s !! x) as [b|] eqn:Hb; [|done].
  intros Hrun. exists b. split; [done|].
  repeat case_match; simplify_eq; try done.
  split; [done|]. intros a Ha. cbn. apply lookup_insert_ne. congruence.
Qed.

Lemma independent_handles s x y bx by_ ay :
  objs s !! x = Some bx →
  objs s !! y = Some by_ →
  _data by_ = Some ay →
  _data bx ≠ Some ay →
  independent s x y.
Proof.
  intros Hx Hy Hay Hne i v s' Hw j.
  destruct (subscript_write_inv _ _ _ _ _ Hw) as (b & Hb & Hobjs & Hheap).
  assert (b = bx) as -> by congruence.
  apply element_frame; [by rewrite Hobjs|].
  intros b' a' Hb' Ha'. apply Hheap. congruence.
Qed.

Lemma assignable_live s x b a bs :
  objs s !! x = Some b →
  _data b = Some a →
  heap s !! a = Some bs →
  n b * sizeof ≤ N.of_nat (length bs) →
  assignable s x.
Proof.
  intros Hb Ha Hbs Hlen. exists b. split; [done|]. intros i v Hi Hv.
  assert (Hoff : Z.to_N i * sizeof + sizeof ≤ N.of_nat (length bs)) by nia.
  assert (Hsz : sizeof ≠ 0) by (unfold sizeof; discriminate).
  eexists. split.
  - unfold subscript_write. rewrite bind_run, (get_run _ _ _ Hb).
    rewrite (proj2 (Z.ltb_ge _ _)) by lia.
    rewrite Hv, N.eqb_refl. cbn [negb]. unfold write_bytes.
    rewrite Hv, (proj2 (N.eqb_neq _ _) Hsz), Ha, Hbs.
    rewrite (proj2 (N.leb_le _ _)) by done. reflexivity.
  - unfold element, subscript_read. rewrite bind_run. unfold get at 1. cbn [objs set_heap].
    rewrite Hb. rewrite (proj2 (Z.ltb_ge _ _)) by lia.
    rewrite bind_run, Ha.
    erewrite read_bytes_run; [| cbn; apply lookup_insert_eq |].
    + unfold mret, M_ret. f_equal.
      assert (Hpre : length (take (N.to_nat (Z.to_N i * sizeof)) bs)
                     = N.to_nat (Z.to_N i * sizeof)) by (rewrite length_take; lia).
      rewrite app_assoc, take_app_le by (rewrite length_app; lia).
      rewrite take_ge by (rewrite length_app; lia).
      rewrite <- Hpre at 1. rewrite drop_app_length. reflexivity.
    + rewrite !length_app, length_take, length_drop. lia.
Qed.

End Elements.

Section DeepCopy.
Context {build : Build}.

Lemma MemoryBuffer_copy_run s this other b a bs :
  objs s !! other = Some b →
  this ≠ other →
  _data b = Some a →
  heap s !! a = Some bs →
  n b * sizeof ≤ N.of_nat (length bs) →
  n b * sizeof < size_t_modulus →
  supported (mem_type b) →
  MemoryBuffer_copy this other s =
    let a' := fresh (dom (heap s)) in
    Return tt (State (<[a' := take (N.to_nat (n b * sizeof)) bs]> (heap s))
                     (<[this := mkMemoryBuffer (Some a') (n b) (mem_type b)]> (objs s))
                     (files s) (readonly s)).
Proof.
  intros Hb Hne Hd Ha Hlen Hfit Hsup. unfold MemoryBuffer_copy.
  rewrite bind_run, (get_run _ _ _ Hb), bind_run. unfold put at 1.
  rewrite (copy_storage_run _ this other (mkMemoryBuffer None (n b) (mem_type b)) b a bs);
    try done.
  - cbn. by rewrite insert_insert_eq.
  - cbn. apply lookup_insert_eq.
  - cbn. by rewrite lookup_insert_ne.
Qed.

Lemma copy_assign_run s this other old b a bs :
  objs s !! this = Some old →
  objs s !! other = Some b →
  this ≠ other →
  releasable s old →
  _data old ≠ Some a →
  _data b = Some a →
  heap s !! a = Some bs →
  n b * sizeof ≤ N.of_nat (length bs) →
  n b * sizeof < size_t_modulus →
  supported (mem_type b) →
  copy_assign this other s =
    let s1 := released old s in
    let a' := fresh (dom (heap s1)) in
    Return tt (State (<[a' := take (N.to_nat (n b * sizeof)) bs]> (heap s1))
                     (<[this := mkMemoryBuffer (Some a') (n b) (mem_type b)]> (objs s))
                     (files s) (readonly s)).
Proof.
  intros Hold Hb Hne Hl Halias Hd Ha Hlen Hfit Hsup. unfold copy_assign.
  rewrite bool_decide_eq_false_2 by done.
  rewrite bind_run, (get_run _ _ _ Hold).
  assert (Hdtor : when (operator_bool old) (destructor this) s = Return tt (released old s)).
  { unfold when, operator_bool. destruct (_data old) eqn:E.
    - by apply destructor_run.
    - by rewrite released_empty. }
  rewrite bind_run, Hdtor.
  assert (Ha1 : heap (released old s) !! a = Some bs).
  { unfold released. destruct (_data old) as [a0|]; [|done].
    case_match; [|done]. cbn. rewrite lookup_delete_ne; [done|congruence]. }
  pose proof (objs_released old s) as Ho. pose proof (files_released old s) as Hf.
  assert (Hr : readonly (released old s) = readonly s).
  { unfold released. by repeat case_match. }
  cbn zeta.
  destruct (released old s) as [h1 o1 f1 r1]; cbn in Ho, Hf, Hr, Ha1; subst.
  destruct old as [po ko mo]. crank.
  match goal with
  | |- copy_storage _ _ ?st = _ =>
      rewrite (copy_storage_run st this other
                 (mkMemoryBuffer po (n b) (mem_type b)) b a bs); try done
  end.
  - cbn. by rewrite insert_insert_eq.
  - cbn. apply lookup_insert_eq.
  - cbn. by rewrite lookup_insert_ne.
Qed.

(** What both copy operations establish. *)
Lemma copied_is_deep s' this other b a bs a' :
  this ≠ other →
  a' ≠ a →
  objs s' !! this = Some (mkMemoryBuffer (Some a') (n b) (mem_type b)) →
  objs s' !! other = Some b →
  _data b = Some a →
  heap s' !! a = Some bs →
  heap s' !! a' = Some (take (N.to_nat (n b * sizeof)) bs) →
  n b * sizeof ≤ N.of_nat (length bs) →
  deep_copy_of s' this other
  ∧ independent s' other this ∧ independent s' this other
  ∧ assignable s' other ∧ assignable s' this.
Proof.
  intros Hne Hfresh Hthis Hother Hd Ha Ha' Hlen.
  assert (Hblk : N.of_nat (length (take (N.to_nat (n b * sizeof)) bs)) = n b * sizeof).
  { rewrite length_take. lia. }
  split; [|split; [|split; [|split]]].
  - exists (mkMemoryBuffer (Some a') (n b) (mem_type b)), b, a', a.
    eexists _, (take (N.to_nat (n b * sizeof)) bs).
    repeat split; try done.
    + unfold contents. cbn. rewrite Ha', Hblk, N.leb_refl.
      by rewrite take_take, Nat.min_id.
    + unfold contents. rewrite Hd, Ha. by rewrite (proj2 (N.leb_le _ _) Hlen).
  - eapply independent_handles; eauto. rewrite Hd. congruence.
  - eapply independent_handles; eauto. cbn. congruence.
  - by eapply assignable_live.
  - eapply assignable_live; eauto. cbn. lia.
Qed.

(** C7.  Copying a buffer [b] that holds its [n] elements in live storage,
    under a residency of the build: the copy constructor, and copy
    assignment to a distinct buffer that does not alias [b], give the copy
    storage at an address that was not live, of the size of the elements,
    with the count and residency of [b] and the same element bytes, and
    leave [b] and its storage as they were.  Afterwards an assignment to an
    element of either buffer changes no element of the other, and such
    assignments do take effect.  Assigning a buffer to itself returns with
    the state unchanged. *)
Theorem copy_is_deep s this other b a bs :
  objs s !! other = Some b →
  this ≠ other →
  _data b = Some a →
  heap s !! a = Some bs →
  0 < n b →
  n b * sizeof ≤ N.of_nat (length bs) →
  n b * sizeof < size_t_modulus →
  supported (mem_type b) →
  (∃ s' a', MemoryBuffer_copy this other s = Return tt s'
      ∧ heap s !! a' = None
      ∧ objs s' !! this = Some (mkMemoryBuffer (Some a') (n b) (mem_type b))
      ∧ objs s' !! other = Some b ∧ heap s' !! a = Some bs
      ∧ deep_copy_of s' this other
      ∧ independent s' other this ∧ independent s' this other
      ∧ assignable s' other ∧ assignable s' this)
  ∧ (∀ old, objs s !! this = Some old → releasable s old → _data old ≠ Some a →
     ∃ s' a', copy_assign this other s = Return tt s'
      ∧ heap (released old s) !! a' = None
      ∧ objs s' !! this = Some (mkMemoryBuffer (Some a') (n b) (mem_type b))
      ∧ objs s' !! other = Some b ∧ heap s' !! a = Some bs
      ∧ deep_copy_of s' this other
      ∧ independent s' other this ∧ independent s' this other
      ∧ assignable s' other ∧ assignable s' this)
  ∧ copy_assign other other s = Return tt s.
Proof.
  intros Hb Hne Hd Ha Hpos Hlen Hfit Hsup. split; [|split].
  - rewrite (MemoryBuffer_copy_run _ _ _ _ _ _ Hb Hne Hd Ha Hlen Hfit Hsup). cbn zeta.
    assert (Hfresh : heap s !! fresh (dom (heap s)) = None)
      by (apply not_elem_of_dom, is_fresh).
    set (a' := fresh (dom (heap s))) in *.
    assert (Haa : a' ≠ a) by congruence.
    eexists _, a'. split; [reflexivity|]. split; [done|].
    assert (Hthis' : <[this := mkMemoryBuffer (Some a') (n b) (mem_type b)]> (objs s) !! this
                     = Some (mkMemoryBuffer (Some a') (n b) (mem_type b)))
      by apply lookup_insert_eq.
    assert (Hother' : <[this := mkMemoryBuffer (Some a') (n b) (mem_type b)]> (objs s) !! other
                      = Some b) by (by rewrite lookup_insert_ne).
    assert (Ha1 : <[a' := take (N.to_nat (n b * sizeof)) bs]> (heap s) !! a = Some bs)
      by (by rewrite lookup_insert_ne).
    split; [done|]. split; [done|]. split; [done|].
    eapply copied_is_deep; eauto. cbn. apply lookup_insert_eq.
  - intros old Hold Hl Halias.
    rewrite (copy_assign_run _ _ _ _ _ _ _ Hold Hb Hne Hl Halias Hd Ha Hlen Hfit Hsup).
    cbn zeta.
    assert (Hlive : heap (released old s) !! a = Some bs).
    { unfold released. destruct (_data old) as [a0|]; [|done].
      case_match; [|done]. cbn. rewrite lookup_delete_ne; [done|congruence]. }
    assert (Hfresh : heap (released old s) !! fresh (dom (heap (released old s))) = None)
      by (apply not_elem_of_dom, is_fresh).
    set (a' := fresh (dom (heap (released old s)))) in *.
    assert (Haa : a' ≠ a) by congruence.
    eexists _, a'. split; [reflexivity|]. split; [done|].
    assert (Hthis' : <[this := mkMemoryBuffer (Some a') (n b) (mem_type b)]> (objs s) !! this
                     = Some (mkMemoryBuffer (Some a') (n b) (mem_type b)))
      by apply lookup_insert_eq.
    assert (Hother' : <[this := mkMemoryBuffer (Some a') (n b) (mem_type b)]> (objs s) !! other
                      = Some b) by (by rewrite lookup_insert_ne).
    assert (Ha1 : <[a' := take (N.to_nat (n b * sizeof)) bs]> (heap (released old s)) !! a
                  = Some bs) by (by rewrite lookup_insert_ne).
    split; [done|]. split; [done|]. split; [done|].
    eapply copied_is_deep; eauto. cbn. apply lookup_insert_eq.
  - unfold copy_assign. by rewrite bool_decide_eq_true_2.
Qed.

End DeepCopy.

(** ** Partial-correctness rules *)

Section Rules.
Context {A B : Type}.
Implicit Types (Q : A → state → Prop) (E : state → Prop).

Lemma wlp_bind (m : M A) (f : A → M B) s (R : B → state → Prop) E :
  wlp m s (λ a s1, wlp (f a) s1 R E) E → wlp (m ≫= f) s R E.
Proof. unfold wlp, mbind, M_bind. by destruct (m s). Qed.

Lemma wlp_ret (a : A) s Q E : Q a s → wlp (mret a) s Q E.
Proof. done. Qed.

Lemma wlp_throw e s Q E : E s → wlp (throw e) s Q E.
Proof. done. Qed.

Lemma wlp_undefined s Q E : wlp undefined s Q E.
Proof. done. Qed.

Lemma wlp_mono (m : M A) s Q Q' E E' :
  wlp m s Q E → (∀ a s', Q a s' → Q' a s') → (∀ s', E s' → E' s') → wlp m s Q' E'.
Proof. unfold wlp. destruct (m s); eauto. Qed.

Lemma wlp_elim (m : M A) s Q E s' :
  wlp m s Q E → leaves (m s) s' → (∃ a, Q a s') ∨ E s'.
Proof.
  unfold wlp. intros Hw [[a Hr] | [e Hr]]; rewrite Hr in Hw; eauto.
Qed.

End Rules.

(** Rules for the primitives.  The heap and file primitives leave the
    objects alone; the rules forget what they do to the heap. *)
Section PrimitiveRules.
Implicit Types (s : state) (E : state → Prop).

Lemma wlp_get this s (Q : MemoryBuffer → state → Prop) E :
  (∀ b, objs s !! this = Some b → Q b s) → wlp (get this) s Q E.
Proof. unfold wlp, get. destruct (objs s !! this); eauto. Qed.

Lemma wlp_put this b s (Q : unit → state → Prop) E :
  (∀ s', objs s' = <[this := b]> (objs s) → Q tt s') → wlp (put this b) s Q E.
Proof. unfold wlp, put. intros HQ. by apply HQ. Qed.

Lemma wlp_when (c : bool) m s (Q : unit → state → Prop) E :
  (c = true → wlp m s Q E) → (c = false → Q tt s) → wlp (when c m) s Q E.
Proof. destruct c; cbn; eauto. Qed.

Lemma wlp_alloc len s (Q : pointer → state → Prop) E :
  (∀ a s', objs s' = objs s → Q (Some a) s') → wlp (alloc len) s Q E.
Proof. unfold wlp, alloc. intros HQ. by apply HQ. Qed.

Lemma wlp_free p s (Q : unit → state → Prop) E :
  (∀ s', objs s' = objs s → Q tt s') → wlp (free p) s Q E.
Proof.
  unfold wlp, free. intros HQ.
  destruct p as [a|]; [destruct (heap s !! a)|]; try done; by apply HQ.
Qed.

Lemma wlp_read_bytes p len s (Q : list byte → state → Prop) E :
  (∀ bs, Q bs s) → wlp (read_bytes p len) s Q E.
Proof.
  unfold wlp, read_bytes. intros HQ.
  destruct (len =? 0); [by apply HQ|].
  destruct p as [a|]; [|done]. destruct (heap s !! a) as [bs|]; [|done].
  destruct (len <=? N.of_nat (length bs)); [by apply HQ|done].
Qed.

Lemma wlp_write_bytes p off v s (Q : unit → state → Prop) E :
  (∀ s', objs s' = objs s → Q tt s') → wlp (write_bytes p off v) s Q E.
Proof.
  unfold wlp, write_bytes. intros HQ.
  destruct (N.of_nat (length v) =? 0); [by apply HQ|].
  destruct p as [a|]; [|done]. destruct (heap s !! a) as [bs|]; [|done].
  destruct (off + N.of_nat (length v) <=? N.of_nat (length bs)); [by apply HQ|done].
Qed.

Lemma wlp_memcpy dst src len s (Q : unit → state → Prop) E :
  (∀ s', objs s' = objs s → Q tt s') → wlp (memcpy dst src len) s Q E.
Proof.
  intros HQ. unfold memcpy. apply wlp_bind, wlp_read_bytes. intros bs.
  by apply wlp_write_bytes.
Qed.

Lemma wlp_ofstream_write filename bs s (Q : bool → state → Prop) E :
  (∀ good s', objs s' = objs s → Q good s') → wlp (ofstream_write filename bs) s Q E.
Proof.
  unfold wlp, ofstream_write. intros HQ.
  destruct (bool_decide (filename ∈ readonly s)); by apply HQ.
Qed.

Lemma wlp_ifstream_size filename s (Q : N → state → Prop) E :
  (∀ len, Q len s) → wlp (ifstream_size filename) s Q E.
Proof.
  unfold wlp, ifstream_size. intros HQ. destruct (files s !! filename); by apply HQ.
Qed.

Lemma wlp_ifstream_read filename buffer len s (Q : unit → state → Prop) E :
  (∀ s', objs s' = objs s → Q tt s') → wlp (ifstream_read filename buffer len) s Q E.
Proof.
  intros HQ. unfold wlp, ifstream_read.
  destruct (files s !! filename) as [bs|].
  - by apply wlp_write_bytes.
  - by apply HQ.
Qed.

Lemma wlp_constructing this body s (Q : unit → state → Prop) E :
  wlp body s Q (λ s', ∀ s'', objs s'' = delete this (objs s') → E s'') →
  wlp (constructing this body) s Q E.
Proof. unfold wlp, constructing. destruct (body s); eauto. Qed.

End PrimitiveRules.

(** One step of a partial-correctness proof, chosen by the head of the
    program. *)
Ltac wstep :=
  cbn beta;
  lazymatch goal with
  | |- wlp (mbind _ _) _ _ _ => apply wlp_bind
  | |- wlp (mret _) _ _ _ => apply wlp_ret
  | |- wlp (throw _) _ _ _ => apply wlp_throw
  | |- wlp undefined _ _ _ => apply wlp_undefined
  | |- wlp (get _) _ _ _ => apply wlp_get; intros ? ?
  | |- wlp (put _ _) _ _ _ => apply wlp_put; intros ? ?
  | |- wlp (when _ _) _ _ _ => unfold when
  | |- wlp (if ?c then _ else _) _ _ _ =>
      first [ let v := eval vm_compute in c in
              lazymatch v with
              | true => change c with true
              | false => change c with false
              end; cbn iota
            | destruct c eqn:? ]
  | |- wlp (alloc _) _ _ _ => apply wlp_alloc; intros ? ? ?
  | |- wlp (free _) _ _ _ => apply wlp_free; intros ? ?
  | |- wlp (memcpy _ _ _) _ _ _ => apply wlp_memcpy; intros ? ?
  | |- wlp (read_bytes _ _) _ _ _ => apply wlp_read_bytes; intros ?
  | |- wlp (write_bytes _ _ _) _ _ _ => apply wlp_write_bytes; intros ? ?
  | |- wlp (ofstream_write _ _) _ _ _ => apply wlp_ofstream_write; intros ? ? ?
  | |- wlp (ifstream_size _) _ _ _ => apply wlp_ifstream_size; intros ?
  | |- wlp (ifstream_read _ _ _) _ _ _ => apply wlp_ifstream_read; intros ? ?
  | |- wlp (constructing _ _) _ _ _ => apply wlp_constructing
  | |- wlp (set__data _ _) _ _ _ => unfold set__data
  | |- wlp (set_n _ _) _ _ _ => unfold set_n
  | |- wlp (set_mem_type _ _) _ _ _ => unfold set_mem_type
  | |- wlp (new_array _) _ _ _ => unfold new_array
  | |- wlp (new_char_array _) _ _ _ => unfold new_char_array
  | |- wlp (delete_array _) _ _ _ => unfold delete_array
  | |- wlp (gpuHostAlloc _) _ _ _ => unfold gpuHostAlloc
  | |- wlp (gpuMalloc _) _ _ _ => unfold gpuMalloc
  | |- wlp (gpuMallocManaged _) _ _ _ => unfold gpuMallocManaged
  | |- wlp (gpuHostFree _) _ _ _ => unfold gpuHostFree
  | |- wlp (gpuFree _) _ _ _ => unfold gpuFree
  | |- wlp (gpuMemcpy _ _ _) _ _ _ => unfold gpuMemcpy
  end.

(** Express every object store met along the way in terms of the first. *)
Ltac objs_norm :=
  repeat match goal with
         | Heq : objs ?x = _ |- _ => is_var x; rewrite Heq in *; clear Heq
         end;
  simplify_map_eq.

Section ObjectEffects.
Context {build : Build}.

Lemma wlp_destructor this s (Q : unit → state → Prop) E :
  (∀ s', objs s' = objs s → Q tt s') → wlp (destructor this) s Q E.
Proof.
  intros HQ. unfold destructor. repeat wstep; apply HQ; congruence.
Qed.

Lemma allocate_objs this k mt s :
  wlp (allocate this k mt) s
    (λ _ s', ∃ a, objs s' = <[this := mkMemoryBuffer (Some a) k mt]> (objs s)
                  ∧ k ≠ 0 ∧ supported mt)
    (λ s', objs s' = objs s).
Proof.
  unfold allocate, supported. destruct __GPU__, mt.
  all: repeat first [apply wlp_destructor; intros ? ? | wstep].
  all: try (objs_norm; done).
  all: eexists; (split; [objs_norm; by rewrite ?insert_insert_eq|]).
  all: split; [by apply N.eqb_neq | done].
Qed.

Lemma MemoryBuffer_sized_objs this garbage k mt s :
  wlp (MemoryBuffer_sized this garbage k mt) s
    (λ _ s', ∃ a, objs s' = <[this := mkMemoryBuffer (Some a) k mt]> (objs s)
                  ∧ k ≠ 0 ∧ supported mt)
    (λ s', objs s' = delete this (objs s)).
Proof.
  unfold MemoryBuffer_sized. repeat wstep.
  eapply wlp_mono; [apply allocate_objs| |]; cbn beta.
  - intros _ s1 (a & Ho & Hk & Hmt). exists a. objs_norm.
    by rewrite insert_insert_eq.
  - intros s1 Ho s2 Hd. objs_norm. by rewrite delete_insert_eq.
Qed.

Lemma MemoryBuffer_adopt_objs this buffer k mt s :
  wlp (MemoryBuffer_adopt this buffer k mt) s
    (λ _ s', objs s' = <[this := mkMemoryBuffer buffer k mt]> (objs s)
             ∧ k ≠ 0 ∧ buffer ≠ None ∧ supported mt)
    (λ s', objs s' = delete this (objs s)).
Proof.
  unfold MemoryBuffer_adopt, supported. destruct __GPU__, mt, buffer as [a|].
  all: repeat wstep.
  all: try (intros; objs_norm; done).
  all: objs_norm; repeat split; try done; by apply N.eqb_neq.
Qed.

Lemma copy_storage_objs this other s t o :
  objs s !! this = Some t →
  objs s !! other = Some o →
  wlp (copy_storage this other) s
    (λ _ s', if operator_bool o && (bool_decide (mem_type t = PAGEABLE) || __GPU__)
             then ∃ a, objs s' = <[this := mkMemoryBuffer (Some a) (n t) (mem_type t)]> (objs s)
             else objs s' = objs s)
    (λ _, False).
Proof.
  intros Ht Ho. unfold copy_storage. do 4 wstep. simplify_eq.
  destruct t as [pt kt mt], o as [[a|] ko mo]; cbn [_data n mem_type operator_bool].
  all: destruct __GPU__, mt.
  all: repeat wstep.
  all: cbn; try (objs_norm; done).
  all: eexists; objs_norm; by rewrite ?insert_insert_eq.
Qed.

Lemma MemoryBuffer_copy_objs this other s :
  this ≠ other →
  wlp (MemoryBuffer_copy this other) s
    (λ _ s', ∃ o, objs s !! other = Some o ∧
       if operator_bool o && (bool_decide (mem_type o = PAGEABLE) || __GPU__)
       then ∃ a, objs s' = <[this := mkMemoryBuffer (Some a) (n o) (mem_type o)]> (objs s)
       else objs s' = <[this := mkMemoryBuffer None (n o) (mem_type o)]> (objs s))
    (λ _, False).
Proof.
  intros Hne. unfold MemoryBuffer_copy.
  apply wlp_bind, wlp_get. intros o Ho. cbn beta.
  apply wlp_bind, wlp_put. intros s1 Hs1. cbn beta.
  assert (Ht1 : objs s1 !! this = Some (mkMemoryBuffer None (n o) (mem_type o)))
    by (rewrite Hs1; apply lookup_insert_eq).
  assert (Ho1 : objs s1 !! other = Some o) by (by rewrite Hs1, lookup_insert_ne).
  eapply wlp_mono; [apply (copy_storage_objs this other _ _ _ Ht1 Ho1)| |done].
  cbn beta. intros _ s2 Hpost. exists o. split; [done|]. cbn [n mem_type] in Hpost.
  destruct (operator_bool o && (bool_decide (mem_type o = PAGEABLE) || __GPU__)).
  - destruct Hpost as [a Ha]. exists a. rewrite Ha, Hs1. by rewrite insert_insert_eq.
  - by rewrite Hpost.
Qed.

Lemma MemoryBuffer_move_objs this other s :
  wlp (MemoryBuffer_move this other) s
    (λ _ s', ∃ o, objs s !! other = Some o
       ∧ objs s' = <[other := mkMemoryBuffer None (n o) (mem_type o)]>
                     (<[this := mkMemoryBuffer (_data o) (n o) (mem_type o)]> (objs s)))
    (λ _, False).
Proof.
  unfold MemoryBuffer_move. repeat wstep. exists b. split; [done|].
  destruct (decide (this = other)) as [-> | Hne]; objs_norm; done.
Qed.

Lemma copy_assign_objs this other s :
  this ≠ other →
  wlp (copy_assign this other) s
    (λ _ s', ∃ t o, objs s !! this = Some t ∧ objs s !! other = Some o ∧
       if operator_bool o && (bool_decide (mem_type o = PAGEABLE) || __GPU__)
       then ∃ a, objs s' = <[this := mkMemoryBuffer (Some a) (n o) (mem_type o)]> (objs s)
       else objs s' = <[this := mkMemoryBuffer (_data t) (n o) (mem_type o)]> (objs s))
    (λ _, False).
Proof.
  intros Hne. unfold copy_assign. rewrite bool_decide_eq_false_2 by done.
  apply wlp_bind, wlp_get. intros t Ht. cbn beta.
  apply wlp_bind.
  apply wlp_mono with (Q := λ _ s1, objs s1 = objs s) (E := λ _, False); [| |done].
  { unfold when. destruct (operator_bool t); [|done].
    apply wlp_destructor. done. }
  cbn beta. intros _ s1 Hs1.
  apply wlp_bind, wlp_get. intros o Ho. rewrite Hs1 in Ho. cbn beta.
  repeat wstep. objs_norm.
  match goal with
  | |- wlp _ ?st _ _ =>
      assert (Ht1 : objs st !! this = Some (mkMemoryBuffer (_data t) (n o) (mem_type o)))
        by (objs_norm; done);
      assert (Ho1 : objs st !! other = Some o) by (objs_norm; done)
  end.
  eapply wlp_mono; [apply (copy_storage_objs this other _ _ _ Ht1 Ho1)| |done].
  cbn beta. intros _ s2 Hpost. exists t, o. split; [done|]. split; [done|].
  cbn [n mem_type] in Hpost.
  destruct (operator_bool o && (bool_decide (mem_type o = PAGEABLE) || __GPU__)).
  - destruct Hpost as [a Ha]. exists a. objs_norm. by rewrite ?insert_insert_eq.
  - objs_norm. by rewrite ?insert_insert_eq.
Qed.

Lemma move_assign_objs this other s :
  wlp (move_assign this other) s
    (λ _ s', ∃ o, objs s !! other = Some o
       ∧ objs s' = <[other := mkMemoryBuffer None (n o) (mem_type o)]>
                     (<[this := mkMemoryBuffer (_data o) (n o) (mem_type o)]> (objs s)))
    (λ _, False).
Proof.
  unfold move_assign.
  apply wlp_bind, wlp_get. intros t Ht. cbn beta.
  apply wlp_bind.
  apply wlp_mono with (Q := λ _ s1, objs s1 = objs s) (E := λ _, False); [| |done].
  { unfold when. destruct (operator_bool t); [|done].
    apply wlp_destructor. done. }
  cbn beta. intros _ s1 Hs1.
  apply wlp_bind, wlp_get. intros o Ho. rewrite Hs1 in Ho. cbn beta.
  destruct (decide (this = other)) as [-> | Hne].
  - repeat wstep. exists o. split; [done|]. objs_norm. by rewrite ?insert_insert_eq.
  - repeat wstep. exists o. split; [done|]. objs_norm.
    by rewrite ?insert_insert_eq.
Qed.

Lemma to_cpu_objs this to_type s :
  wlp (to_cpu this to_type) s
    (λ _ s', objs s' = objs s
             ∨ ∃ b a mt, objs s !! this = Some b ∧ _data b ≠ None ∧ __GPU__ = true
                 ∧ objs s' = <[this := mkMemoryBuffer (Some a) (n b) mt]> (objs s))
    (λ _, False).
Proof.
  unfold to_cpu. destruct __GPU__; [|by left].
  wstep. wstep. wstep. destruct b as [[a|] k mt]; cbn [operator_bool _data mem_type n];
    destruct mt, (decide (to_type = PINNED)) as [-> | Hto];
    rewrite ?(bool_decide_eq_false_2 (to_type = PINNED)) by done;
    repeat wstep; try (by left).
  all: right; eexists _, _, _; split; [done|]; split; [done|]; split; [done|].
  all: objs_norm; by rewrite ?insert_insert_eq.
Qed.

(** After [to_cpu] either nothing at all has changed or the buffer is no
    longer resident on the device. *)
Lemma to_cpu_leaves_host this to_type s :
  wlp (to_cpu this to_type) s
    (λ _ s', s' = s ∨ ∃ b', objs s' !! this = Some b' ∧ mem_type b' ≠ DEVICE)
    (λ _, False).
Proof.
  unfold to_cpu. destruct __GPU__; [|by left].
  wstep. wstep. wstep. destruct b as [[a|] k mt]; cbn [operator_bool _data mem_type n];
    destruct mt, (decide (to_type = PINNED)) as [-> | Hto];
    rewrite ?(bool_decide_eq_false_2 (to_type = PINNED)) by done;
    repeat wstep; try (by left).
  all: right; eexists; objs_norm; split; [reflexivity|done].
Qed.

(** Idempotence of [to_cpu] whatever the residency: when a call returns, a
    second call returns the state it is given. *)
Lemma to_cpu_twice this to_type s s' :
  to_cpu this to_type s = Return tt s' →
  to_cpu this to_type s' = Return tt s'.
Proof.
  intros Hrun. pose proof (to_cpu_leaves_host this to_type s) as Hw.
  unfold wlp in Hw. rewrite Hrun in Hw. destruct Hw as [-> | (b' & Hb' & Hm)].
  - done.
  - by apply (to_cpu_not_device _ _ b').
Qed.

Lemma to_gpu_objs this s :
  wlp (to_gpu this) s
    (λ _ s', objs s' = objs s
             ∨ ∃ b a mt, objs s !! this = Some b ∧ _data b ≠ None ∧ __GPU__ = true
                 ∧ objs s' = <[this := mkMemoryBuffer (Some a) (n b) mt]> (objs s))
    (λ _, False).
Proof.
  unfold to_gpu. destruct __GPU__; [|by left].
  wstep. wstep. wstep. destruct b as [[a|] k mt]; cbn [operator_bool _data mem_type n];
    destruct mt; repeat wstep; try (by left).
  all: right; eexists _, _, _; split; [done|]; split; [done|]; split; [done|].
  all: objs_norm; by rewrite ?insert_insert_eq.
Qed.

Lemma dump_objs this filename s :
  let post s' :=
    objs s' = objs s
    ∨ ∃ b a mt, objs s !! this = Some b ∧ _data b ≠ None ∧ __GPU__ = true
        ∧ objs s' = <[this := mkMemoryBuffer (Some a) (n b) mt]> (objs s) in
  wlp (dump this filename) s (λ _, post) post.
Proof.
  cbn zeta. unfold dump. apply wlp_bind.
  eapply wlp_mono; [apply to_cpu_objs| |done]. cbn beta.
  intros _ s1 Hs1. repeat wstep.
  all: destruct Hs1 as [Hs1 | (b' & a & mt & Hb & Hd & HG & Hs1)];
    [left; congruence | right; exists b', a, mt; repeat split; try done; congruence].
Qed.

Lemma from_dump_objs this filename s :
  wlp (from_dump this filename) s
    (λ _ s', ∃ a k, objs s' = <[this := mkMemoryBuffer (Some a) k PAGEABLE]> (objs s)
                    ∧ k ≠ 0)
    (λ s', objs s' = delete this (objs s)).
Proof.
  unfold from_dump. repeat wstep.
  eapply wlp_mono; [apply MemoryBuffer_adopt_objs| |]; cbn beta.
  - intros _ s1 (Ho & Hk & _ & _). eexists _, _. split; [|done]. objs_norm. done.
  - intros s1 Ho. objs_norm. done.
Qed.

End ObjectEffects.

(** ** The invariant of the data model *)

Section Invariant.
Context {build : Build}.

Lemma sound_insert (o : gmap nat MemoryBuffer) this B :
  (∀ id b, o !! id = Some b → sound b) →
  sound B →
  ∀ id b, <[this := B]> o !! id = Some b → sound b.
Proof.
  intros Ho HB id b. rewrite lookup_insert. case_decide.
  - by intros [= <-].
  - apply Ho.
Qed.

Lemma sound_delete (o : gmap nat MemoryBuffer) this :
  (∀ id b, o !! id = Some b → sound b) →
  ∀ id b, delete this o !! id = Some b → sound b.
Proof.
  intros Ho id b. rewrite lookup_delete. case_decide; [done|]. apply Ho.
Qed.

Lemma sound_fresh_storage a k mt :
  k ≠ 0 → supported mt → sound (mkMemoryBuffer (Some a) k mt).
Proof. intros Hk Hmt. split; [|done]. split; cbn; done. Qed.

Lemma sound_states s :
  invariant s → residencies_supported s →
  ∀ id b, objs s !! id = Some b → sound b.
Proof. intros Hi Hr id b Hb. split; eauto. Qed.

(** The copy made of a sound buffer is sound, whether the source held
    storage or not. *)
Lemma sound_copy o B :
  sound o →
  (if operator_bool o && (bool_decide (mem_type o = PAGEABLE) || __GPU__)
   then ∃ a, B = mkMemoryBuffer (Some a) (n o) (mem_type o)
   else B = mkMemoryBuffer None (n o) (mem_type o)) →
  sound B.
Proof.
  intros [Hinv Hsup]. unfold empty_iff_zero, supported, operator_bool in *.
  destruct o as [[a0|] k mt]; cbn in *.
  - assert (Hk : k ≠ 0) by (intros Hk; by apply Hinv in Hk).
    specialize (Hsup ltac:(done)).
    assert (Hmt : supported mt) by done.
    destruct __GPU__.
    + rewrite orb_true_r. intros [a ->]. by apply sound_fresh_storage.
    + rewrite (Hsup eq_refl). cbn. intros [a ->]. by apply sound_fresh_storage.
  - intros ->. split; [|done]. cbn. done.
Qed.

(** Migration keeps a buffer sound. *)
Lemma sound_migrated b a mt :
  sound b → _data b ≠ None → __GPU__ = true →
  sound (mkMemoryBuffer (Some a) (n b) mt).
Proof.
  intros [Hinv _] Hd HG. apply sound_fresh_storage.
  - intros Hk. by apply Hinv in Hk.
  - unfold supported. rewrite HG. done.
Qed.

(** Every call other than a move keeps every object sound. *)
Lemma sound_preserved c s s' :
  (∀ id b, objs s !! id = Some b → sound b) →
  moved_from c = None →
  admissible c s →
  leaves (exec c s) s' →
  ∀ id b, objs s' !! id = Some b → sound b.
Proof.
  intros Hs Hmv Hadm Hrun.
  destruct c as [this g | this g k mt | this p k mt | this k mt | this other
                | this other | this other | this other | this tt | this
                | this f | this f]; cbn in Hmv, Hadm, Hrun; try discriminate.
  - unfold leaves, MemoryBuffer_default, put in Hrun.
    destruct Hrun as [[a Hr] | [e Hr]]; simplify_eq. cbn. apply sound_insert; [done|].
    split; [|done]. split; done.
  - destruct (wlp_elim _ _ _ _ _ (MemoryBuffer_sized_objs this g k mt s) Hrun)
      as [[_ (a & -> & Hk & Hmt)] | ->].
    + apply sound_insert; [done|]. by apply sound_fresh_storage.
    + by apply sound_delete.
  - destruct (wlp_elim _ _ _ _ _ (MemoryBuffer_adopt_objs this p k mt s) Hrun)
      as [[_ (-> & Hk & Hp & Hmt)] | ->].
    + apply sound_insert; [done|]. destruct p as [a|]; [|done].
      by apply sound_fresh_storage.
    + by apply sound_delete.
  - destruct (wlp_elim _ _ _ _ _ (allocate_objs this k mt s) Hrun)
      as [[_ (a & -> & Hk & Hmt)] | ->]; [|done].
    apply sound_insert; [done|]. by apply sound_fresh_storage.
  - assert (Hne : this ≠ other).
    { intros ->. destruct Hrun as [[a Hr] | [e Hr]];
        unfold MemoryBuffer_copy, get in Hr; rewrite bind_run, Hadm in Hr; discriminate. }
    destruct (wlp_elim _ _ _ _ _ (MemoryBuffer_copy_objs this other s Hne) Hrun)
      as [[_ (o & Ho & Hpost)] | []].
    assert (∃ B, objs s' = <[this := B]> (objs s) ∧ sound B) as (B & -> & HB).
    { destruct (operator_bool o && (bool_decide (mem_type o = PAGEABLE) || __GPU__)) eqn:Hc.
      - destruct Hpost as [a ->]. eexists. split; [done|].
        apply (sound_copy o); [by eapply Hs|]. rewrite Hc. by exists a.
      - rewrite Hpost. eexists. split; [done|].
        apply (sound_copy o); [by eapply Hs|]. by rewrite Hc. }
    by apply sound_insert.
  - destruct (decide (this = other)) as [-> | Hne].
    { unfold copy_assign in Hrun. rewrite bool_decide_eq_true_2 in Hrun by done.
      unfold mret, M_ret in Hrun.
      destruct Hrun as [[a Hr] | [e Hr]]; simplify_eq. done. }
    destruct (wlp_elim _ _ _ _ _ (copy_assign_objs this other s Hne) Hrun)
      as [[_ (t & o & Ht & Ho & Hpost)] | []].
    assert (∃ B, objs s' = <[this := B]> (objs s) ∧ sound B) as (B & -> & HB).
    { destruct (operator_bool o && (bool_decide (mem_type o = PAGEABLE) || __GPU__)) eqn:Hc.
      - destruct Hpost as [a ->]. eexists. split; [done|].
        apply (sound_copy o); [by eapply Hs|]. rewrite Hc. by exists a.
      - rewrite Hpost. eexists. split; [done|].
        apply (sound_copy o); [by eapply Hs|]. rewrite Hc.
        destruct (_data t) as [at_|] eqn:Hdt; [exfalso|done].
        destruct (_data o) as [ao|] eqn:Hdo.
        + destruct (Hs _ _ Ho) as [_ Hsup].
          assert (Hmt : supported (mem_type o)) by (apply Hsup; by rewrite Hdo).
          unfold operator_bool, supported in Hc, Hmt. rewrite Hdo in Hc. cbn in Hc.
          destruct __GPU__; [by rewrite orb_true_r in Hc|].
          rewrite (Hmt eq_refl) in Hc. discriminate.
        + apply Hadm. split; [done|]. exists t, o.
          repeat split; try done. by rewrite Hdt. }
    by apply sound_insert.
  - destruct (wlp_elim _ _ _ _ _ (to_cpu_objs this tt s) Hrun)
      as [[_ [-> | (b & a & mt & Hb & Hd & HG & ->)]] | []]; [done|].
    apply sound_insert; [done|]. apply sound_migrated; eauto.
  - destruct (wlp_elim _ _ _ _ _ (to_gpu_objs this s) Hrun)
      as [[_ [-> | (b & a & mt & Hb & Hd & HG & ->)]] | []]; [done|].
    apply sound_insert; [done|]. apply sound_migrated; eauto.
  - destruct (wlp_elim _ _ _ _ _ (dump_objs this f s) Hrun)
      as [[_ [-> | (b & a & mt & Hb & Hd & HG & ->)]]
         | [-> | (b & a & mt & Hb & Hd & HG & ->)]]; try done.
    all: apply sound_insert; [done|]; apply sound_migrated; eauto.
  - destruct (wlp_elim _ _ _ _ _ (from_dump_objs this f s) Hrun)
      as [[_ (a & k & -> & Hk)] | ->].
    + apply sound_insert; [done|]. by apply sound_fresh_storage.
    + by apply sound_delete.
Qed.

(** Without moves the invariant holds in every state a program reaches. *)
Lemma reachable_invariant s : reachable s → invariant s.
Proof.
  intros Hr. assert (Hs : ∀ id b, objs s !! id = Some b → sound b).
  { induction Hr as [h f r | c s s' _ IH Hmv Hadm Hrun].
    - intros id b Hb. cbn in Hb. by rewrite lookup_empty in Hb.
    - by eapply sound_preserved. }
  intros id b Hb. by apply (Hs id b).
Qed.

End Invariant.

Section InvariantTheorem.
Context {build : Build}.

Lemma move_leaves_source_count s s' this other :
  invariant s → residencies_supported s →
  (∃ o, objs s !! other = Some o
      ∧ objs s' = <[other := mkMemoryBuffer None (n o) (mem_type o)]>
                    (<[this := mkMemoryBuffer (_data o) (n o) (mem_type o)]> (objs s))) →
  residencies_supported s'
  ∧ (∀ id b', id ≠ other → objs s' !! id = Some b' → empty_iff_zero b')
  ∧ ∃ b b', objs s !! other = Some b ∧ objs s' !! other = Some b'
            ∧ data b' = None ∧ size b' = size b.
Proof.
  intros Hinv Hres (o & Ho & Hs'). split; [|split].
  - intros id b. rewrite Hs', lookup_insert. case_decide; [by intros [= <-]|].
    rewrite lookup_insert. case_decide; [|exact (Hres id b)].
    intros [= <-]. cbn. exact (Hres _ _ Ho).
  - intros id b Hne. rewrite Hs', lookup_insert_ne by done.
    rewrite lookup_insert. case_decide; [|exact (Hinv id b)].
    intros [= <-]. exact (Hinv _ _ Ho).
  - exists o. eexists. split; [done|]. rewrite Hs', lookup_insert_eq. done.
Qed.

(** C3, as the code has it.  A default-constructed buffer satisfies "the
    handle is null if and only if the count is zero".  Take a state in which
    every buffer satisfies it and holds storage only under a residency of
    the build, and an admissible call of the public interface (constructors
    build objects that did not exist; the copy assignment singled out above
    is left aside) that returns or throws.  Afterwards storage is still held
    only under residencies of the build, and:
    - if the call is not a move, every buffer satisfies the invariant;
    - if it is a move (construction or assignment), every buffer other than
      the source satisfies it, and the source has a null handle and the
      count it had before. *)
Theorem empty_iff_zero_preserved :
  (∀ this garbage s, ∃ s' b,
      MemoryBuffer_default this garbage s = Return tt s'
      ∧ objs s' !! this = Some b ∧ empty_iff_zero b)
  ∧ (∀ c s s',
      invariant s → residencies_supported s → admissible c s →
      leaves (exec c s) s' →
      residencies_supported s'
      ∧ match moved_from c with
        | None => invariant s'
        | Some src =>
            (∀ id b', id ≠ src → objs s' !! id = Some b' → empty_iff_zero b')
            ∧ ∃ b b', objs s !! src = Some b ∧ objs s' !! src = Some b'
                      ∧ data b' = None ∧ size b' = size b
        end).
Proof.
  split.
  - intros this garbage s. eexists _, _. split; [reflexivity|]. cbn.
    split; [apply lookup_insert_eq|]. done.
  - intros c s s' Hinv Hres Hadm Hrun.
    destruct (moved_from c) as [src|] eqn:Hmv.
    + destruct c; try discriminate; cbn in Hmv, Hrun; simplify_eq.
      * destruct (wlp_elim _ _ _ _ _ (MemoryBuffer_move_objs this src s) Hrun)
          as [[_ Hpost] | []].
        by eapply move_leaves_source_count.
      * destruct (wlp_elim _ _ _ _ _ (move_assign_objs this src s) Hrun)
          as [[_ Hpost] | []].
        by eapply move_leaves_source_count.
    + pose proof (sound_preserved c s s' (sound_states s Hinv Hres) Hmv Hadm Hrun) as Hs'.
      split.
      * intros id b Hb. by apply (Hs' id b).
      * intros id b Hb. by apply (Hs' id b).
Qed.

End InvariantTheorem.

(** Moving object 0 of [one_float] into a new object 1 is a call of the
    public interface on a state that satisfies the invariant; the state it
    returns does not: object 0 has a null handle and count 1. *)
Lemma invariant_broken_by_move_counterexample :
  invariant one_float
  ∧ ∃ s', exec (build:=cpu_float) (Move 1 0) one_float = Return tt s'
        ∧ objs s' !! 0%nat = Some (mkMemoryBuffer None 1 PAGEABLE)
        ∧ ¬ invariant s'.
Proof.
  split.
  - intros id b Hb. cbn in Hb. apply lookup_singleton_Some in Hb as [_ <-].
    split; discriminate.
  - eexists. split; [reflexivity|]. split; [reflexivity|].
    intros Hinv. specialize (Hinv 0%nat _ eq_refl). destruct Hinv as [Hinv _].
    specialize (Hinv eq_refl). discriminate.
Qed.

Lemma empty_iff_zero_preserved_witness :
  (∃ s', exec (build:=cpu_float) (Allocate 0 3 PAGEABLE) one_float = Return tt s'
       ∧ residencies_supported (build:=cpu_float) s' ∧ invariant s')
  ∧ (∃ s', exec (build:=cpu_float) (Move 1 0) one_float = Return tt s'
       ∧ residencies_supported (build:=cpu_float) s'
       ∧ (∀ id b', id ≠ 0%nat → objs s' !! id = Some b' → empty_iff_zero b')
       ∧ ∃ b b', objs one_float !! 0%nat = Some b ∧ objs s' !! 0%nat = Some b'
                 ∧ data b' = None ∧ size b' = size b).
Proof.
  assert (Hinv : invariant one_float).
  { intros id b Hb. cbn in Hb. apply lookup_singleton_Some in Hb as [_ <-].
    split; discriminate. }
  assert (Hres : residencies_supported (build:=cpu_float) one_float).
  { intros id b Hb _ _. cbn in Hb. apply lookup_singleton_Some in Hb as [_ <-].
    reflexivity. }
  split.
  - eexists. split; [vm_compute; reflexivity|].
    apply (proj2 (@empty_iff_zero_preserved cpu_float) (Allocate 0 3 PAGEABLE)
             one_float _ Hinv Hres I).
    left. exists tt. vm_compute. reflexivity.
  - eexists. split; [vm_compute; reflexivity|].
    apply (proj2 (@empty_iff_zero_preserved cpu_float) (Move 1 0)
             one_float _ Hinv Hres eq_refl).
    left. exists tt. vm_compute. reflexivity.
Defined.

Lemma copy_is_deep_witness :
  (∃ s' a', MemoryBuffer_copy (build:=cpu_float) 2 0 two_floats = Return tt s'
      ∧ heap two_floats !! a' = None
      ∧ objs s' !! 2%nat = Some (mkMemoryBuffer (Some a') 1 PAGEABLE)
      ∧ objs s' !! 0%nat = Some (mkMemoryBuffer (Some 1%positive) 1 PAGEABLE)
      ∧ heap s' !! 1%positive = Some [x01; x02; x03; x04]
      ∧ deep_copy_of (build:=cpu_float) s' 2 0
      ∧ independent (build:=cpu_float) s' 0 2 ∧ independent (build:=cpu_float) s' 2 0
      ∧ assignable (build:=cpu_float) s' 0 ∧ assignable (build:=cpu_float) s' 2)
  ∧ (∃ s' a', copy_assign (build:=cpu_float) 1 0 two_floats = Return tt s'
      ∧ heap (released (build:=cpu_float)
                (mkMemoryBuffer (Some 2%positive) 1 PAGEABLE) two_floats) !! a' = None
      ∧ objs s' !! 1%nat = Some (mkMemoryBuffer (Some a') 1 PAGEABLE)
      ∧ objs s' !! 0%nat = Some (mkMemoryBuffer (Some 1%positive) 1 PAGEABLE)
      ∧ heap s' !! 1%positive = Some [x01; x02; x03; x04]
      ∧ deep_copy_of (build:=cpu_float) s' 1 0
      ∧ independent (build:=cpu_float) s' 0 1 ∧ independent (build:=cpu_float) s' 1 0
      ∧ assignable (build:=cpu_float) s' 0 ∧ assignable (build:=cpu_float) s' 1)
  ∧ copy_assign (build:=cpu_float) 0 0 two_floats = Return tt two_floats.
Proof.
  assert (Hle : 1 * sizeof (build:=cpu_float) ≤ N.of_nat (length [x01; x02; x03; x04]))
    by (vm_compute; discriminate).
  assert (Hsup : supported (build:=cpu_float) PAGEABLE) by (intros _; reflexivity).
  split; [|split].
  - apply (proj1 (@copy_is_deep cpu_float two_floats 2%nat 0%nat
                    (mkMemoryBuffer (Some 1%positive) 1 PAGEABLE) 1%positive
                    [x01; x02; x03; x04]
                    eq_refl ltac:(discriminate) eq_refl eq_refl eq_refl Hle eq_refl Hsup)).
  - apply (proj1 (proj2 (@copy_is_deep cpu_float two_floats 1%nat 0%nat
                    (mkMemoryBuffer (Some 1%positive) 1 PAGEABLE) 1%positive
                    [x01; x02; x03; x04]
                    eq_refl ltac:(discriminate) eq_refl eq_refl eq_refl Hle eq_refl Hsup))
             (mkMemoryBuffer (Some 2%positive) 1 PAGEABLE)).
    + reflexivity.
    + vm_compute. eauto.
    + discriminate.
  - apply (proj2 (proj2 (@copy_is_deep cpu_float two_floats 1%nat 0%nat
                    (mkMemoryBuffer (Some 1%positive) 1 PAGEABLE) 1%positive
                    [x01; x02; x03; x04]
                    eq_refl ltac:(discriminate) eq_refl eq_refl eq_refl Hle eq_refl Hsup))).
Defined.

(** The copy assignment left aside above, on a concrete state: assigning the
    empty object 1 of [float_and_empty] to the populated object 0 releases
    the block of object 0 and sets its count to 0, but never resets its
    handle, which is left naming the released block.  (The copy constructor
    does set [_data = nullptr] first.) *)
Lemma copy_assign_from_empty_keeps_stale_handle :
  ∃ s', copy_assign (build:=cpu_float) 0 1 float_and_empty = Return tt s'
      ∧ objs s' !! 0%nat = Some (mkMemoryBuffer (Some 1%positive) 0 PAGEABLE)
      ∧ heap s' !! 1%positive = None.
Proof.
  eexists. split; [vm_compute; reflexivity|]. split; reflexivity.
Qed.

(** * Further properties of the class *)

(** ** Construction, destruction and re-allocation *)

Section Lifecycle.
Context {build : Build}.

Lemma destroy_run s this b :
  objs s !! this = Some b →
  releasable s b →
  destroy this s = Return tt (set_objs (delete this (objs s)) (released b s)).
Proof.
  intros Hb Hl. unfold destroy. rewrite bind_run, (destructor_run _ _ _ Hb Hl).
  unfold forget. by rewrite objs_released.
Qed.

(** A byte count that fits [size_t] is asked of every allocator alike. *)
Lemma request_fits mt k :
  k * sizeof < size_t_modulus → request mt k = k * sizeof.
Proof.
  intros Hfit. unfold request, size_mul. case_bool_decide; [done|].
  rewrite (N.mul_comm sizeof k). by apply N.mod_small.
Qed.

Lemma MemoryBuffer_sized_run s this garbage k mt :
  MemoryBuffer_sized this garbage k mt s =
    if (negb __GPU__ && bool_decide (mt ≠ PAGEABLE)) || (k =? 0)
    then Throw invalid_argument (set_objs (delete this (objs s)) s)
    else
      let a := fresh (dom (heap s)) in
      Return tt (State (<[a := replicate (N.to_nat (request mt k)) x00]> (heap s))
                       (<[this := mkMemoryBuffer (Some a) k mt]> (objs s))
                       (files s) (readonly s)).
Proof.
  unfold MemoryBuffer_sized, constructing. rewrite bind_run. unfold put at 1.
  erewrite allocate_run; [|cbn; apply lookup_insert_eq|exact I].
  cbn zeta. rewrite released_empty by done. cbn.
  destruct ((negb __GPU__ && bool_decide (mt ≠ PAGEABLE)) || (k =? 0)); cbn.
  - rewrite delete_insert_eq. by destruct s.
  - by rewrite insert_insert_eq.
Qed.

(** The sized constructor.  With a positive count whose [n * sizeof(T)]
    bytes fit [size_t], and a residency of the build, it returns a buffer of
    that count and residency whose handle names a block that was not live
    before, of exactly [n * sizeof(T)] bytes; no other block and no other
    object changes.  With a zero count, or a residency the build lacks, it
    throws [invalid_argument], no object exists and the heap is as
    before. *)
Theorem MemoryBuffer_sized_spec s this garbage :
  (∀ n_elements mt,
     0 < n_elements → n_elements * sizeof < size_t_modulus → supported mt →
     ∃ s' a blk, MemoryBuffer_sized this garbage n_elements mt s = Return tt s'
       ∧ objs s' !! this = Some (mkMemoryBuffer (Some a) n_elements mt)
       ∧ heap s !! a = None
       ∧ heap s' !! a = Some blk ∧ N.of_nat (length blk) = n_elements * sizeof
       ∧ (∀ a', a' ≠ a → heap s' !! a' = heap s !! a')
       ∧ (∀ id, id ≠ this → objs s' !! id = objs s !! id))
  ∧ (∀ n_elements mt, n_elements = 0 ∨ (__GPU__ = false ∧ mt ≠ PAGEABLE) →
     ∃ s', MemoryBuffer_sized this garbage n_elements mt s = Throw invalid_argument s'
       ∧ objs s' !! this = None
       ∧ heap s' = heap s).
Proof.
  split.
  - intros k mt Hk Hfit Hmt. rewrite MemoryBuffer_sized_run.
    assert ((negb __GPU__ && bool_decide (mt ≠ PAGEABLE)) || (k =? 0) = false) as ->.
    { assert ((k =? 0) = false) as -> by (apply N.eqb_neq; lia).
      unfold supported in Hmt. destruct __GPU__; [reflexivity|].
      rewrite bool_decide_eq_false_2; [reflexivity|].
      intros Hne. by apply Hne, Hmt. }
    rewrite (request_fits _ _ Hfit).
    cbn zeta. eexists _, _, _. split; [reflexivity|]. cbn.
    split; [apply lookup_insert_eq|].
    split; [apply not_elem_of_dom, is_fresh|].
    split; [apply lookup_insert_eq|].
    split; [rewrite length_replicate; lia|].
    split; intros x Hx; by rewrite lookup_insert_ne.
  - intros k mt Hbad. rewrite MemoryBuffer_sized_run.
    assert ((negb __GPU__ && bool_decide (mt ≠ PAGEABLE)) || (k =? 0) = true) as ->.
    { destruct Hbad as [-> | [-> Hmt]].
      - by rewrite orb_true_r.
      - by rewrite bool_decide_eq_true_2. }
    eexists. split; [reflexivity|]. cbn. split; [apply lookup_delete_eq|done].
Qed.


(** Re-allocation does not leak: a successful [allocate] on a buffer that
    holds a live block releases that block and takes a new one of exactly
    [n * sizeof(T)] bytes.  The heap afterwards is the old heap without the
    old block and with the new one, whose address was free once the old
    block had gone (it may be the old address again); so the number of live
    blocks is unchanged and every block of another owner is untouched. *)
Theorem allocate_releases_previous s this b a bs n_elements mt :
  objs s !! this = Some b →
  _data b = Some a →
  heap s !! a = Some bs →
  mem_type b = PAGEABLE ∨ __GPU__ = true →
  0 < n_elements →
  n_elements * sizeof < size_t_modulus →
  supported mt →
  ∃ s' a' blk, allocate this n_elements mt s = Return tt s'
      ∧ objs s' !! this = Some (mkMemoryBuffer (Some a') n_elements mt)
      ∧ delete a (heap s) !! a' = None
      ∧ heap s' = <[a' := blk]> (delete a (heap s))
      ∧ N.of_nat (length blk) = n_elements * sizeof
      ∧ base.size (heap s') = base.size (heap s)
      ∧ (∀ x, x ≠ a → x ≠ a' → heap s' !! x = heap s !! x).
Proof.
  intros Hb Ha Hl Hm Hk Hfit Hmt.
  assert (Hr : releasable s b) by (unfold releasable; rewrite Ha; eauto).
  rewrite (allocate_run _ _ _ _ _ Hb Hr). cbn zeta.
  assert ((negb __GPU__ && bool_decide (mt ≠ PAGEABLE)) || (n_elements =? 0) = false) as ->.
  { assert ((n_elements =? 0) = false) as -> by (apply N.eqb_neq; lia).
    unfold supported in Hmt. destruct __GPU__; [reflexivity|].
    rewrite bool_decide_eq_false_2; [reflexivity|].
    intros Hne. by apply Hne, Hmt. }
  assert (released b s = set_heap (delete a (heap s)) s) as ->.
  { unfold released. rewrite Ha. destruct Hm as [-> | ->]; [done|].
    by rewrite orb_true_r. }
  rewrite (request_fits _ _ Hfit).
  cbn [heap set_heap].
  assert (Hfresh : delete a (heap s) !! fresh (dom (delete a (heap s))) = None)
    by (apply not_elem_of_dom, is_fresh).
  set (a' := fresh (dom (delete a (heap s)))) in *.
  eexists _, a', _. split; [reflexivity|]. cbn.
  split; [apply lookup_insert_eq|]. split; [done|]. split; [done|].
  split; [rewrite length_replicate; lia|]. split.
  - rewrite map_size_insert_None by done.
    rewrite map_size_delete_Some by eauto.
    assert (base.size (heap s) ≠ 0%nat); [|lia].
    intros Hz. apply map_size_empty_inv in Hz. rewrite Hz in Hl. by rewrite lookup_empty in Hl.
  - intros x Hxa Hxa'. by rewrite lookup_insert_ne, lookup_delete_ne.
Qed.

End Lifecycle.

(** ** Migration between host and device *)

(** Copying into a block just obtained from the allocator. *)
Lemma memcpy_into_fresh st h a a' bs len :
  heap st = <[a' := replicate (N.to_nat len) x00]> h →
  h !! a = Some bs →
  a ≠ a' →
  len ≤ N.of_nat (length bs) →
  memcpy (Some a') (Some a) len st
  = Return tt (set_heap (<[a' := take (N.to_nat len) bs]> h) st).
Proof.
  intros Hst Ha Hne Hlen.
  rewrite (memcpy_fill _ a' a bs (replicate (N.to_nat len) x00)).
  - by rewrite Hst, insert_insert_eq.
  - by rewrite Hst, lookup_insert_ne.
  - rewrite Hst. apply lookup_insert_eq.
  - done.
  - rewrite length_replicate. lia.
Qed.

Section DeviceMigration.
Context {build : Build}.

Lemma size_mul_fits k :
  k * sizeof < size_t_modulus →
  size_mul sizeof k = k * sizeof ∧ size_mul k sizeof = k * sizeof.
Proof.
  intros Hfit. unfold size_mul. rewrite (N.mul_comm sizeof k).
  split; by apply N.mod_small.
Qed.

Lemma to_gpu_run s this b a bs :
  __GPU__ = true →
  objs s !! this = Some b →
  mem_type b ≠ DEVICE →
  _data b = Some a →
  heap s !! a = Some bs →
  n b * sizeof ≤ N.of_nat (length bs) →
  n b * sizeof < size_t_modulus →
  to_gpu this s =
    let a' := fresh (dom (heap s)) in
    Return tt (State (delete a (<[a' := take (N.to_nat (n b * sizeof)) bs]> (heap s)))
                     (<[this := mkMemoryBuffer (Some a') (n b) DEVICE]> (objs s))
                     (files s) (readonly s)).
Proof.
  intros HG Hb Hm Hd Ha Hlen Hfit. cbn zeta.
  destruct (size_mul_fits _ Hfit) as [Hmul _].
  assert (Hfresh : heap s !! fresh (dom (heap s)) = None)
    by (apply not_elem_of_dom, is_fresh).
  assert (Hne : a ≠ fresh (dom (heap s))) by congruence.
  set (a' := fresh (dom (heap s))) in *.
  unfold to_gpu, gpuMemcpy. rewrite HG.
  destruct b as [p k mt]; cbn [_data n mem_type] in *; subst p.
  destruct mt; try done; crank; fold a'; rewrite ?Hmul;
    (rewrite (memcpy_into_fresh _ (heap s) a a' bs) by done);
    crank; reflexivity.
Qed.

Lemma to_cpu_device_run s this b a bs to_type :
  __GPU__ = true →
  objs s !! this = Some b →
  mem_type b = DEVICE →
  _data b = Some a →
  heap s !! a = Some bs →
  n b * sizeof ≤ N.of_nat (length bs) →
  n b * sizeof < size_t_modulus →
  to_cpu this to_type s =
    let a' := fresh (dom (heap s)) in
    Return tt (State (delete a (<[a' := take (N.to_nat (n b * sizeof)) bs]> (heap s)))
                     (<[this := mkMemoryBuffer (Some a') (n b)
                                  (if bool_decide (to_type = PINNED) then PINNED else PAGEABLE)]>
                        (objs s))
                     (files s) (readonly s)).
Proof.
  intros HG Hb Hm Hd Ha Hlen Hfit. cbn zeta.
  destruct (size_mul_fits _ Hfit) as [Hmul _].
  assert (Hfresh : heap s !! fresh (dom (heap s)) = None)
    by (apply not_elem_of_dom, is_fresh).
  assert (Hne : a ≠ fresh (dom (heap s))) by congruence.
  set (a' := fresh (dom (heap s))) in *.
  unfold to_cpu, gpuMemcpy. rewrite HG.
  destruct b as [p k mt]; cbn [_data n mem_type] in *; subst p mt.
  destruct (bool_decide (to_type = PINNED)); crank; fold a'; rewrite ?Hmul;
    (rewrite (memcpy_into_fresh _ (heap s) a a' bs) by done);
    crank; reflexivity.
Qed.

(** The state a migration produces, in the terms a caller sees. *)
Lemma migrated_view s b a bs a' mt' this :
  _data b = Some a →
  heap s !! a = Some bs →
  heap s !! a' = None →
  n b * sizeof ≤ N.of_nat (length bs) →
  let s' := State (delete a (<[a' := take (N.to_nat (n b * sizeof)) bs]> (heap s)))
                  (<[this := mkMemoryBuffer (Some a') (n b) mt']> (objs s))
                  (files s) (readonly s) in
  objs s' !! this = Some (mkMemoryBuffer (Some a') (n b) mt')
  ∧ contents s' (mkMemoryBuffer (Some a') (n b) mt') = contents s b
  ∧ is_Some (contents s b)
  ∧ heap s' !! a = None
  ∧ base.size (heap s') = base.size (heap s)
  ∧ (∀ x, x ≠ a → x ≠ a' → heap s' !! x = heap s !! x).
Proof.
  intros Hd Ha Hfresh Hlen. cbn zeta. cbn [objs heap].
  assert (Hne : a' ≠ a) by congruence.
  split; [apply lookup_insert_eq|]. split; [|split; [|split; [|split]]].
  - unfold contents. cbn. rewrite Hd, Ha.
    rewrite lookup_delete_ne, lookup_insert_eq by done.
    rewrite (proj2 (N.leb_le _ _) Hlen).
    rewrite (proj2 (N.leb_le _ _)) by (rewrite length_take; lia).
    by rewrite take_take, Nat.min_id.
  - unfold contents. rewrite Hd, Ha, (proj2 (N.leb_le _ _) Hlen). eauto.
  - apply lookup_delete_eq.
  - rewrite map_size_delete_Some by (rewrite lookup_insert_ne by done; eauto).
    by rewrite map_size_insert_None.
  - intros x Hxa Hxa'. by rewrite lookup_delete_ne, lookup_insert_ne.
Qed.

(** [to_gpu] on a build with [__GPU__]: a buffer that is not on the device
    and holds its elements in live storage ends on the device with the same
    count and the same element bytes, under a handle that was not live
    before; its former block is released, so no block is gained or lost, and
    no other block changes. *)
Theorem to_gpu_migrates s this b a bs :
  __GPU__ = true →
  objs s !! this = Some b →
  mem_type b ≠ DEVICE →
  _data b = Some a →
  heap s !! a = Some bs →
  n b * sizeof ≤ N.of_nat (length bs) →
  n b * sizeof < size_t_modulus →
  ∃ s' b' a', to_gpu this s = Return tt s'
      ∧ objs s' !! this = Some b'
      ∧ on_gpu b' = true ∧ size b' = size b
      ∧ data b' = Some a' ∧ heap s !! a' = None
      ∧ contents s' b' = contents s b ∧ is_Some (contents s b)
      ∧ heap s' !! a = None
      ∧ base.size (heap s') = base.size (heap s)
      ∧ (∀ x, x ≠ a → x ≠ a' → heap s' !! x = heap s !! x).
Proof.
  intros HG Hb Hm Hd Ha Hlen Hfit.
  rewrite (to_gpu_run _ _ _ _ _ HG Hb Hm Hd Ha Hlen Hfit). cbn zeta.
  assert (Hfresh : heap s !! fresh (dom (heap s)) = None)
    by (apply not_elem_of_dom, is_fresh).
  destruct (migrated_view s b a bs _ DEVICE this Hd Ha Hfresh Hlen)
    as (Hobj & Hc & Hsome & Hgone & Hsize & Hframe).
  eexists _, _, _. split; [reflexivity|]. split; [exact Hobj|].
  repeat split; try done.
Qed.

(** [to_cpu] on a build with [__GPU__]: a device buffer that holds its
    elements in live storage ends on the host with the same count and the
    same element bytes; its residency is [PINNED] if that is the target
    asked for and [PAGEABLE] for every other target, [DEVICE] and [MANAGED]
    included.  The device block is released and no other block changes. *)
Theorem to_cpu_migrates s this b a bs to_type :
  __GPU__ = true →
  objs s !! this = Some b →
  mem_type b = DEVICE →
  _data b = Some a →
  heap s !! a = Some bs →
  n b * sizeof ≤ N.of_nat (length bs) →
  n b * sizeof < size_t_modulus →
  ∃ s' b' a', to_cpu this to_type s = Return tt s'
      ∧ objs s' !! this = Some b'
      ∧ mem_type b' = (if bool_decide (to_type = PINNED) then PINNED else PAGEABLE)
      ∧ on_gpu b' = false ∧ size b' = size b
      ∧ data b' = Some a' ∧ heap s !! a' = None
      ∧ contents s' b' = contents s b ∧ is_Some (contents s b)
      ∧ heap s' !! a = None
      ∧ base.size (heap s') = base.size (heap s)
      ∧ (∀ x, x ≠ a → x ≠ a' → heap s' !! x = heap s !! x).
Proof.
  intros HG Hb Hm Hd Ha Hlen Hfit.
  rewrite (to_cpu_device_run _ _ _ _ _ _ HG Hb Hm Hd Ha Hlen Hfit). cbn zeta.
  assert (Hfresh : heap s !! fresh (dom (heap s)) = None)
    by (apply not_elem_of_dom, is_fresh).
  destruct (migrated_view s b a bs _
              (if bool_decide (to_type = PINNED) then PINNED else PAGEABLE)
              this Hd Ha Hfresh Hlen)
    as (Hobj & Hc & Hsome & Hgone & Hsize & Hframe).
  eexists _, _, _. split; [reflexivity|]. split; [exact Hobj|].
  repeat split; try done. unfold on_gpu. cbn. by destruct (bool_decide (to_type = PINNED)).
Qed.

End DeviceMigration.

Section DeviceRoundTrip.
Context {build : Build}.

(** To the device and back: a host-side buffer that holds its elements in
    live storage comes back from [to_gpu] followed by [to_cpu] with the same
    count and the same element bytes, and no block is gained or lost.  Its
    residency is the one [to_cpu] gives, not necessarily the one it had: a
    managed or pinned buffer comes back pageable unless [PINNED] is asked
    for. *)
Theorem to_gpu_to_cpu_round_trip s this b a bs to_type :
  __GPU__ = true →
  objs s !! this = Some b →
  mem_type b ≠ DEVICE →
  _data b = Some a →
  heap s !! a = Some bs →
  n b * sizeof ≤ N.of_nat (length bs) →
  n b * sizeof < size_t_modulus →
  ∃ s' b', (to_gpu this;; to_cpu this to_type) s = Return tt s'
      ∧ objs s' !! this = Some b'
      ∧ size b' = size b
      ∧ mem_type b' = (if bool_decide (to_type = PINNED) then PINNED else PAGEABLE)
      ∧ contents s' b' = contents s b ∧ is_Some (contents s b)
      ∧ base.size (heap s') = base.size (heap s).
Proof.
  intros HG Hb Hm Hd Ha Hlen Hfit.
  rewrite bind_run, (to_gpu_run _ _ _ _ _ HG Hb Hm Hd Ha Hlen Hfit). cbn zeta.
  assert (Hfresh : heap s !! fresh (dom (heap s)) = None)
    by (apply not_elem_of_dom, is_fresh).
  set (a1 := fresh (dom (heap s))) in *.
  assert (Hne : a1 ≠ a) by congruence.
  destruct (migrated_view s b a bs a1 DEVICE this Hd Ha Hfresh Hlen)
    as (Hobj1 & Hc1 & Hsome & _ & Hsize1 & _).
  set (s1 := State (delete a (<[a1 := take (N.to_nat (n b * sizeof)) bs]> (heap s)))
                   (<[this := mkMemoryBuffer (Some a1) (n b) DEVICE]> (objs s))
                   (files s) (readonly s)) in *.
  set (b1 := mkMemoryBuffer (Some a1) (n b) DEVICE) in *.
  assert (Ha1 : heap s1 !! a1 = Some (take (N.to_nat (n b * sizeof)) bs)).
  { unfold s1. cbn. by rewrite lookup_delete_ne, lookup_insert_eq. }
  assert (Hlen1 : n b1 * sizeof ≤ N.of_nat (length (take (N.to_nat (n b * sizeof)) bs))).
  { cbn. rewrite length_take. lia. }
  rewrite (to_cpu_device_run s1 this b1 a1 _ to_type HG Hobj1 eq_refl eq_refl Ha1 Hlen1 Hfit).
  cbn zeta.
  assert (Hfresh1 : heap s1 !! fresh (dom (heap s1)) = None)
    by (apply not_elem_of_dom, is_fresh).
  destruct (migrated_view s1 b1 a1 _ _
              (if bool_decide (to_type = PINNED) then PINNED else PAGEABLE)
              this eq_refl Ha1 Hfresh1 Hlen1)
    as (Hobj2 & Hc2 & _ & _ & Hsize2 & _).
  eexists _, _. split; [reflexivity|]. split; [exact Hobj2|].
  split; [done|]. split; [done|]. split; [by rewrite Hc2|]. split; [done|].
  by rewrite Hsize2.
Qed.

Lemma to_gpu_on_device s this b :
  objs s !! this = Some b →
  mem_type b = DEVICE →
  to_gpu this s = Return tt s.
Proof.
  intros Hb Hm. unfold to_gpu. destruct __GPU__; crank; reflexivity.
Qed.

Lemma to_gpu_leaves_device this s :
  wlp (to_gpu this) s
    (λ _ s', s' = s ∨ ∃ b', objs s' !! this = Some b' ∧ mem_type b' = DEVICE)
    (λ _, False).
Proof.
  unfold to_gpu. destruct __GPU__; [|by left].
  wstep. wstep. wstep. destruct b as [[a|] k mt]; cbn [operator_bool _data mem_type n];
    destruct mt; repeat wstep; try (by left).
  all: right; eexists; objs_norm; split; [reflexivity|done].
Qed.

(** [to_gpu] is idempotent whatever the residency and the build: when a call
    returns, a second call returns the state it is given. *)
Theorem to_gpu_twice this s s' :
  to_gpu this s = Return tt s' →
  to_gpu this s' = Return tt s'.
Proof.
  intros Hrun. pose proof (to_gpu_leaves_device this s) as Hw.
  unfold wlp in Hw. rewrite Hrun in Hw. destruct Hw as [-> | (b' & Hb' & Hm)].
  - done.
  - by apply (to_gpu_on_device _ _ b').
Qed.

(** [dump] moves a device buffer to the host for good: on a build with
    [__GPU__], dumping a device buffer that holds its elements in live
    storage writes the element bytes to the file and leaves the buffer
    [PAGEABLE], with the same count and bytes. *)
Theorem dump_migrates_device_buffer s this b a bs filename :
  __GPU__ = true →
  objs s !! this = Some b →
  mem_type b = DEVICE →
  _data b = Some a →
  heap s !! a = Some bs →
  n b * sizeof ≤ N.of_nat (length bs) →
  n b * sizeof < size_t_modulus →
  filename ∉ readonly s →
  ∃ s' b' image, dump this filename s = Return tt s'
      ∧ contents s b = Some image
      ∧ files s' !! filename = Some image
      ∧ objs s' !! this = Some b'
      ∧ mem_type b' = PAGEABLE ∧ on_gpu b' = false
      ∧ size b' = size b
      ∧ contents s' b' = Some image.
Proof.
  intros HG Hb Hm Hd Ha Hlen Hfit Hw. unfold dump.
  rewrite bind_run, (to_cpu_device_run _ _ _ _ _ PAGEABLE HG Hb Hm Hd Ha Hlen Hfit).
  cbn zeta. rewrite (bool_decide_eq_false_2 (PAGEABLE = PINNED)) by done.
  assert (Hfresh : heap s !! fresh (dom (heap s)) = None)
    by (apply not_elem_of_dom, is_fresh).
  set (a1 := fresh (dom (heap s))) in *.
  assert (Hne : a1 ≠ a) by congruence.
  destruct (migrated_view s b a bs a1 PAGEABLE this Hd Ha Hfresh Hlen)
    as (Hobj1 & Hc1 & _ & _ & _ & _).
  set (s1 := State (delete a (<[a1 := take (N.to_nat (n b * sizeof)) bs]> (heap s)))
                   (<[this := mkMemoryBuffer (Some a1) (n b) PAGEABLE]> (objs s))
                   (files s) (readonly s)) in *.
  assert (Ha1 : heap s1 !! a1 = Some (take (N.to_nat (n b * sizeof)) bs)).
  { unfold s1. cbn. by rewrite lookup_delete_ne, lookup_insert_eq. }
  destruct (size_mul_fits _ Hfit) as [_ Hmul].
  rewrite bind_run, (get_run _ _ _ Hobj1). cbn [_data n].
  rewrite bind_run, Hmul.
  rewrite (read_bytes_run _ _ _ _ Ha1) by (rewrite length_take; lia).
  rewrite take_take, Nat.min_id.
  rewrite bind_run. unfold ofstream_write.
  rewrite bool_decide_eq_false_2 by done. cbn.
  assert (Himage : contents s b = Some (take (N.to_nat (n b * sizeof)) bs)).
  { unfold contents. by rewrite Hd, Ha, (proj2 (N.leb_le _ _) Hlen). }
  eexists _, _, _. split; [reflexivity|]. split; [exact Himage|]. cbn.
  split; [apply lookup_insert_eq|]. split; [exact Hobj1|].
  repeat split. rewrite <- Himage, <- Hc1. reflexivity.
Qed.

(** A [dump] that cannot open its file has moved the buffer all the same:
    [to_cpu] runs before the stream is opened.  On a build with [__GPU__],
    for a device buffer that holds its elements in live storage and a path
    the output stream cannot open, [dump] throws [runtime_error], and the
    exception leaves the buffer [PAGEABLE] on the host, under a handle that
    was not live before, with the same count and the same element bytes;
    the device block has been released. *)
Theorem dump_failure_after_migration s this b a bs filename :
  __GPU__ = true →
  objs s !! this = Some b →
  mem_type b = DEVICE →
  _data b = Some a →
  heap s !! a = Some bs →
  n b * sizeof ≤ N.of_nat (length bs) →
  n b * sizeof < size_t_modulus →
  filename ∈ readonly s →
  ∃ s' b' a', dump this filename s = Throw runtime_error s'
      ∧ objs s' !! this = Some b'
      ∧ mem_type b' = PAGEABLE ∧ on_gpu b' = false
      ∧ size b' = size b
      ∧ data b' = Some a' ∧ heap s !! a' = None
      ∧ contents s' b' = contents s b ∧ is_Some (contents s b)
      ∧ heap s' !! a = None
      ∧ base.size (heap s') = base.size (heap s).
Proof.
  intros HG Hb Hm Hd Ha Hlen Hfit Hro. unfold dump.
  rewrite bind_run, (to_cpu_device_run _ _ _ _ _ PAGEABLE HG Hb Hm Hd Ha Hlen Hfit).
  cbn zeta. rewrite (bool_decide_eq_false_2 (PAGEABLE = PINNED)) by done.
  assert (Hfresh : heap s !! fresh (dom (heap s)) = None)
    by (apply not_elem_of_dom, is_fresh).
  set (a1 := fresh (dom (heap s))) in *.
  assert (Hne : a1 ≠ a) by congruence.
  destruct (migrated_view s b a bs a1 PAGEABLE this Hd Ha Hfresh Hlen)
    as (Hobj1 & Hc1 & Hsome & Hgone & Hsize & _).
  set (s1 := State (delete a (<[a1 := take (N.to_nat (n b * sizeof)) bs]> (heap s)))
                   (<[this := mkMemoryBuffer (Some a1) (n b) PAGEABLE]> (objs s))
                   (files s) (readonly s)) in *.
  assert (Ha1 : heap s1 !! a1 = Some (take (N.to_nat (n b * sizeof)) bs)).
  { unfold s1. cbn. by rewrite lookup_delete_ne, lookup_insert_eq. }
  destruct (size_mul_fits _ Hfit) as [_ Hmul].
  rewrite bind_run, (get_run _ _ _ Hobj1). cbn [_data n].
  rewrite bind_run, Hmul.
  rewrite (read_bytes_run _ _ _ _ Ha1) by (rewrite length_take; lia).
  rewrite bind_run. unfold ofstream_write.
  rewrite (bool_decide_eq_true_2 (filename ∈ readonly s1)) by done. cbn [negb].
  eexists s1, _, a1. split; [reflexivity|]. split; [exact Hobj1|].
  repeat split; done.
Qed.

(** A failed [from_dump] leaks: on a file shorter than [sizeof(T)] the
    buffer read from the file has been allocated when the constructor
    throws, and nothing releases it: one more block is live afterwards,
    holding the file's bytes, and no object has been created to own it. *)
Theorem from_dump_failure_leaks s this filename bs :
  files s !! filename = Some bs →
  N.of_nat (length bs) < sizeof →
  ∃ s' a, from_dump this filename s = Throw invalid_argument s'
      ∧ heap s !! a = None
      ∧ heap s' !! a = Some bs
      ∧ base.size (heap s') = S (base.size (heap s))
      ∧ (∀ x, x ≠ a → heap s' !! x = heap s !! x)
      ∧ (∀ id b, objs s' !! id = Some b → objs s !! id = Some b).
Proof.
  intros Hf Hlt. rewrite (from_dump_run _ _ _ _ Hf). cbn zeta.
  rewrite (N.div_small _ _ Hlt). cbn.
  assert (Hfresh : heap s !! fresh (dom (heap s)) = None)
    by (apply not_elem_of_dom, is_fresh).
  eexists _, _. split; [reflexivity|]. cbn.
  split; [exact Hfresh|]. split; [apply lookup_insert_eq|].
  split; [by apply map_size_insert_None|]. split.
  - intros x Hx. by rewrite lookup_insert_ne.
  - intros id b. rewrite lookup_delete. by case_decide.
Qed.

(** Loading and dumping again truncates: [from_dump] followed by [dump]
    writes the first [(s / sizeof(T)) * sizeof(T)] bytes of the file loaded,
    that is the whole of it exactly when its size is a multiple of
    [sizeof(T)]. *)
Theorem from_dump_then_dump s this source target bs :
  files s !! source = Some bs →
  sizeof ≤ N.of_nat (length bs) →
  N.of_nat (length bs) < size_t_modulus →
  target ∉ readonly s →
  ∃ s', (from_dump this source;; dump this target) s = Return tt s'
      ∧ files s' !! target
        = Some (take (N.to_nat (N.of_nat (length bs) / sizeof * sizeof)) bs)
      ∧ (N.of_nat (length bs) mod sizeof = 0 → files s' !! target = Some bs)
      ∧ (N.of_nat (length bs) mod sizeof ≠ 0 → files s' !! target ≠ Some bs).
Proof.
  intros Hf Hle Hfit Hw.
  assert (Hsz : sizeof ≠ 0) by (unfold sizeof; discriminate).
  rewrite bind_run, (from_dump_run _ _ _ _ Hf). cbn zeta.
  rewrite (proj2 (N.eqb_neq _ _)) by (intros Hz; apply N.div_small_iff in Hz; lia).
  set (k := N.of_nat (length bs) / sizeof).
  assert (Hk : k * sizeof ≤ N.of_nat (length bs))
    by (unfold k; rewrite N.mul_comm; by apply N.Div0.mul_div_le).
  set (a := fresh (dom (heap s))).
  erewrite (dump_run _ this (mkMemoryBuffer (Some a) k PAGEABLE) a bs target);
    [| cbn; apply lookup_insert_eq | done | done | cbn; apply lookup_insert_eq
     | cbn; unfold size_mul; rewrite N.mod_small by lia; done | done ].
  cbn. unfold size_mul. rewrite N.mod_small by lia.
  eexists. split; [reflexivity|]. cbn. rewrite lookup_insert_eq.
  split; [done|]. split.
  - intros Hmod. f_equal. apply take_ge.
    pose proof (N.div_mod (N.of_nat (length bs)) sizeof Hsz) as Hdm.
    fold k in Hdm. lia.
  - intros Hmod Heq. injection Heq as Heq.
    apply (f_equal length) in Heq. rewrite length_take in Heq.
    pose proof (N.div_mod (N.of_nat (length bs)) sizeof Hsz) as Hdm.
    fold k in Hdm. lia.
Qed.

End DeviceRoundTrip.

(** ** Ownership across copies and moves *)

Section Ownership.
Context {build : Build}.

Lemma released_live b s a :
  _data b = Some a →
  mem_type b = PAGEABLE ∨ __GPU__ = true →
  released b s = set_heap (delete a (heap s)) s.
Proof.
  intros Ha Hm. unfold released. rewrite Ha. destruct Hm as [-> | ->]; [done|].
  by rewrite orb_true_r.
Qed.

(** After a move construction the block has one owner: destroying the
    source and then the destination releases it exactly once (no call is
    undefined), and the rest of the heap is as before the move. *)
Theorem move_then_destroy_both s this other b a bs :
  objs s !! other = Some b →
  this ≠ other →
  _data b = Some a →
  heap s !! a = Some bs →
  mem_type b = PAGEABLE ∨ __GPU__ = true →
  ∃ s', (MemoryBuffer_move this other;; destroy other;; destroy this) s = Return tt s'
      ∧ heap s' = delete a (heap s)
      ∧ objs s' !! this = None ∧ objs s' !! other = None
      ∧ (∀ id, id ≠ this → id ≠ other → objs s' !! id = objs s !! id).
Proof.
  intros Hb Hne Ha Hl Hm.
  rewrite bind_run, (MemoryBuffer_move_run _ _ _ _ Hb Hne). cbv beta iota.
  rewrite bind_run.
  erewrite destroy_run; [|cbn; apply lookup_insert_eq|exact I].
  rewrite released_empty by done. cbv beta iota. cbn [objs set_objs].
  erewrite (destroy_run _ this b).
  - rewrite (released_live _ _ a) by done. eexists. split; [reflexivity|]. cbn.
    split; [done|]. split; [apply lookup_delete_eq|]. split.
    + by rewrite lookup_delete_ne, lookup_delete_eq.
    + intros id H1 H2. by rewrite !lookup_delete_ne, !lookup_insert_ne.
  - cbn. by rewrite lookup_delete_ne, lookup_insert_ne, lookup_insert_eq.
  - unfold releasable. rewrite Ha. cbn. eauto.
Qed.

(** A copy owns its own block: after a copy construction, destroying the
    copy and the original releases both blocks (no call is undefined) and
    leaves of the heap exactly what it held besides the original's block:
    the block the copy allocated is not leaked. *)
Theorem copy_then_destroy_both s this other b a bs :
  objs s !! other = Some b →
  this ≠ other →
  _data b = Some a →
  heap s !! a = Some bs →
  n b * sizeof ≤ N.of_nat (length bs) →
  n b * sizeof < size_t_modulus →
  supported (mem_type b) →
  ∃ s', (MemoryBuffer_copy this other;; destroy this;; destroy other) s = Return tt s'
      ∧ heap s' = delete a (heap s)
      ∧ objs s' !! this = None ∧ objs s' !! other = None
      ∧ (∀ id, id ≠ this → id ≠ other → objs s' !! id = objs s !! id).
Proof.
  intros Hb Hne Ha Hl Hlen Hfit Hsup.
  assert (Hm : mem_type b = PAGEABLE ∨ __GPU__ = true).
  { unfold supported in Hsup. destruct __GPU__; [by right|left; by apply Hsup]. }
  rewrite bind_run, (MemoryBuffer_copy_run _ _ _ _ _ _ Hb Hne Ha Hl Hlen Hfit Hsup).
  cbn zeta. cbv beta iota.
  assert (Hfresh : heap s !! fresh (dom (heap s)) = None)
    by (apply not_elem_of_dom, is_fresh).
  set (a' := fresh (dom (heap s))) in *.
  assert (Haa : a' ≠ a) by congruence.
  rewrite bind_run.
  erewrite (destroy_run _ this (mkMemoryBuffer (Some a') (n b) (mem_type b)));
    [|cbn; apply lookup_insert_eq|unfold releasable; cbn; rewrite lookup_insert_eq; eauto].
  rewrite (released_live _ _ a') by done. cbv beta iota. cbn [objs heap set_objs set_heap].
  erewrite (destroy_run _ other b).
  - rewrite (released_live _ _ a) by done. eexists. split; [reflexivity|]. cbn.
    split; [by rewrite delete_insert_id|].
    split; [by rewrite lookup_delete_ne, lookup_delete_eq|].
    split; [apply lookup_delete_eq|].
    intros id H1 H2. by rewrite !lookup_delete_ne, lookup_insert_ne.
  - cbn. by rewrite lookup_delete_ne, lookup_insert_ne.
  - unfold releasable. rewrite Ha. cbn.
    rewrite delete_insert_id by done. eauto.
Qed.

(** Move assignment of a buffer to itself destroys its data: the storage is
    released and the buffer is left with a null handle (and its old
    count). *)
Theorem self_move_assign_releases s this b a bs :
  objs s !! this = Some b →
  _data b = Some a →
  heap s !! a = Some bs →
  mem_type b = PAGEABLE ∨ __GPU__ = true →
  ∃ s' b', move_assign this this s = Return tt s'
      ∧ objs s' !! this = Some b'
      ∧ data b' = None ∧ operator_bool b' = false ∧ size b' = size b
      ∧ heap s' = delete a (heap s).
Proof.
  intros Hb Ha Hl Hm. unfold move_assign.
  rewrite bind_run, (get_run _ _ _ Hb).
  assert (Hr : releasable s b) by (unfold releasable; rewrite Ha; eauto).
  assert (Hd : when (operator_bool b) (destructor this) s
               = Return tt (set_heap (delete a (heap s)) s)).
  { unfold when, operator_bool. rewrite Ha, (destructor_run _ _ _ Hb Hr).
    by rewrite (released_live _ _ a). }
  rewrite bind_run, Hd. destruct b as [p k t]. cbn in Ha. subst p.
  crank. eexists _, _. split; [reflexivity|]. cbn.
  split; [apply lookup_insert_eq|]. done.
Qed.

Lemma copy_storage_nothing s this other t o :
  objs s !! this = Some t →
  objs s !! other = Some o →
  _data o = None →
  copy_storage this other s = Return tt s.
Proof.
  intros Ht Ho Hd. unfold copy_storage.
  destruct o as [p ko mo]; cbn in Hd; subst p. destruct t as [pt kt mt].
  destruct __GPU__, mt; crank; reflexivity.
Qed.

(** Copy construction from a buffer without storage allocates nothing: the
    copy has a null handle and the count and residency of the source, and
    the heap is untouched. *)
Theorem copy_of_empty s this other b :
  objs s !! other = Some b →
  this ≠ other →
  _data b = None →
  ∃ s' b', MemoryBuffer_copy this other s = Return tt s'
      ∧ objs s' !! this = Some b'
      ∧ data b' = None ∧ size b' = size b ∧ mem_type b' = mem_type b
      ∧ heap s' = heap s
      ∧ objs s' !! other = Some b.
Proof.
  intros Hb Hne Hd. unfold MemoryBuffer_copy.
  rewrite bind_run, (get_run _ _ _ Hb), bind_run. unfold put at 1.
  erewrite (copy_storage_nothing _ this other _ b);
    [|cbn; apply lookup_insert_eq|cbn; by rewrite lookup_insert_ne|done].
  eexists _, _. split; [reflexivity|]. cbn.
  split; [apply lookup_insert_eq|]. repeat split. by rewrite lookup_insert_ne.
Qed.

(** Copy assignment from a buffer without storage onto a distinct buffer
    that holds a live block releases that block but never resets the
    destination's handle: the destination is left with the count and
    residency of the source and a handle naming released memory, and it
    still tests non-empty. *)
Theorem copy_assign_from_empty_dangles s this other t o a bs :
  objs s !! this = Some t →
  objs s !! other = Some o →
  this ≠ other →
  _data t = Some a →
  heap s !! a = Some bs →
  mem_type t = PAGEABLE ∨ __GPU__ = true →
  _data o = None →
  ∃ s' t', copy_assign this other s = Return tt s'
      ∧ objs s' !! this = Some t'
      ∧ data t' = Some a ∧ operator_bool t' = true
      ∧ size t' = size o ∧ mem_type t' = mem_type o
      ∧ heap s' !! a = None.
Proof.
  intros Ht Ho Hne Ha Hl Hm Hd. unfold copy_assign.
  rewrite bool_decide_eq_false_2 by done.
  rewrite bind_run, (get_run _ _ _ Ht).
  assert (Hr : releasable s t) by (unfold releasable; rewrite Ha; eauto).
  assert (Hdtor : when (operator_bool t) (destructor this) s
                  = Return tt (set_heap (delete a (heap s)) s)).
  { unfold when, operator_bool. rewrite Ha, (destructor_run _ _ _ Ht Hr).
    by rewrite (released_live _ _ a). }
  rewrite bind_run, Hdtor. destruct t as [p k mt]. cbn in Ha. subst p. crank.
  erewrite (copy_storage_nothing _ this other _ o);
    [|cbn; apply lookup_insert_eq|cbn; by rewrite lookup_insert_ne|done].
  eexists _, _. split; [reflexivity|]. cbn.
  split; [apply lookup_insert_eq|]. repeat split. apply lookup_delete_eq.
Qed.

(** Adoption transfers ownership: the block a caller hands to the adoption
    constructor is released when the buffer is destroyed, and the heap then
    holds exactly the other blocks. *)
Theorem adopt_then_destroy s this a bs n_elements mt :
  heap s !! a = Some bs →
  n_elements ≠ 0 →
  supported mt →
  ∃ s', (MemoryBuffer_adopt this (Some a) n_elements mt;; destroy this) s = Return tt s'
      ∧ heap s' = delete a (heap s)
      ∧ objs s' !! this = None.
Proof.
  intros Hl Hk Hmt. rewrite bind_run, adopt_run.
  assert ((negb __GPU__ && bool_decide (mt ≠ PAGEABLE)) || (n_elements =? 0)
          || negb (bool_decide (is_Some (Some a))) = false) as ->.
  { apply N.eqb_neq in Hk. rewrite Hk.
    rewrite (bool_decide_eq_true_2 (is_Some (Some a))) by eauto.
    unfold supported in Hmt. destruct __GPU__; [reflexivity|].
    rewrite bool_decide_eq_false_2; [reflexivity|].
    intros Hne. by apply Hne, Hmt. }
  cbv beta iota.
  erewrite (destroy_run _ this (mkMemoryBuffer (Some a) n_elements mt));
    [|cbn; apply lookup_insert_eq|unfold releasable; cbn; eauto].
  rewrite (released_live _ _ a); [|done|].
  - eexists. split; [reflexivity|]. cbn. split; [done|apply lookup_delete_eq].
  - cbn. unfold supported in Hmt. destruct __GPU__; [by right|left; by apply Hmt].
Qed.

End Ownership.

(** ** Element access *)

(** Overwriting a window of a list changes no position outside it. *)
Lemma splice_lookup (bs v : list byte) (off idx : nat) :
  (off + length v ≤ length bs)%nat →
  (idx < off ∨ off + length v ≤ idx)%nat →
  (take off bs ++ v ++ drop (off + length v) bs) !! idx = bs !! idx.
Proof.
  intros Hfit [Hlt | Hge].
  - rewrite lookup_app_l by (rewrite length_take; lia). by apply lookup_take_lt.
  - rewrite lookup_app_r by (rewrite length_take; lia).
    rewrite lookup_app_r by (rewrite length_take; lia).
    rewrite lookup_drop, length_take. f_equal. lia.
Qed.

Lemma splice_window (bs v : list byte) (off lo hi : nat) :
  (off + length v ≤ length bs)%nat →
  (hi ≤ off ∨ off + length v ≤ lo)%nat →
  drop lo (take hi (take off bs ++ v ++ drop (off + length v) bs))
  = drop lo (take hi bs).
Proof.
  intros Hfit Hout. apply list_eq. intros k. rewrite !lookup_drop.
  destruct (decide (lo + k < hi)%nat) as [Hin | Hnot].
  - rewrite !lookup_take_lt by done. apply splice_lookup; [done|lia].
  - by rewrite !lookup_take_ge by lia.
Qed.

Section ElementLaws.
Context {build : Build}.

(** Elements do not overlap: when an assignment to element [i] returns,
    every other element reads as it did before, in range or not. *)
Theorem subscript_write_other_element s s' this i j v :
  subscript_write this i v s = Return tt s' →
  j ≠ i →
  element s' this j = element s this j.
Proof.
  unfold subscript_write, get, undefined. unfold mbind, M_bind.
  destruct (objs s !! this) as [b|] eqn:Hb; [|done].
  destruct (Z.ltb_spec i 0) as [|Hi]; [done|].
  destruct (N.eqb_spec (N.of_nat (length v)) sizeof) as [Hv|]; [|done]. cbn [negb].
  assert (Hsz : sizeof ≠ 0) by (unfold sizeof; discriminate).
  unfold write_bytes. rewrite (proj2 (N.eqb_neq _ _)) by lia.
  destruct (_data b) as [a|] eqn:Hd; [|done].
  destruct (heap s !! a) as [bs|] eqn:Ha; [|done].
  destruct (N.leb_spec (Z.to_N i * sizeof + N.of_nat (length v)) (N.of_nat (length bs)))
    as [Hfit|]; [|done].
  intros [= <-] Hne.
  unfold element, subscript_read, get, read_bytes. unfold mbind, M_bind. cbn [objs heap set_heap].
  rewrite Hb. destruct (Z.ltb_spec j 0) as [|Hj]; [done|].
  rewrite (proj2 (N.eqb_neq _ _)) by lia. rewrite Hd. cbn [heap set_heap].
  rewrite Ha, lookup_insert_eq.
  rewrite !length_app, length_take, length_drop.
  replace (N.of_nat (N.to_nat (Z.to_N i * sizeof) `min` length bs
                     + (length v + (length bs - (N.to_nat (Z.to_N i * sizeof) + length v)))))
    with (N.of_nat (length bs)) by lia.
  destruct (Z.to_N j * sizeof + sizeof <=? N.of_nat (length bs)); [|done].
  unfold mret, M_ret. f_equal.
  apply splice_window; [lia|].
  assert (j < i ∨ i < j)%Z as [Hlt | Hgt] by lia; [left|right]; nia.
Qed.

End ElementLaws.

(** * FITS.cpp *)

Module FitsProofs.
Import FITS.

(** ** Matching by derivatives *)

Lemma matches_Fail s : matches Fail s = false.
Proof. induction s; [done|]. cbn. done. Qed.

Lemma matches_Alt r1 r2 s : matches (Alt r1 r2) s = matches r1 s || matches r2 s.
Proof. revert r1 r2. induction s as [|c s IH]; intros r1 r2; [done|]. cbn. apply IH. Qed.

Lemma matches_Seq_Fail r s : matches (Seq Fail r) s = false.
Proof.
  induction s as [|c s IH]; [done|]. cbn.
  by rewrite matches_Alt, IH, matches_Fail.
Qed.

Lemma matches_Seq_Eps r s : matches (Seq Eps r) s = matches r s.
Proof.
  destruct s as [|c s]; [done|]. cbn.
  by rewrite matches_Alt, matches_Seq_Fail.
Qed.

Lemma matches_Seq_Chr c r s :
  matches (Seq (Chr c) r) s =
  match s with
  | EmptyString => false
  | String c' s' => Ascii.eqb c' c && matches r s'
  end.
Proof.
  destruct s as [|c' s]; [done|]. cbn. rewrite matches_Alt, matches_Fail, orb_false_r.
  destruct (Ascii.eqb c' c); [apply matches_Seq_Eps|apply matches_Seq_Fail].
Qed.

Lemma matches_Seq_Range lo hi r s :
  matches (Seq (Range lo hi) r) s =
  match s with
  | EmptyString => false
  | String c s' => in_range lo hi c && matches r s'
  end.
Proof.
  destruct s as [|c s]; [done|]. cbn. rewrite matches_Alt, matches_Fail, orb_false_r.
  destruct (in_range lo hi c); [apply matches_Seq_Eps|apply matches_Seq_Fail].
Qed.

Lemma matches_Star_Range lo hi s :
  matches (Star (Range lo hi)) s = all_in lo hi s.
Proof.
  induction s as [|c s IH]; [done|]. cbn.
  destruct (in_range lo hi c); cbn.
  - by rewrite matches_Seq_Eps.
  - apply matches_Seq_Fail.
Qed.

(** The pattern of the source, read as a plain test on the key. *)
Lemma naxis_regex_matches key :
  matches naxis_regex key = true ↔
  ∃ d rest, key = ("NAXIS" ++ String d rest)%string
            ∧ in_range "1" "9" d = true ∧ all_in "0" "9" rest = true.
Proof.
  unfold naxis_regex. cbn [lit]. split.
  - repeat (rewrite matches_Seq_Chr; destruct key as [|? key]; [done|];
            intros [->%Ascii.eqb_eq Hm]%andb_prop; revert Hm).
    rewrite matches_Seq_Range. destruct key as [|d rest]; [done|].
    intros [Hd Hrest]%andb_prop. rewrite matches_Star_Range in Hrest.
    by exists d, rest.
  - intros (d & rest & -> & Hd & Hrest).
    change ("NAXIS" +:+ String d rest)
      with (String "N" (String "A" (String "X" (String "I" (String "S" (String d rest)))))).
    do 5 (rewrite matches_Seq_Chr; cbv beta iota; rewrite Ascii.eqb_refl; cbn [andb]).
    by rewrite matches_Seq_Range, Hd, matches_Star_Range.
Qed.

(** ** Digit strings and decimal numerals *)

Lemma all_digits_of_uint u : all_in "0" "9" (NilEmpty.string_of_uint u) = true.
Proof. induction u; cbn [NilEmpty.string_of_uint all_in]; [done|..]; by rewrite IHu. Qed.

Lemma digits_string s :
  all_in "0" "9" s = true → ∃ u, NilEmpty.string_of_uint u = s.
Proof.
  induction s as [|c s IH]; [by exists Nil|].
  cbn [all_in]. intros [Hc [u <-]%IH]%andb_prop.
  destruct c as [[] [] [] [] [] [] [] []]; try (vm_compute in Hc; discriminate Hc).
  all: first [ by exists (D0 u) | by exists (D1 u) | by exists (D2 u) | by exists (D3 u)
             | by exists (D4 u) | by exists (D5 u) | by exists (D6 u) | by exists (D7 u)
             | by exists (D8 u) | by exists (D9 u) ].
Qed.

(** A digit string that starts with a digit other than 0 is the numeral of
    a normalised, nonzero [uint]. *)
Lemma nonzero_digits d rest :
  in_range "1" "9" d = true →
  all_in "0" "9" rest = true →
  ∃ u, NilEmpty.string_of_uint u = String d rest ∧ unorm u = u ∧ u ≠ D0 Nil.
Proof.
  intros Hd [u <-]%digits_string.
  destruct d as [[] [] [] [] [] [] [] []]; try (vm_compute in Hd; discriminate Hd).
  all: first [ by exists (D1 u) | by exists (D2 u) | by exists (D3 u) | by exists (D4 u)
             | by exists (D5 u) | by exists (D6 u) | by exists (D7 u) | by exists (D8 u)
             | by exists (D9 u) ].
Qed.

Lemma nzhead_not_D0 u u' : nzhead u ≠ D0 u'.
Proof. induction u; cbn; done. Qed.

Lemma normalised_head u :
  unorm u = u → u ≠ D0 Nil →
  match u with Nil | D0 _ => False | _ => True end.
Proof.
  destruct u as [|u| | | | | | | | |]; try done.
  unfold unorm. cbn [nzhead]. intros Hn Hz.
  destruct (nzhead u) as [|u0| | | | | | | | |] eqn:E; try discriminate Hn.
  - injection Hn as <-. done.
  - by eapply nzhead_not_D0.
Qed.

Lemma decimal_positive k :
  0 < k →
  ∃ d rest, decimal k = String d rest
            ∧ in_range "1" "9" d = true ∧ all_in "0" "9" rest = true.
Proof.
  intros Hk. unfold decimal.
  assert (Hn : unorm (N.to_uint k) = N.to_uint k).
  { rewrite <- DecimalN.Unsigned.to_of. by rewrite DecimalN.Unsigned.of_to. }
  assert (Hz : N.to_uint k ≠ D0 Nil).
  { intros Hz. apply (f_equal N.of_uint) in Hz.
    rewrite DecimalN.Unsigned.of_to in Hz. cbn in Hz. lia. }
  pose proof (normalised_head _ Hn Hz) as Hhead.
  pose proof (all_digits_of_uint (N.to_uint k)) as Hall.
  destruct (N.to_uint k) as [|u|u|u|u|u|u|u|u|u|u]; try done.
  all: cbn [NilEmpty.string_of_uint all_in] in *; eexists _, _; split; [reflexivity|].
  all: apply andb_prop in Hall as [_ Hall]; split; [reflexivity|exact Hall].
Qed.

Lemma positive_decimal d rest :
  in_range "1" "9" d = true →
  all_in "0" "9" rest = true →
  ∃ k, 0 < k ∧ decimal k = String d rest.
Proof.
  intros Hd Hrest. destruct (nonzero_digits d rest Hd Hrest) as (u & Hu & Hn & Hz).
  exists (N.of_uint u). unfold decimal.
  rewrite DecimalN.Unsigned.to_of, Hn. split; [|done].
  destruct (N.of_uint u) eqn:E; [|lia].
  exfalso. apply Hz. rewrite <- Hn, <- DecimalN.Unsigned.to_of, E. reflexivity.
Qed.

(** ** [is_special_keyword] *)

Lemma special_keywords_test key :
  existsb (String.eqb key) special_keywords = true ↔ key ∈ special_keywords.
Proof.
  rewrite existsb_exists. split.
  - intros (x & Hin & ->%String.eqb_eq). by apply list_elem_of_In.
  - intros Hin. exists key. split; [by apply list_elem_of_In|apply String.eqb_refl].
Qed.

(** The keywords [is_special_keyword] accepts are exactly the five names
    SIMPLE, BITPIX, COMMENT, EXTEND and NAXIS, and NAXIS followed by the
    decimal numeral of a positive integer, written without leading zeros. *)
Theorem is_special_keyword_spec key :
  is_special_keyword key = true ↔
  key ∈ special_keywords ∨ ∃ k : N, 0 < k ∧ key = ("NAXIS" ++ decimal k)%string.
Proof.
  unfold is_special_keyword, regex_search_anchored.
  destruct (existsb (String.eqb key) special_keywords) eqn:E.
  - split; [|done]. intros _. left. by apply special_keywords_test.
  - split.
    + destruct (matches naxis_regex key) eqn:Hm; [|done]. intros _. right.
      apply naxis_regex_matches in Hm as (d & rest & -> & Hd & Hrest).
      destruct (positive_decimal d rest Hd Hrest) as (k & Hk & Hdec).
      exists k. by rewrite Hdec.
    + intros [Hin | (k & Hk & ->)].
      * apply special_keywords_test in Hin. congruence.
      * destruct (decimal_positive k Hk) as (d & rest & -> & Hd & Hrest).
        assert (matches naxis_regex ("NAXIS" ++ String d rest) = true) as ->; [|done].
        apply naxis_regex_matches. by exists d, rest.
Qed.

(** A leading zero makes an ordinary keyword: NAXIS0, NAXIS01 and every
    other key that continues NAXIS with the character 0 is not special. *)
Theorem naxis_leading_zero_not_special rest :
  is_special_keyword ("NAXIS0" ++ rest) = false.
Proof.
  unfold is_special_keyword, regex_search_anchored, naxis_regex.
  change ("NAXIS0" +:+ rest)
    with (String "N" (String "A" (String "X" (String "I" (String "S" (String "0" rest)))))).
  assert (existsb (String.eqb (String "N" (String "A" (String "X" (String "I"
            (String "S" (String "0" rest))))))) special_keywords = false) as ->
    by reflexivity.
  cbn [lit].
  do 5 (rewrite matches_Seq_Chr; cbv beta iota; rewrite Ascii.eqb_refl; cbn [andb]).
  rewrite matches_Seq_Range. reflexivity.
Qed.

(** ** [set_image] *)

Section SetImage.
Context {fitsio : Fitsio}.

Lemma release_image_run s this :
  image_releasable s this →
  (if bool_decide (is_Some (data this)) then delete_array (data this) else mret tt) s
  = Return tt (without_image this s).
Proof.
  unfold image_releasable, without_image, delete_array, free.
  destruct (data this) as [a|].
  - intros [bs Hbs]. rewrite bool_decide_eq_true_2 by eauto. by rewrite Hbs.
  - intros _. rewrite bool_decide_eq_false_2; [done|]. by intros [? ?].
Qed.

Lemma image_codes_apart :
  FLOAT_IMG ≠ DOUBLE_IMG ∧ FLOAT_IMG ≠ BYTE_IMG ∧ FLOAT_IMG ≠ LONG_IMG
  ∧ DOUBLE_IMG ≠ BYTE_IMG ∧ DOUBLE_IMG ≠ LONG_IMG ∧ BYTE_IMG ≠ LONG_IMG.
Proof.
  pose proof image_codes_distinct as Hnd.
  apply NoDup_cons in Hnd as [H1 Hnd]. apply NoDup_cons in Hnd as [H2 Hnd].
  apply NoDup_cons in Hnd as [H3 _].
  apply not_elem_of_cons in H1 as [? H1]. apply not_elem_of_cons in H1 as [? H1].
  apply not_elem_of_cons in H1 as [? _].
  apply not_elem_of_cons in H2 as [? H2]. apply not_elem_of_cons in H2 as [? _].
  apply not_elem_of_cons in H3 as [? _]. done.
Qed.

(** [set_image] with one of the four pixel codes it knows: the call
    returns, the HDU holds the new pointer, code and dimensions together
    with the cfitsio data type that goes with the code, and the image held
    before, if any, has been released; nothing else in the heap changes. *)
Theorem set_image_accepts this code dt data' xDim yDim s :
  (code, dt) ∈ [(FLOAT_IMG, TFLOAT); (DOUBLE_IMG, TDOUBLE);
                (BYTE_IMG, TBYTE); (LONG_IMG, TLONG)] →
  image_releasable s this →
  set_image this code data' xDim yDim s
  = (mkHDU data' code (xDim, yDim) dt, Return tt (without_image this s)).
Proof.
  intros Hin Hrel. unfold set_image. rewrite (release_image_run _ _ Hrel).
  destruct image_codes_apart as (H1 & H2 & H3 & H4 & H5 & H6).
  rewrite !elem_of_cons, elem_of_nil in Hin.
  destruct Hin as [[= -> ->] | [[= -> ->] | [[= -> ->] | [[= -> ->] | []]]]].
  - by rewrite Z.eqb_refl.
  - rewrite (proj2 (Z.eqb_neq _ _)) by done. by rewrite Z.eqb_refl.
  - rewrite !(proj2 (Z.eqb_neq BYTE_IMG _)) by done. by rewrite Z.eqb_refl.
  - rewrite !(proj2 (Z.eqb_neq LONG_IMG _)) by done. by rewrite Z.eqb_refl.
Qed.

(** [set_image] with any other pixel code throws [invalid_argument], but
    only after it has taken the arguments: the image held before has been
    released and the HDU is left holding the new pointer, the rejected code
    and the new dimensions, next to the data type of the previous image. *)
Theorem set_image_rejects_after_update this code data' xDim yDim s :
  code ∉ [FLOAT_IMG; DOUBLE_IMG; BYTE_IMG; LONG_IMG] →
  image_releasable s this →
  set_image this code data' xDim yDim s
  = (mkHDU data' code (xDim, yDim) (datatype this),
     Throw invalid_argument (without_image this s)).
Proof.
  intros Hout Hrel. unfold set_image. rewrite (release_image_run _ _ Hrel).
  rewrite !not_elem_of_cons in Hout. destruct Hout as (H1 & H2 & H3 & H4 & _).
  by rewrite !(proj2 (Z.eqb_neq code _)) by done.
Qed.

(** Setting again the image an HDU already holds leaves it pointing at
    released memory: the old image is deleted before the new pointer is
    stored, and they are the same block. *)
Theorem set_image_same_pointer_dangles this code a bs xDim yDim s :
  data this = Some a →
  heap s !! a = Some bs →
  ∃ this' o s', set_image this code (Some a) xDim yDim s = (this', o)
      ∧ leaves o s'
      ∧ data this' = Some a
      ∧ heap s' !! a = None.
Proof.
  intros Hd Ha. unfold set_image.
  rewrite release_image_run by (unfold image_releasable; rewrite Hd; eauto).
  unfold without_image. rewrite Hd.
  repeat case_match; eexists _, _, _; (split; [reflexivity|]);
    (split; [first [left; by eexists | right; by eexists]|]);
    (split; [reflexivity|]); cbn; apply lookup_delete_eq.
Qed.

End SetImage.

End FitsProofs.

(** * The further properties on concrete inputs *)

Lemma MemoryBuffer_sized_spec_witness :
  (∃ s' a blk, MemoryBuffer_sized (build:=gpu_float) 1 PAGEABLE 3 DEVICE one_float
                 = Return tt s'
       ∧ objs s' !! 1%nat = Some (mkMemoryBuffer (Some a) 3 DEVICE)
       ∧ heap one_float !! a = None
       ∧ heap s' !! a = Some blk
       ∧ N.of_nat (length blk) = 3 * sizeof (build:=gpu_float)
       ∧ (∀ a', a' ≠ a → heap s' !! a' = heap one_float !! a')
       ∧ (∀ id, id ≠ 1%nat → objs s' !! id = objs one_float !! id))
  ∧ (∃ s', MemoryBuffer_sized (build:=cpu_float) 1 PAGEABLE 3 DEVICE one_float
             = Throw invalid_argument s'
       ∧ objs s' !! 1%nat = None
       ∧ heap s' = heap one_float).
Proof.
  split.
  - apply (proj1 (@MemoryBuffer_sized_spec gpu_float one_float 1%nat PAGEABLE)).
    + reflexivity.
    + reflexivity.
    + discriminate.
  - apply (proj2 (@MemoryBuffer_sized_spec cpu_float one_float 1%nat PAGEABLE)).
    right. split; [reflexivity|discriminate].
Defined.


Lemma allocate_releases_previous_witness :
  ∃ s' a' blk, allocate (build:=cpu_float) 0 3 PAGEABLE two_floats = Return tt s'
      ∧ objs s' !! 0%nat = Some (mkMemoryBuffer (Some a') 3 PAGEABLE)
      ∧ delete 1%positive (heap two_floats) !! a' = None
      ∧ heap s' = <[a' := blk]> (delete 1%positive (heap two_floats))
      ∧ N.of_nat (length blk) = 3 * sizeof (build:=cpu_float)
      ∧ base.size (heap s') = base.size (heap two_floats)
      ∧ (∀ x, x ≠ 1%positive → x ≠ a' → heap s' !! x = heap two_floats !! x).
Proof.
  apply (@allocate_releases_previous cpu_float two_floats 0%nat
           (mkMemoryBuffer (Some 1%positive) 1 PAGEABLE) 1%positive [x01; x02; x03; x04]).
  - reflexivity.
  - reflexivity.
  - reflexivity.
  - left. reflexivity.
  - reflexivity.
  - reflexivity.
  - intros _. reflexivity.
Defined.

(** A failing [allocate] on a buffer without storage is harmless: with a
    zero count, or a residency the build lacks, it throws
    [invalid_argument] and the state is exactly the one before the call. *)
Theorem allocate_failure_on_empty_buffer {build : Build} s this b n_elements mt :
  objs s !! this = Some b →
  _data b = None →
  n_elements = 0 ∨ (__GPU__ = false ∧ mt ≠ PAGEABLE) →
  allocate this n_elements mt s = Throw invalid_argument s.
Proof.
  intros Hb Hd Hbad.
  assert (Hl : releasable s b) by (unfold releasable; rewrite Hd; exact I).
  rewrite (allocate_run _ _ _ _ _ Hb Hl). cbn zeta. rewrite (released_empty _ _ Hd).
  assert ((negb __GPU__ && bool_decide (mt ≠ PAGEABLE)) || (n_elements =? 0) = true) as ->.
  { destruct Hbad as [-> | [-> Hmt]].
    - by rewrite orb_true_r.
    - by rewrite bool_decide_eq_true_2. }
  reflexivity.
Qed.

Lemma allocate_failure_on_empty_buffer_witness :
  allocate (build:=cpu_float) 1 5 PINNED float_and_empty
  = Throw invalid_argument float_and_empty.
Proof.
  apply (@allocate_failure_on_empty_buffer cpu_float float_and_empty 1%nat
           (mkMemoryBuffer None 0 PAGEABLE) 5 PINNED).
  - reflexivity.
  - reflexivity.
  - right. split; [reflexivity|discriminate].
Defined.

Lemma to_gpu_migrates_witness :
  ∃ s' b' a', to_gpu (build:=gpu_float) 0 one_float = Return tt s'
      ∧ objs s' !! 0%nat = Some b'
      ∧ on_gpu b' = true ∧ size b' = 1
      ∧ data b' = Some a' ∧ heap one_float !! a' = None
      ∧ contents (build:=gpu_float) s' b'
        = contents (build:=gpu_float) one_float (mkMemoryBuffer (Some 1%positive) 1 PAGEABLE)
      ∧ is_Some (contents (build:=gpu_float) one_float
                   (mkMemoryBuffer (Some 1%positive) 1 PAGEABLE))
      ∧ heap s' !! 1%positive = None
      ∧ base.size (heap s') = base.size (heap one_float)
      ∧ (∀ x, x ≠ 1%positive → x ≠ a' → heap s' !! x = heap one_float !! x).
Proof.
  apply (@to_gpu_migrates gpu_float one_float 0%nat
           (mkMemoryBuffer (Some 1%positive) 1 PAGEABLE) 1%positive [x01; x02; x03; x04]).
  - reflexivity.
  - reflexivity.
  - discriminate.
  - reflexivity.
  - reflexivity.
  - vm_compute. discriminate.
  - reflexivity.
Defined.

Lemma to_cpu_migrates_witness :
  ∃ s' b' a', to_cpu (build:=gpu_float) 0 MANAGED one_device_float = Return tt s'
      ∧ objs s' !! 0%nat = Some b'
      ∧ mem_type b' = PAGEABLE
      ∧ on_gpu b' = false ∧ size b' = 1
      ∧ data b' = Some a' ∧ heap one_device_float !! a' = None
      ∧ contents (build:=gpu_float) s' b'
        = contents (build:=gpu_float) one_device_float
            (mkMemoryBuffer (Some 1%positive) 1 DEVICE)
      ∧ is_Some (contents (build:=gpu_float) one_device_float
                   (mkMemoryBuffer (Some 1%positive) 1 DEVICE))
      ∧ heap s' !! 1%positive = None
      ∧ base.size (heap s') = base.size (heap one_device_float)
      ∧ (∀ x, x ≠ 1%positive → x ≠ a' → heap s' !! x = heap one_device_float !! x).
Proof.
  apply (@to_cpu_migrates gpu_float one_device_float 0%nat
           (mkMemoryBuffer (Some 1%positive) 1 DEVICE) 1%positive [x01; x02; x03; x04]
           MANAGED).
  - reflexivity.
  - reflexivity.
  - reflexivity.
  - reflexivity.
  - reflexivity.
  - vm_compute. discriminate.
  - reflexivity.
Defined.

Lemma to_gpu_to_cpu_round_trip_witness :
  ∃ s' b', (to_gpu (build:=gpu_float) 0;; to_cpu (build:=gpu_float) 0 PINNED) one_float
           = Return tt s'
      ∧ objs s' !! 0%nat = Some b'
      ∧ size b' = 1
      ∧ mem_type b' = PINNED
      ∧ contents (build:=gpu_float) s' b'
        = contents (build:=gpu_float) one_float (mkMemoryBuffer (Some 1%positive) 1 PAGEABLE)
      ∧ is_Some (contents (build:=gpu_float) one_float
                   (mkMemoryBuffer (Some 1%positive) 1 PAGEABLE))
      ∧ base.size (heap s') = base.size (heap one_float).
Proof.
  apply (@to_gpu_to_cpu_round_trip gpu_float one_float 0%nat
           (mkMemoryBuffer (Some 1%positive) 1 PAGEABLE) 1%positive [x01; x02; x03; x04]
           PINNED).
  - reflexivity.
  - reflexivity.
  - discriminate.
  - reflexivity.
  - reflexivity.
  - vm_compute. discriminate.
  - reflexivity.
Defined.

Lemma to_cpu_twice_witness :
  ∃ s', to_cpu (build:=gpu_float) 0 PAGEABLE one_device_float = Return tt s'
      ∧ to_cpu (build:=gpu_float) 0 PAGEABLE s' = Return tt s'.
Proof.
  eexists. split; [vm_compute; reflexivity|].
  apply (@to_cpu_twice gpu_float 0%nat PAGEABLE one_device_float).
  vm_compute. reflexivity.
Defined.

Lemma to_gpu_twice_witness :
  ∃ s', to_gpu (build:=gpu_float) 0 one_float = Return tt s'
      ∧ to_gpu (build:=gpu_float) 0 s' = Return tt s'.
Proof.
  eexists. split; [vm_compute; reflexivity|].
  apply (@to_gpu_twice gpu_float 0%nat one_float).
  vm_compute. reflexivity.
Defined.

Lemma dump_migrates_device_buffer_witness :
  ∃ s' b' image, dump (build:=gpu_float) 0 "f" one_device_float = Return tt s'
      ∧ contents (build:=gpu_float) one_device_float
          (mkMemoryBuffer (Some 1%positive) 1 DEVICE) = Some image
      ∧ files s' !! "f"%string = Some image
      ∧ objs s' !! 0%nat = Some b'
      ∧ mem_type b' = PAGEABLE ∧ on_gpu b' = false
      ∧ size b' = 1
      ∧ contents (build:=gpu_float) s' b' = Some image.
Proof.
  apply (@dump_migrates_device_buffer gpu_float one_device_float 0%nat
           (mkMemoryBuffer (Some 1%positive) 1 DEVICE) 1%positive [x01; x02; x03; x04]
           "f"%string).
  - reflexivity.
  - reflexivity.
  - reflexivity.
  - reflexivity.
  - reflexivity.
  - vm_compute. discriminate.
  - reflexivity.
  - apply not_elem_of_empty.
Defined.

Lemma dump_failure_after_migration_witness :
  ∃ s' b' a', dump (build:=gpu_float) 0 "f" one_device_float_readonly
                = Throw runtime_error s'
      ∧ objs s' !! 0%nat = Some b'
      ∧ mem_type b' = PAGEABLE ∧ on_gpu b' = false
      ∧ size b' = 1
      ∧ data b' = Some a' ∧ heap one_device_float_readonly !! a' = None
      ∧ contents (build:=gpu_float) s' b'
        = contents (build:=gpu_float) one_device_float_readonly
            (mkMemoryBuffer (Some 1%positive) 1 DEVICE)
      ∧ is_Some (contents (build:=gpu_float) one_device_float_readonly
                   (mkMemoryBuffer (Some 1%positive) 1 DEVICE))
      ∧ heap s' !! 1%positive = None
      ∧ base.size (heap s') = base.size (heap one_device_float_readonly).
Proof.
  apply (@dump_failure_after_migration gpu_float one_device_float_readonly 0%nat
           (mkMemoryBuffer (Some 1%positive) 1 DEVICE) 1%positive [x01; x02; x03; x04]
           "f"%string).
  - reflexivity.
  - reflexivity.
  - reflexivity.
  - reflexivity.
  - reflexivity.
  - vm_compute. discriminate.
  - reflexivity.
  - unfold one_device_float_readonly. cbn. apply elem_of_singleton_2. reflexivity.
Defined.

Lemma from_dump_failure_leaks_witness :
  ∃ s' a, from_dump (build:=cpu_double) 0 "f" five_byte_file = Throw invalid_argument s'
      ∧ heap five_byte_file !! a = None
      ∧ heap s' !! a = Some [x01; x02; x03; x04; x05]
      ∧ base.size (heap s') = S (base.size (heap five_byte_file))
      ∧ (∀ x, x ≠ a → heap s' !! x = heap five_byte_file !! x)
      ∧ (∀ id b, objs s' !! id = Some b → objs five_byte_file !! id = Some b).
Proof.
  apply (@from_dump_failure_leaks cpu_double five_byte_file 0%nat "f"%string
           [x01; x02; x03; x04; x05]).
  - reflexivity.
  - reflexivity.
Defined.

Lemma from_dump_then_dump_witness :
  ∃ s', (from_dump (build:=cpu_short) 0 "f";; dump (build:=cpu_short) 0 "g") nine_byte_file
        = Return tt s'
      ∧ files s' !! "g"%string
        = Some (take (N.to_nat (9 / sizeof (build:=cpu_short) * sizeof (build:=cpu_short)))
                  [x01; x02; x03; x04; x05; x06; x07; x08; x09])
      ∧ (9 mod sizeof (build:=cpu_short) = 0
         → files s' !! "g"%string = Some [x01; x02; x03; x04; x05; x06; x07; x08; x09])
      ∧ (9 mod sizeof (build:=cpu_short) ≠ 0
         → files s' !! "g"%string ≠ Some [x01; x02; x03; x04; x05; x06; x07; x08; x09]).
Proof.
  apply (@from_dump_then_dump cpu_short nine_byte_file 0%nat "f"%string "g"%string
           [x01; x02; x03; x04; x05; x06; x07; x08; x09]).
  - reflexivity.
  - vm_compute. discriminate.
  - reflexivity.
  - apply not_elem_of_empty.
Defined.

Lemma move_then_destroy_both_witness :
  ∃ s', (MemoryBuffer_move 1 0;; destroy (build:=cpu_float) 0;;
         destroy (build:=cpu_float) 1) one_float = Return tt s'
      ∧ heap s' = delete 1%positive (heap one_float)
      ∧ objs s' !! 1%nat = None ∧ objs s' !! 0%nat = None
      ∧ (∀ id, id ≠ 1%nat → id ≠ 0%nat → objs s' !! id = objs one_float !! id).
Proof.
  apply (@move_then_destroy_both cpu_float one_float 1%nat 0%nat
           (mkMemoryBuffer (Some 1%positive) 1 PAGEABLE) 1%positive [x01; x02; x03; x04]).
  - reflexivity.
  - discriminate.
  - reflexivity.
  - reflexivity.
  - left. reflexivity.
Defined.

Lemma copy_then_destroy_both_witness :
  ∃ s', (MemoryBuffer_copy (build:=cpu_float) 1 0;; destroy (build:=cpu_float) 1;;
         destroy (build:=cpu_float) 0) one_float = Return tt s'
      ∧ heap s' = delete 1%positive (heap one_float)
      ∧ objs s' !! 1%nat = None ∧ objs s' !! 0%nat = None
      ∧ (∀ id, id ≠ 1%nat → id ≠ 0%nat → objs s' !! id = objs one_float !! id).
Proof.
  apply (@copy_then_destroy_both cpu_float one_float 1%nat 0%nat
           (mkMemoryBuffer (Some 1%positive) 1 PAGEABLE) 1%positive [x01; x02; x03; x04]).
  - reflexivity.
  - discriminate.
  - reflexivity.
  - reflexivity.
  - vm_compute. discriminate.
  - reflexivity.
  - intros _. reflexivity.
Defined.

Lemma self_move_assign_releases_witness :
  ∃ s' b', move_assign (build:=cpu_float) 0 0 one_float = Return tt s'
      ∧ objs s' !! 0%nat = Some b'
      ∧ data b' = None ∧ operator_bool b' = false ∧ size b' = 1
      ∧ heap s' = delete 1%positive (heap one_float).
Proof.
  apply (@self_move_assign_releases cpu_float one_float 0%nat
           (mkMemoryBuffer (Some 1%positive) 1 PAGEABLE) 1%positive [x01; x02; x03; x04]).
  - reflexivity.
  - reflexivity.
  - reflexivity.
  - left. reflexivity.
Defined.

Lemma copy_of_empty_witness :
  ∃ s' b', MemoryBuffer_copy (build:=cpu_float) 2 1 float_and_empty = Return tt s'
      ∧ objs s' !! 2%nat = Some b'
      ∧ data b' = None ∧ size b' = 0 ∧ mem_type b' = PAGEABLE
      ∧ heap s' = heap float_and_empty
      ∧ objs s' !! 1%nat = Some (mkMemoryBuffer None 0 PAGEABLE).
Proof.
  apply (@copy_of_empty cpu_float float_and_empty 2%nat 1%nat
           (mkMemoryBuffer None 0 PAGEABLE)).
  - reflexivity.
  - discriminate.
  - reflexivity.
Defined.

Lemma copy_assign_from_empty_dangles_witness :
  ∃ s' t', copy_assign (build:=cpu_float) 0 1 float_and_empty = Return tt s'
      ∧ objs s' !! 0%nat = Some t'
      ∧ data t' = Some 1%positive ∧ operator_bool t' = true
      ∧ size t' = 0 ∧ mem_type t' = PAGEABLE
      ∧ heap s' !! 1%positive = None.
Proof.
  apply (@copy_assign_from_empty_dangles cpu_float float_and_empty 0%nat 1%nat
           (mkMemoryBuffer (Some 1%positive) 1 PAGEABLE)
           (mkMemoryBuffer None 0 PAGEABLE) 1%positive [x01; x02; x03; x04]).
  - reflexivity.
  - reflexivity.
  - discriminate.
  - reflexivity.
  - reflexivity.
  - left. reflexivity.
  - reflexivity.
Defined.

Lemma adopt_then_destroy_witness :
  ∃ s', (MemoryBuffer_adopt (build:=cpu_float) 1 (Some 1%positive) 1 PAGEABLE;;
         destroy (build:=cpu_float) 1) five_byte_block = Return tt s'
      ∧ heap s' = delete 1%positive (heap five_byte_block)
      ∧ objs s' !! 1%nat = None.
Proof.
  apply (@adopt_then_destroy cpu_float five_byte_block 1%nat 1%positive
           [x01; x02; x03; x04; x05] 1 PAGEABLE).
  - reflexivity.
  - discriminate.
  - intros _. reflexivity.
Defined.

Lemma subscript_write_other_element_witness :
  ∃ s', subscript_write (build:=cpu_float) 0 0 [x09; x09; x09; x09] two_element_buffer
        = Return tt s'
      ∧ element (build:=cpu_float) s' 0 1
        = element (build:=cpu_float) two_element_buffer 0 1.
Proof.
  eexists. split; [vm_compute; reflexivity|].
  apply (@subscript_write_other_element cpu_float two_element_buffer _ 0%nat 0%Z 1%Z
           [x09; x09; x09; x09]).
  - vm_compute. reflexivity.
  - discriminate.
Defined.

(** A run on a build with [__GPU__]: a caller's block is adopted, copied,
    sent to the device, dumped (which brings it back), loaded again,
    re-allocated, copy-assigned, and a constructor call throws.  Three
    buffers are left, and each satisfies the invariant. *)
Lemma reachable_invariant_witness :
  ∃ s1 s2 s3 s4 s5 s6 s7 s8,
    exec (build:=gpu_float) (Adopt 0 (Some 1%positive) 1 PAGEABLE) five_byte_block
      = Return tt s1
    ∧ exec (build:=gpu_float) (Copy 1 0) s1 = Return tt s2
    ∧ exec (build:=gpu_float) (ToGpu 0) s2 = Return tt s3
    ∧ exec (build:=gpu_float) (Dump 0 "g") s3 = Return tt s4
    ∧ exec (build:=gpu_float) (FromDump 2 "g") s4 = Return tt s5
    ∧ exec (build:=gpu_float) (Allocate 1 3 PINNED) s5 = Return tt s6
    ∧ exec (build:=gpu_float) (CopyAssign 2 1) s6 = Return tt s7
    ∧ exec (build:=gpu_float) (Sized 3 MANAGED 0 DEVICE) s7 = Throw invalid_argument s8
    ∧ objs s8 !! 0%nat = Some (mkMemoryBuffer (Some 4%positive) 1 PAGEABLE)
    ∧ objs s8 !! 1%nat = Some (mkMemoryBuffer (Some 6%positive) 3 PINNED)
    ∧ objs s8 !! 2%nat = Some (mkMemoryBuffer (Some 7%positive) 3 PINNED)
    ∧ objs s8 !! 3%nat = None
    ∧ invariant s8.
Proof.
  pose proof (reachable_start (build:=gpu_float) (heap five_byte_block) ∅ ∅) as H0.
  change (reachable (build:=gpu_float) five_byte_block) in H0.
  eassert (E1 : exec (build:=gpu_float) (Adopt 0 (Some 1%positive) 1 PAGEABLE)
                  five_byte_block = Return tt _) by (vm_compute; reflexivity).
  pose proof (reachable_call (build:=gpu_float) (Adopt 0 (Some 1%positive) 1 PAGEABLE) _ _
                H0 eq_refl eq_refl (or_introl (ex_intro _ tt E1))) as H1.
  lazymatch type of H1 with reachable ?s =>
    eassert (E2 : exec (build:=gpu_float) (Copy 1 0) s = Return tt _)
      by (vm_compute; reflexivity) end.
  pose proof (reachable_call (build:=gpu_float) (Copy 1 0) _ _
                H1 eq_refl eq_refl (or_introl (ex_intro _ tt E2))) as H2.
  lazymatch type of H2 with reachable ?s =>
    eassert (E3 : exec (build:=gpu_float) (ToGpu 0) s = Return tt _)
      by (vm_compute; reflexivity) end.
  pose proof (reachable_call (build:=gpu_float) (ToGpu 0) _ _
                H2 eq_refl I (or_introl (ex_intro _ tt E3))) as H3.
  lazymatch type of H3 with reachable ?s =>
    eassert (E4 : exec (build:=gpu_float) (Dump 0 "g") s = Return tt _)
      by (vm_compute; reflexivity) end.
  pose proof (reachable_call (build:=gpu_float) (Dump 0 "g") _ _
                H3 eq_refl I (or_introl (ex_intro _ tt E4))) as H4.
  lazymatch type of H4 with reachable ?s =>
    eassert (E5 : exec (build:=gpu_float) (FromDump 2 "g") s = Return tt _)
      by (vm_compute; reflexivity) end.
  pose proof (reachable_call (build:=gpu_float) (FromDump 2 "g") _ _
                H4 eq_refl eq_refl (or_introl (ex_intro _ tt E5))) as H5.
  lazymatch type of H5 with reachable ?s =>
    eassert (E6 : exec (build:=gpu_float) (Allocate 1 3 PINNED) s = Return tt _)
      by (vm_compute; reflexivity) end.
  pose proof (reachable_call (build:=gpu_float) (Allocate 1 3 PINNED) _ _
                H5 eq_refl I (or_introl (ex_intro _ tt E6))) as H6.
  lazymatch type of H6 with reachable ?s =>
    eassert (E7 : exec (build:=gpu_float) (CopyAssign 2 1) s = Return tt _)
      by (vm_compute; reflexivity);
    assert (A7 : admissible (CopyAssign 2 1) s)
      by (intros (_ & bt & bo & _ & Ho & _ & Hdo); vm_compute in Ho;
          injection Ho as <-; discriminate Hdo) end.
  pose proof (reachable_call (build:=gpu_float) (CopyAssign 2 1) _ _
                H6 eq_refl A7 (or_introl (ex_intro _ tt E7))) as H7.
  lazymatch type of H7 with reachable ?s =>
    eassert (E8 : exec (build:=gpu_float) (Sized 3 MANAGED 0 DEVICE) s
                  = Throw invalid_argument _)
      by (vm_compute; reflexivity) end.
  pose proof (reachable_call (build:=gpu_float) (Sized 3 MANAGED 0 DEVICE) _ _
                H7 eq_refl eq_refl (or_intror (ex_intro _ invalid_argument E8))) as H8.
  eexists _, _, _, _, _, _, _, _.
  repeat (split; [eassumption|]).
  repeat (split; [reflexivity|]).
  exact (reachable_invariant _ H8).
Defined.

Lemma set_image_accepts_witness :
  FITS.set_image (fitsio:=FITS.fitsio_h) (FITS.mkHDU (Some 1%positive) 8 (1, 4)%Z 11)
    (-32) (Some 2%positive) 1 1 two_floats
  = (FITS.mkHDU (Some 2%positive) (-32) (1, 1)%Z 42,
     Return tt (FITS.without_image (FITS.mkHDU (Some 1%positive) 8 (1, 4)%Z 11) two_floats)).
Proof.
  apply (@FitsProofs.set_image_accepts FITS.fitsio_h
           (FITS.mkHDU (Some 1%positive) 8 (1, 4)%Z 11) (-32)%Z 42%Z
           (Some 2%positive) 1%Z 1%Z two_floats).
  - apply list_elem_of_here.
  - vm_compute. eauto.
Defined.

Lemma set_image_rejects_after_update_witness :
  FITS.set_image (fitsio:=FITS.fitsio_h) (FITS.mkHDU (Some 1%positive) 8 (1, 4)%Z 11)
    16 (Some 2%positive) 1 2 two_floats
  = (FITS.mkHDU (Some 2%positive) 16 (1, 2)%Z 11,
     Throw invalid_argument
       (FITS.without_image (FITS.mkHDU (Some 1%positive) 8 (1, 4)%Z 11) two_floats)).
Proof.
  apply (@FitsProofs.set_image_rejects_after_update FITS.fitsio_h
           (FITS.mkHDU (Some 1%positive) 8 (1, 4)%Z 11) 16%Z
           (Some 2%positive) 1%Z 2%Z two_floats).
  - apply (bool_decide_unpack _). vm_compute. exact I.
  - vm_compute. eauto.
Defined.

Lemma set_image_same_pointer_dangles_witness :
  ∃ this' o s',
    FITS.set_image (fitsio:=FITS.fitsio_h) (FITS.mkHDU (Some 1%positive) 8 (1, 4)%Z 11)
      8 (Some 1%positive) 1 4 two_floats = (this', o)
    ∧ leaves o s'
    ∧ FITS.data this' = Some 1%positive
    ∧ heap s' !! 1%positive = None.
Proof.
  apply (@FitsProofs.set_image_same_pointer_dangles FITS.fitsio_h
           (FITS.mkHDU (Some 1%positive) 8 (1, 4)%Z 11) 8%Z 1%positive
           [x01; x02; x03; x04] 1%Z 4%Z two_floats).
  - reflexivity.
  - reflexivity.
Defined.

(** ** Buffers without storage and persistence *)

Section EmptyBuffers.
Context {build : Build}.

Lemma to_cpu_without_storage s this b to_type :
  objs s !! this = Some b →
  _data b = None →
  to_cpu this to_type s = Return tt s.
Proof.
  intros Hb Hd. unfold to_cpu. destruct b as [p k mt]. cbn in Hd. subst p.
  destruct __GPU__, mt; crank; reflexivity.
Qed.

(** An empty buffer does not survive the round trip: [dump] of a buffer
    with a null handle and count 0 returns and writes an empty file, and
    [from_dump] on that file throws [invalid_argument] instead of returning
    an empty buffer. *)
Theorem dump_of_empty_cannot_be_loaded s this that b filename :
  objs s !! this = Some b →
  _data b = None →
  n b = 0 →
  filename ∉ readonly s →
  ∃ s1 s2, dump this filename s = Return tt s1
      ∧ files s1 !! filename = Some []
      ∧ objs s1 = objs s ∧ heap s1 = heap s
      ∧ from_dump that filename s1 = Throw invalid_argument s2.
Proof.
  intros Hb Hd Hn Hw. unfold dump.
  rewrite bind_run, (to_cpu_without_storage _ _ _ _ Hb Hd).
  rewrite bind_run, (get_run _ _ _ Hb), bind_run, Hd, Hn.
  assert (size_mul 0 sizeof = 0) as -> by reflexivity.
  unfold read_bytes at 1. cbn [N.eqb]. rewrite bind_run. unfold ofstream_write.
  rewrite bool_decide_eq_false_2 by done.
  eexists _, _. split; [reflexivity|]. cbn.
  split; [apply lookup_insert_eq|]. split; [done|]. split; [done|].
  rewrite (from_dump_run _ _ _ []) by (cbn; apply lookup_insert_eq).
  reflexivity.
Qed.

(** The count a move leaves behind is a trap: [dump] on a moved-from buffer
    asks the stream to write [n * sizeof(T)] bytes from a null pointer,
    which is undefined behaviour. *)
Theorem dump_of_moved_from_is_undefined s this other b filename :
  objs s !! other = Some b →
  this ≠ other →
  size_mul (n b) sizeof ≠ 0 →
  (MemoryBuffer_move this other;; dump other filename) s = Undefined.
Proof.
  intros Hb Hne Hlen.
  rewrite bind_run, (MemoryBuffer_move_run _ _ _ _ Hb Hne). cbv beta iota.
  unfold dump. rewrite bind_run.
  erewrite to_cpu_without_storage; [|cbn; apply lookup_insert_eq|done].
  rewrite bind_run. unfold get at 1. cbn [objs set_objs]. rewrite lookup_insert_eq.
  rewrite bind_run. cbn [_data n]. unfold read_bytes.
  by rewrite (proj2 (N.eqb_neq _ _) Hlen).
Qed.

End EmptyBuffers.

Lemma dump_of_empty_cannot_be_loaded_witness :
  ∃ s1 s2, dump (build:=cpu_float) 1 "f" float_and_empty = Return tt s1
      ∧ files s1 !! "f"%string = Some []
      ∧ objs s1 = objs float_and_empty ∧ heap s1 = heap float_and_empty
      ∧ from_dump (build:=cpu_float) 2 "f" s1 = Throw invalid_argument s2.
Proof.
  apply (@dump_of_empty_cannot_be_loaded cpu_float float_and_empty 1%nat 2%nat
           (mkMemoryBuffer None 0 PAGEABLE) "f"%string).
  - reflexivity.
  - reflexivity.
  - reflexivity.
  - apply not_elem_of_empty.
Defined.

Lemma dump_of_moved_from_is_undefined_witness :
  (MemoryBuffer_move 1 0;; dump (build:=cpu_float) 0 "f") one_float = Undefined.
Proof.
  apply (@dump_of_moved_from_is_undefined cpu_float one_float 1%nat 0%nat
           (mkMemoryBuffer (Some 1%positive) 1 PAGEABLE) "f"%string).
  - reflexivity.
  - discriminate.
  - vm_compute. discriminate.
Defined.
